(** * Foundation inquiry bot: the inquiry pipeline, embedded and verified

    The development follows the Go sources of the bot.

    - [internal/handlers/handlers.go]: the verification of the signature
      of a request ([verifySlackSignature], [calculateSignature]), the
      entry points and the dispatch of events ([HandleSlackEvents],
      [HandleInteractiveComponents], [processSlackEvent],
      [handleReactionEvent]);
    - [internal/services/search.go]: keyword extraction, scoring, ranking
      and the search over both sources ([extractKeywords],
      [calculateRelevanceScore], [filterAndRankResults], [SearchAll]);
    - [internal/services/confluence.go]: [sanitizeCQLQuery], [SearchPages],
      [extractContentText];
    - [internal/services/llm.go]: [buildContext];
    - [internal/config]: [Load] and its helpers;
    - the inquiry service: [ProcessInquiry], [sendResponse],
      [generateFallbackResponse], [ProcessReactionEvent];
    - [internal/storage/models.go]: the three tables.

    Part I translates the program; Part II states and proves what is
    known about it, and replays the tests of the repository.

    Conventions of the embedding.

    - A Go [string] is a sequence of bytes: Rocq's [string].  The functions
      of package [strings] are written out on bytes, with both of their
      branches: the one for ASCII text and the one that reads the text
      rune by rune ([utf8.DecodeRuneInString]; a byte that starts no
      valid encoding reads as [utf8.RuneError]).  The white space of
      [unicode.IsSpace] is written out.  The case table of package
      [unicode] is not: [strings.ToLower] takes it as a parameter, and
      the pipeline reads it in [Env]; nothing is assumed about it.
    - [int64] is [Z] with the wrap-around of two's complement written out
      ([wrap64]); the [int] of [Config.MaxSearchResults] is [Z]; the
      [uint] primary keys are [nat].
    - The [float64] scores are ratios of two small counters; they are
      modelled by the rationals [Q].  (A NaN would not pass the threshold
      filter: every comparison with NaN is false.)
    - A run-time panic (an index or a slice bound out of range) is [None]
      in the option monad; a Go [error] is the [Err] branch of [result].
    - The collaborators (chat platform, documentation platform, language
      model) and the clock are oracles, gathered in the record [Env],
      along with the case table.
    - The store is the record [DB], one list of rows per table.  It is
      taken to be reliable: a statement fails only on a constraint.  The
      bookkeeping columns of gorm ([CreatedAt], [UpdatedAt], [DeletedAt])
      and the dates of search results are left out: the service deletes
      no row and reads none of these columns.
    - HMAC-SHA256 and the hexadecimal encoding are written out, so that
      signatures can be computed. *)

From Stdlib Require Import ZArith QArith Ascii String DecimalString List Permutation Sorted Lia.
From stdpp Require Import base option list strings.

Set Default Goal Selector "!".

(** [simpl] may unfold the concatenation of strings. *)
#[local] Arguments String.append !_ _ / : simpl nomatch.

(* ================================================================== *)
(** * Part I. The program                                               *)
(* ================================================================== *)

(** ** Bytes and runes: packages [unicode/utf8] and [unicode] *)

(** The value of a byte, and the byte of a value. *)
Definition byteOf (c : ascii) : Z := Z.of_N (N_of_ascii c).
Definition byteAt (b : Z) : ascii := ascii_of_N (Z.to_N b).

Module utf8.

Definition RuneError : Z := 0xFFFD.
Definition RuneSelf : Z := 0x80.
Definition MaxRune : Z := 0x10FFFF.

(** The tables [first] and [acceptRanges]: for the first byte of a
    sequence, its size and the range of its second byte; [None] for a
    byte that starts no sequence. *)
Definition leading (s0 : Z) : option (nat * Z * Z) :=
  if (0xC2 <=? s0)%Z && (s0 <=? 0xDF)%Z then Some (2%nat, 0x80%Z, 0xBF%Z)
  else if (s0 =? 0xE0)%Z then Some (3%nat, 0xA0%Z, 0xBF%Z)
  else if (s0 =? 0xED)%Z then Some (3%nat, 0x80%Z, 0x9F%Z)
  else if (0xE1 <=? s0)%Z && (s0 <=? 0xEF)%Z then Some (3%nat, 0x80%Z, 0xBF%Z)
  else if (s0 =? 0xF0)%Z then Some (4%nat, 0x90%Z, 0xBF%Z)
  else if (0xF1 <=? s0)%Z && (s0 <=? 0xF3)%Z then Some (4%nat, 0x80%Z, 0xBF%Z)
  else if (s0 =? 0xF4)%Z then Some (4%nat, 0x80%Z, 0x8F%Z)
  else None.

(** A continuation byte: [locb <= b && b <= hicb]. *)
Definition continuation (b : Z) : bool := (0x80 <=? b)%Z && (b <=? 0xBF)%Z.

(** [DecodeRuneInString]: the rune at the head of [s] and its width in
    bytes.  A byte that starts no valid encoding reads as [RuneError]
    with the width 1; so does [range] over a string. *)
Definition DecodeRuneInString (s : string) : Z * nat :=
  match s with
  | EmptyString => (RuneError, 0)
  | String c0 rest =>
      let s0 := byteOf c0 in
      if (s0 <? RuneSelf)%Z then (s0, 1)
      else
        match leading s0, rest with
        | Some (sz, lo, hi), String c1 rest1 =>
            let s1 := byteOf c1 in
            if (s1 <? lo)%Z || (hi <? s1)%Z then (RuneError, 1)
            else
              match sz, rest1 with
              | 2, _ =>
                  (Z.lor (Z.shiftl (Z.land s0 0x1F) 6) (Z.land s1 0x3F), 2)
              | _, String c2 rest2 =>
                  let s2 := byteOf c2 in
                  if negb (continuation s2) then (RuneError, 1)
                  else
                    match sz, rest2 with
                    | 3, _ =>
                        (Z.lor (Z.lor (Z.shiftl (Z.land s0 0x0F) 12)
                                  (Z.shiftl (Z.land s1 0x3F) 6))
                           (Z.land s2 0x3F), 3)
                    | _, String c3 _ =>
                        let s3 := byteOf c3 in
                        if negb (continuation s3) then (RuneError, 1)
                        else
                          (Z.lor (Z.lor (Z.lor (Z.shiftl (Z.land s0 0x07) 18)
                                           (Z.shiftl (Z.land s1 0x3F) 12))
                                    (Z.shiftl (Z.land s2 0x3F) 6))
                             (Z.land s3 0x3F), 4)
                    | _, EmptyString => (RuneError, 1)
                    end
              | _, EmptyString => (RuneError, 1)
              end
        | _, _ => (RuneError, 1)
        end
  end.

(** The three bytes of [RuneError]. *)
Definition errorBytes : string :=
  String (byteAt 0xEF) (String (byteAt 0xBF) (String (byteAt 0xBD) EmptyString)).

(** [AppendRune] to nothing: the encoding of a rune.  A rune out of
    range, a surrogate half included, is written as [RuneError]. *)
Definition AppendRune (r : Z) : string :=
  if (0 <=? r)%Z && (r <=? 0x7F)%Z then String (byteAt r) EmptyString
  else if (0 <=? r)%Z && (r <=? 0x7FF)%Z
  then String (byteAt (Z.lor 0xC0 (Z.shiftr r 6)))
         (String (byteAt (Z.lor 0x80 (Z.land r 0x3F))) EmptyString)
  else if (r <? 0)%Z || (MaxRune <? r)%Z || ((0xD800 <=? r)%Z && (r <=? 0xDFFF)%Z)
  then errorBytes
  else if (r <=? 0xFFFF)%Z
  then String (byteAt (Z.lor 0xE0 (Z.shiftr r 12)))
         (String (byteAt (Z.lor 0x80 (Z.land (Z.shiftr r 6) 0x3F)))
            (String (byteAt (Z.lor 0x80 (Z.land r 0x3F))) EmptyString))
  else String (byteAt (Z.lor 0xF0 (Z.shiftr r 18)))
         (String (byteAt (Z.lor 0x80 (Z.land (Z.shiftr r 12) 0x3F)))
            (String (byteAt (Z.lor 0x80 (Z.land (Z.shiftr r 6) 0x3F)))
               (String (byteAt (Z.lor 0x80 (Z.land r 0x3F))) EmptyString))).

End utf8.

Module unicode.

Definition MaxASCII : Z := 0x7F.
Definition MaxLatin1 : Z := 0xFF.

(** The table [White_Space] above Latin-1. *)
Definition White_Space (r : Z) : bool :=
  (r =? 0x1680)%Z
  || ((0x2000 <=? r)%Z && (r <=? 0x200A)%Z)
  || (r =? 0x2028)%Z || (r =? 0x2029)%Z
  || (r =? 0x202F)%Z || (r =? 0x205F)%Z
  || (r =? 0x3000)%Z.

Definition IsSpace (r : Z) : bool :=
  if (0 <=? r)%Z && (r <=? MaxLatin1)%Z
  then ((9 <=? r)%Z && (r <=? 13)%Z) || (r =? 0x20)%Z
       || (r =? 0x85)%Z || (r =? 0xA0)%Z
  else White_Space r.

(** [ToLower].  Above ASCII the answer is read off the table
    [CaseRanges], which is not part of the repository: [To_LowerCase] is
    [To(LowerCase, r)]. *)
Definition ToLower (To_LowerCase : Z → Z) (r : Z) : Z :=
  if (r <=? MaxASCII)%Z
  then if (65 <=? r)%Z && (r <=? 90)%Z then (r + 32)%Z else r
  else To_LowerCase r.

End unicode.

(** ** Package [strings] *)

Module strings.

(** No byte of [s] is [utf8.RuneSelf] or more. *)
Definition isASCII (s : string) : bool :=
  forallb (fun c => (byteOf c <? utf8.RuneSelf)%Z) (list_ascii_of_string s).

Definition byte_in (c : ascii) (cutset : string) : bool :=
  existsb (Ascii.eqb c) (list_ascii_of_string cutset).

(** ['A' <= c && c <= 'Z'] then [c += 'a' - 'A']. *)
Definition toLowerByte (c : ascii) : ascii :=
  let n := nat_of_ascii c in
  if (65 <=? n)%nat && (n <=? 90)%nat then ascii_of_nat (n + 32) else c.

(** The first branch of [ToLower], for a string of ASCII bytes: every
    byte is lowered. *)
Fixpoint toLowerBytes (s : string) : string :=
  match s with
  | EmptyString => EmptyString
  | String c s' => String (toLowerByte c) (toLowerBytes s')
  end.

(** The loops of [Map] over the runes of the string: a rune that the
    mapping leaves as it is keeps its bytes, which are its encoding; any
    other rune, and every byte that starts no valid encoding (it reads
    as [utf8.RuneError]), is replaced by the encoding of what the
    mapping returns; a negative answer drops the rune.  [skip] counts
    the bytes of the current rune that are still to be passed. *)
Fixpoint mapRunes (mapping : Z → Z) (skip : nat) (s : string) : string :=
  match s with
  | EmptyString => EmptyString
  | String c s' =>
      match skip with
      | S k => mapRunes mapping k s'
      | O =>
          let '(rune, width) := utf8.DecodeRuneInString s in
          let r := mapping rune in
          (if (0 <=? r)%Z then utf8.AppendRune r else EmptyString)
          +:+ mapRunes mapping (width - 1) s'
      end
  end.

Definition Map (mapping : Z → Z) (s : string) : string := mapRunes mapping 0 s.

(** [ToLower]: a string of ASCII bytes is lowered byte by byte, any
    other string is [Map(unicode.ToLower, s)].  [To_LowerCase] stands
    for the case table of package [unicode]. *)
Definition ToLower (To_LowerCase : Z → Z) (s : string) : string :=
  if isASCII s then toLowerBytes s
  else Map (unicode.ToLower To_LowerCase) s.

(** [asciiSpace]: tab, newline, vertical tab, form feed, carriage
    return and space. *)
Definition isSpace (c : ascii) : bool :=
  let n := nat_of_ascii c in
  ((9 <=? n)%nat && (n <=? 13)%nat) || (n =? 32)%nat.

(** Splitting at every white-space byte; the head of the result is the
    word being read. *)
Fixpoint splitSpace (s : string) : list string :=
  match s with
  | EmptyString => [EmptyString]
  | String c s' =>
      if isSpace c then EmptyString :: splitSpace s'
      else match splitSpace s' with
           | w :: ws => String c w :: ws
           | [] => [String c EmptyString]
           end
  end.

Definition nonEmpty (s : string) : bool :=
  match s with EmptyString => false | _ => true end.

(** The loop of [FieldsFunc] over the runes of the string; the head of
    the result is the word being read.  [skip] counts the bytes of the
    current rune that are still to be passed, [inSpace] says that this
    rune is a space. *)
Fixpoint splitRunes (f : Z → bool) (skip : nat) (inSpace : bool) (s : string)
  : list string :=
  match s with
  | EmptyString => [EmptyString]
  | String c s' =>
      match skip with
      | S k =>
          if inSpace then splitRunes f k inSpace s'
          else match splitRunes f k inSpace s' with
               | w :: ws => String c w :: ws
               | [] => [String c EmptyString]
               end
      | O =>
          let '(rune, width) := utf8.DecodeRuneInString s in
          if f rune then EmptyString :: splitRunes f (width - 1) true s'
          else match splitRunes f (width - 1) false s' with
               | w :: ws => String c w :: ws
               | [] => [String c EmptyString]
               end
      end
  end.

Definition FieldsFunc (s : string) (f : Z → bool) : list string :=
  List.filter nonEmpty (splitRunes f 0 false s).

(** [Fields]: the maximal runs of bytes without white space.  A string
    of ASCII bytes is split at the bytes of [asciiSpace]; any other
    string is split at the runes of [unicode.IsSpace]. *)
Definition Fields (s : string) : list string :=
  if isASCII s then List.filter nonEmpty (splitSpace s)
  else FieldsFunc s unicode.IsSpace.

Definition Join (elems : list string) (sep : string) : string :=
  String.concat sep elems.

Fixpoint TrimLeft (s cutset : string) : string :=
  match s with
  | EmptyString => EmptyString
  | String c s' => if byte_in c cutset then TrimLeft s' cutset else s
  end.

Fixpoint TrimRight (s cutset : string) : string :=
  match s with
  | EmptyString => EmptyString
  | String c s' =>
      match TrimRight s' cutset with
      | EmptyString =>
          if byte_in c cutset then EmptyString else String c EmptyString
      | r => String c r
      end
  end.

Definition Trim (s cutset : string) : string :=
  TrimRight (TrimLeft s cutset) cutset.

Definition HasPrefix (s pre : string) : bool := String.prefix pre s.
#[global] Arguments HasPrefix : simpl never.

Fixpoint Contains (s substr : string) : bool :=
  HasPrefix s substr
  || match s with
     | EmptyString => false
     | String _ s' => Contains s' substr
     end.

(** [ReplaceAll] for a non-empty [old]: the matches are found from left
    to right and do not overlap.  [skip] counts the bytes of the current
    match that are still to be dropped. *)
Fixpoint replaceFrom (old new : string) (skip : nat) (s : string) : string :=
  match s with
  | EmptyString => EmptyString
  | String c s' =>
      match skip with
      | S k => replaceFrom old new k s'
      | O =>
          if HasPrefix s old
          then new +:+ replaceFrom old new (String.length old - 1) s'
          else String c (replaceFrom old new 0 s')
      end
  end.

(** With an empty [old], Go inserts [new] before every byte and at the
    end. *)
Fixpoint intersperse (new s : string) : string :=
  match s with
  | EmptyString => new
  | String c s' => new +:+ String c (intersperse new s')
  end.

Definition ReplaceAll (s old new : string) : string :=
  match old with
  | EmptyString => intersperse new s
  | _ => replaceFrom old new 0 s
  end.

(** [s[:n]] on bytes, for [n <= len(s)]. *)
Fixpoint slice_to (n : nat) (s : string) : string :=
  match n, s with
  | S k, String c s' => String c (slice_to k s')
  | _, _ => EmptyString
  end.

End strings.

(** ** [internal/config]: the configuration record *)

Definition float64 := Q.

Module Config.
Record t := mk {
  SlackSigningSecret : string;
  TriggerEmoji : string;
  ConfluenceBaseURL : string;
  ConfluenceAPIToken : string;
  ConfluenceSpaceKey : string;
  SimilarityThreshold : float64;
  MaxSearchResults : Z;
  SearchDaysBack : Z
}.
End Config.

(** ** [internal/storage/models.go] *)

Module SearchResult.
Record t := mk {
  ID : nat;
  InquiryID : nat;
  Source : string;
  SourceID : string;
  Title : string;
  Content : string;
  URL : string;
  Score : float64;
  Author : string
}.

Definition setID (v : nat) (r : t) : t :=
  mk v (InquiryID r) (Source r) (SourceID r) (Title r) (Content r) (URL r)
     (Score r) (Author r).
End SearchResult.

Module Inquiry.
Record t := mk {
  ID : nat;
  MessageID : string;
  ChannelID : string;
  UserID : string;
  MessageText : string;
  Timestamp : string;
  Status : string;
  ProcessedAt : option Z;
  ResponseSent : bool;
  ResponseText : string;
  ThreadTimestamp : string
}.

Definition setID (v : nat) (i : t) : t :=
  mk v (MessageID i) (ChannelID i) (UserID i) (MessageText i) (Timestamp i)
     (Status i) (ProcessedAt i) (ResponseSent i) (ResponseText i)
     (ThreadTimestamp i).

Definition setStatus (v : string) (i : t) : t :=
  mk (ID i) (MessageID i) (ChannelID i) (UserID i) (MessageText i) (Timestamp i)
     v (ProcessedAt i) (ResponseSent i) (ResponseText i) (ThreadTimestamp i).

Definition setProcessedAt (v : option Z) (i : t) : t :=
  mk (ID i) (MessageID i) (ChannelID i) (UserID i) (MessageText i) (Timestamp i)
     (Status i) v (ResponseSent i) (ResponseText i) (ThreadTimestamp i).

Definition setResponseSent (v : bool) (i : t) : t :=
  mk (ID i) (MessageID i) (ChannelID i) (UserID i) (MessageText i) (Timestamp i)
     (Status i) (ProcessedAt i) v (ResponseText i) (ThreadTimestamp i).

Definition setResponseText (v : string) (i : t) : t :=
  mk (ID i) (MessageID i) (ChannelID i) (UserID i) (MessageText i) (Timestamp i)
     (Status i) (ProcessedAt i) (ResponseSent i) v (ThreadTimestamp i).

Definition setThreadTimestamp (v : string) (i : t) : t :=
  mk (ID i) (MessageID i) (ChannelID i) (UserID i) (MessageText i) (Timestamp i)
     (Status i) (ProcessedAt i) (ResponseSent i) (ResponseText i) v.
End Inquiry.

Module ReactionEvent.
Record t := mk {
  ID : nat;
  MessageID : string;
  ChannelID : string;
  UserID : string;
  Reaction : string;
  EventType : string;
  Timestamp : string;
  Processed : bool;
  InquiryID : option nat
}.

Definition setID (v : nat) (e : t) : t :=
  mk v (MessageID e) (ChannelID e) (UserID e) (Reaction e) (EventType e)
     (Timestamp e) (Processed e) (InquiryID e).

(** [reactionEvent.Processed = true; reactionEvent.InquiryID = &id]. *)
Definition markProcessed (id : nat) (e : t) : t :=
  mk (ID e) (MessageID e) (ChannelID e) (UserID e) (Reaction e) (EventType e)
     (Timestamp e) true (Some id).
End ReactionEvent.

(** ** The store (gorm over SQLite)

    A table is the list of its rows in the order of insertion.  Go errors
    are messages. *)

Definition error := string.

Inductive result (A : Type) : Type :=
| Ok (a : A)
| Err (e : error).
Arguments Ok {A} a.
Arguments Err {A} e.

Section Table.
Context {A : Type} (key : A → nat) (setKey : nat → A → A).

(** The key that the auto-increment gives to the next row. *)
Definition nextKey (rows : list A) : nat := S (list_max (List.map key rows)).

Definition hasKey (rows : list A) (k : nat) : bool :=
  existsb (fun r => (key r =? k)%nat) rows.

(** [INSERT]: a row without key receives the next one. *)
Definition insertRow (rows : list A) (row : A) : list A * A :=
  let row' := if (key row =? 0)%nat then setKey (nextKey rows) row else row in
  (rows ++ [row'], row').

(** [UPDATE ... WHERE id = key row]. *)
Definition updateRow (rows : list A) (row : A) : list A :=
  List.map (fun r => if (key r =? key row)%nat then row else r) rows.

End Table.

Module DB.
Record t := mk {
  inquiries : list Inquiry.t;
  search_results : list SearchResult.t;
  reaction_events : list ReactionEvent.t
}.

Definition empty : t := mk [] [] [].

(** [Where("message_id = ?", messageID).First(&inquiry)]: the first row
    in the order of the keys, which is the order of insertion; [None] is
    [ErrRecordNotFound]. *)
Definition firstInquiryByMessageID (db : t) (messageID : string)
  : option Inquiry.t :=
  List.find (fun i => String.eqb (Inquiry.MessageID i) messageID) (inquiries db).

(** [Create(inquiry)]: the unique index on [message_id] and the primary
    key are enforced. *)
Definition createInquiry (db : t) (inquiry : Inquiry.t)
  : result (t * Inquiry.t) :=
  if existsb (fun i => String.eqb (Inquiry.MessageID i) (Inquiry.MessageID inquiry))
             (inquiries db)
  then Err "UNIQUE constraint failed: inquiries.message_id"
  else if negb (Inquiry.ID inquiry =? 0)%nat
          && hasKey Inquiry.ID (inquiries db) (Inquiry.ID inquiry)
  then Err "UNIQUE constraint failed: inquiries.id"
  else
    let '(rows, inquiry') :=
      insertRow Inquiry.ID Inquiry.setID (inquiries db) inquiry in
    Ok (mk rows (search_results db) (reaction_events db), inquiry').

(** [Save(inquiry)] for a row that has its key: all columns are updated,
    the row is inserted when no row has the key.  The statement fails,
    and changes nothing, when another row has the same [message_id];
    every caller drops the error. *)
Definition saveInquiry (db : t) (inquiry : Inquiry.t) : t :=
  if existsb
       (fun i => String.eqb (Inquiry.MessageID i) (Inquiry.MessageID inquiry)
                 && negb (Inquiry.ID i =? Inquiry.ID inquiry)%nat)
       (inquiries db)
  then db
  else if hasKey Inquiry.ID (inquiries db) (Inquiry.ID inquiry)
  then mk (updateRow Inquiry.ID (inquiries db) inquiry)
          (search_results db) (reaction_events db)
  else mk (inquiries db ++ [inquiry]) (search_results db) (reaction_events db).

(** [Create(&result)]: the caller only logs an error; the table has no
    constraint that a row without key could break. *)
Definition createSearchResult (db : t) (r : SearchResult.t) : t :=
  mk (inquiries db)
     (insertRow SearchResult.ID SearchResult.setID (search_results db) r).1
     (reaction_events db).

Definition createReactionEvent (db : t) (e : ReactionEvent.t)
  : result (t * ReactionEvent.t) :=
  if negb (ReactionEvent.ID e =? 0)%nat
     && hasKey ReactionEvent.ID (reaction_events db) (ReactionEvent.ID e)
  then Err "UNIQUE constraint failed: reaction_events.id"
  else
    let '(rows, e') :=
      insertRow ReactionEvent.ID ReactionEvent.setID (reaction_events db) e in
    Ok (mk (inquiries db) (search_results db) rows, e').

Definition saveReactionEvent (db : t) (e : ReactionEvent.t) : t :=
  if hasKey ReactionEvent.ID (reaction_events db) (ReactionEvent.ID e)
  then mk (inquiries db) (search_results db)
          (updateRow ReactionEvent.ID (reaction_events db) e)
  else mk (inquiries db) (search_results db) (reaction_events db ++ [e]).

End DB.

(** ** [internal/services/search.go] *)

Definition stopWordList : list string :=
  [ "the"; "a"; "an"; "and"; "or"; "but";
    "in"; "on"; "at"; "to"; "for"; "of";
    "with"; "by"; "is"; "are"; "was"; "were";
    "be"; "been"; "have"; "has"; "had"; "do";
    "does"; "did"; "will"; "would"; "should"; "could";
    "how"; "what"; "where"; "when"; "why"; "who" ]%string.

(** [stopWords[w]]: a missing key reads as [false]. *)
Definition stopWords (w : string) : bool :=
  existsb (String.eqb w) stopWordList.

(** One turn of the loop of [extractKeywords]. *)
Definition keepKeyword (keywords : list string) (word : string) : list string :=
  let cleaned := strings.Trim word ".,!?;:" in
  if (2 <? String.length cleaned)%nat && negb (stopWords cleaned)
  then keywords ++ [cleaned]
  else keywords.

(** [To_LowerCase] is the case table of package [unicode], which
    [strings.ToLower] reads for a text that is not ASCII. *)
Definition extractKeywords (To_LowerCase : Z → Z) (query : string)
  : list string :=
  let words := strings.Fields (strings.ToLower To_LowerCase query) in
  fold_left keepKeyword words [].

Definition calculateRelevanceScore (To_LowerCase : Z → Z)
    (content query : string) : float64 :=
  let content := strings.ToLower To_LowerCase content in
  let query := strings.ToLower To_LowerCase query in
  let keywords := extractKeywords To_LowerCase query in
  let score :=
    fold_left
      (fun score keyword =>
         if strings.Contains content keyword then (score + 1)%Q else score)
      keywords 0%Q in
  if (0 <? length keywords)%nat
  then (score / inject_Z (Z.of_nat (length keywords)))%Q
  else score.

(** [a < b] on scores. *)
Definition score_lt (a b : float64) : bool := negb (Qle_bool b a).

(** [a >= b] on scores. *)
Definition score_ge (a b : float64) : bool := Qle_bool b a.

(** The body of the inner loop of the sort:
    [if filtered[i].Score < filtered[j].Score { swap }].  An index out of
    range panics. *)
Definition swapIfLess (i j : nat) (filtered : list SearchResult.t)
  : option (list SearchResult.t) :=
  x ← filtered !! i;
  y ← filtered !! j;
  if score_lt (SearchResult.Score x) (SearchResult.Score y)
  then Some (<[j := x]> (<[i := y]> filtered))
  else Some filtered.

(** [for j := ...; j < len(filtered); j++], with [n] turns left. *)
Fixpoint sortInner (n i j : nat) (filtered : list SearchResult.t)
  : option (list SearchResult.t) :=
  match n with
  | O => Some filtered
  | S n' => filtered' ← swapIfLess i j filtered; sortInner n' i (S j) filtered'
  end.

(** [for i := ...; i < len(filtered)-1; i++], with [n] turns left. *)
Fixpoint sortOuter (n i : nat) (filtered : list SearchResult.t)
  : option (list SearchResult.t) :=
  match n with
  | O => Some filtered
  | S n' =>
      filtered' ← sortInner (length filtered - (i + 1)) i (i + 1) filtered;
      sortOuter n' (S i) filtered'
  end.

Definition sortByScore (filtered : list SearchResult.t)
  : option (list SearchResult.t) :=
  sortOuter (length filtered - 1) 0 filtered.

(** The filter loop of [filterAndRankResults]. *)
Definition filterByScore (cfg : Config.t) (results : list SearchResult.t)
  : list SearchResult.t :=
  fold_left
    (fun filtered result =>
       if score_ge (SearchResult.Score result) (Config.SimilarityThreshold cfg)
       then filtered ++ [result]
       else filtered)
    results [].

(** [filtered[:n]] for an [int] bound already known to be below the
    length: a negative bound panics. *)
Definition slice_upto (n : Z) (filtered : list SearchResult.t)
  : option (list SearchResult.t) :=
  if (n <? 0)%Z then None else Some (take (Z.to_nat n) filtered).

Definition filterAndRankResults (cfg : Config.t) (results : list SearchResult.t)
  : option (list SearchResult.t) :=
  let filtered := filterByScore cfg results in
  filtered ← sortByScore filtered;
  if (Config.MaxSearchResults cfg <? Z.of_nat (length filtered))%Z
  then slice_upto (Config.MaxSearchResults cfg) filtered
  else Some filtered.

(** *** A functional reading of the sort

    One turn of the outer loop walks the rest of the slice with the value
    of [filtered[i]] in hand: each strictly greater element is exchanged
    for it. *)

Fixpoint bubbleMax (x : SearchResult.t) (l : list SearchResult.t)
  : SearchResult.t * list SearchResult.t :=
  match l with
  | [] => (x, [])
  | y :: t =>
      if score_lt (SearchResult.Score x) (SearchResult.Score y)
      then let '(m, t') := bubbleMax y t in (m, x :: t')
      else let '(m, t') := bubbleMax x t in (m, y :: t')
  end.

Fixpoint exchangeSort (n : nat) (l : list SearchResult.t) : list SearchResult.t :=
  match n, l with
  | S n', x :: t => let '(m, t') := bubbleMax x t in m :: exchangeSort n' t'
  | _, _ => l
  end.

(** Descending order of scores: [l[i].Score >= l[j].Score] for [i < j]. *)
Definition score_desc (a b : SearchResult.t) : Prop :=
  (SearchResult.Score b <= SearchResult.Score a)%Q.

Definition sortedDesc (l : list SearchResult.t) : Prop :=
  ∀ i j a b, i < j → l !! i = Some a → l !! j = Some b → score_desc a b.

(** [a] stands before [b] in [l]. *)
Definition precedes (a b : SearchResult.t) (l : list SearchResult.t) : Prop :=
  ∃ i j, i < j ∧ l !! i = Some a ∧ l !! j = Some b.

(** The results of [l] whose score is [s], in the order of [l]. *)
Definition scoreClass (s : float64) (l : list SearchResult.t)
  : list SearchResult.t :=
  List.filter (fun r => Qeq_bool (SearchResult.Score r) s) l.
#[global] Arguments scoreClass : simpl never.

(** Ties keep the order they have in [input]: the results of every score
    come out in the order of [input] (the first of them, when [out] is
    truncated). *)
Definition tiesKeepOrder (input out : list SearchResult.t) : Prop :=
  ∀ s, scoreClass s out `prefix_of` scoreClass s input.

(** The results that pass the threshold, in the order of discovery. *)
Definition survivors (cfg : Config.t) (results : list SearchResult.t)
  : list SearchResult.t :=
  List.filter
    (fun r => score_ge (SearchResult.Score r) (Config.SimilarityThreshold cfg))
    results.

(** ** Packages [crypto/sha256], [crypto/hmac], [encoding/hex] *)

Module sha256.

Definition add32 (x y : Z) : Z := ((x + y) mod 2 ^ 32)%Z.
Definition not32 (x : Z) : Z := Z.lxor x 0xffffffff.
Definition rotr (n x : Z) : Z :=
  Z.lor (Z.shiftr x n) (Z.shiftl x (32 - n) mod 2 ^ 32)%Z.
Definition Ch (x y z : Z) : Z := Z.lxor (Z.land x y) (Z.land (not32 x) z).
Definition Maj (x y z : Z) : Z :=
  Z.lxor (Z.lxor (Z.land x y) (Z.land x z)) (Z.land y z).
Definition bigSigma0 (x : Z) : Z := Z.lxor (Z.lxor (rotr 2 x) (rotr 13 x)) (rotr 22 x).
Definition bigSigma1 (x : Z) : Z := Z.lxor (Z.lxor (rotr 6 x) (rotr 11 x)) (rotr 25 x).
Definition smallSigma0 (x : Z) : Z := Z.lxor (Z.lxor (rotr 7 x) (rotr 18 x)) (Z.shiftr x 3).
Definition smallSigma1 (x : Z) : Z := Z.lxor (Z.lxor (rotr 17 x) (rotr 19 x)) (Z.shiftr x 10).

(** The constants are read off the roots of the first primes: the first
    32 bits of the fractional part of the cube root (of the square root,
    for the initial hash value). *)

Definition isPrime (n : nat) : bool :=
  forallb (fun d => negb (n mod d =? 0)%nat) (seq 2 (n - 2)).

Definition primes (n : nat) : list Z :=
  take n (List.map Z.of_nat (List.filter isPrime (seq 2 310))).

(** The greatest [x] below [2 ^ b] with [x ^ k <= n], bit by bit. *)
Fixpoint rootBits (k n : Z) (b : nat) (x : Z) : Z :=
  match b with
  | O => x
  | S b' =>
      let y := (x + 2 ^ Z.of_nat b')%Z in
      rootBits k n b' (if (y ^ k <=? n)%Z then y else x)
  end.

Definition fracRoot (k p : Z) : Z :=
  (rootBits k (p * 2 ^ (32 * k)) 36 0 mod 2 ^ 32)%Z.

Definition K : list Z := List.map (fracRoot 3) (primes 64).

Definition H0 : list Z := List.map (fracRoot 2) (primes 8).

(** Big-endian bytes of a number, [n] of them. *)
Fixpoint bigEndian (n : nat) (x : Z) : list Z :=
  match n with
  | O => []
  | S n' => (Z.shiftr x (8 * Z.of_nat n') mod 256)%Z :: bigEndian n' x
  end.

Definition fromBigEndian (bytes : list Z) : Z :=
  fold_left (fun acc b => (acc * 256 + b)%Z) bytes 0%Z.

(** The message, the byte 0x80, zeros up to 56 modulo 64, and the length
    in bits on 8 bytes. *)
Definition pad (msg : list Z) : list Z :=
  let len := length msg in
  let zeros := (64 - (len + 9) mod 64) mod 64 in
  msg ++ [0x80%Z] ++ replicate zeros 0%Z ++ bigEndian 8 (8 * Z.of_nat len).

Fixpoint chunks (fuel size : nat) (l : list Z) : list (list Z) :=
  match fuel, l with
  | S fuel', _ :: _ => take size l :: chunks fuel' size (drop size l)
  | _, _ => []
  end.

(** The message schedule: [w] holds the words so far, the latest first. *)
Fixpoint schedule (n : nat) (w : list Z) : list Z :=
  match n with
  | O => w
  | S n' =>
      let at_ i := default 0%Z (w !! i) in
      let next :=
        add32 (add32 (smallSigma1 (at_ 1)) (at_ 6))
              (add32 (smallSigma0 (at_ 14)) (at_ 15)) in
      schedule n' (next :: w)
  end.

Definition round (s : list Z) (kw : Z * Z) : list Z :=
  match s with
  | [a; b; c; d; e; f; g; h] =>
      let t1 := add32 (add32 (add32 h (bigSigma1 e)) (add32 (Ch e f g) kw.1)) kw.2 in
      let t2 := add32 (bigSigma0 a) (Maj a b c) in
      [add32 t1 t2; a; b; c; add32 d t1; e; f; g]
  | _ => s
  end.

Definition block (h : list Z) (bytes : list Z) : list Z :=
  let w16 := List.map fromBigEndian (chunks 16 4 bytes) in
  let w := rev (schedule 48 (rev w16)) in
  let s := fold_left round (combine K w) h in
  List.map (fun p => add32 p.1 p.2) (combine h s).

Definition Sum256 (msg : list Z) : list Z :=
  let padded := pad msg in
  let h := fold_left block (chunks (length padded) 64 padded) H0 in
  concat (List.map (bigEndian 4) h).

End sha256.

(** The bytes of a string, as numbers. *)
Definition bytesOf (s : string) : list Z :=
  List.map (fun c => Z.of_N (N_of_ascii c)) (list_ascii_of_string s).

Definition hexDigit (d : Z) : ascii :=
  ascii_of_N (Z.to_N (if (d <? 10)%Z then 48 + d else 87 + d)%Z).

Module hex.
Definition EncodeToString (bytes : list Z) : string :=
  string_of_list_ascii
    (concat (List.map (fun b => [hexDigit (b / 16); hexDigit (b mod 16)]%Z) bytes)).
End hex.

Module hmac.

Definition blockSize : nat := 64.

(** [hmac.New(sha256.New, key)], [Write(msg)], [Sum(nil)]. *)
Definition Sum (key msg : list Z) : list Z :=
  let key := if (blockSize <? length key)%nat then sha256.Sum256 key else key in
  let key := key ++ replicate (blockSize - length key) 0%Z in
  let ipad := List.map (Z.lxor 0x36) key in
  let opad := List.map (Z.lxor 0x5c) key in
  sha256.Sum256 (opad ++ sha256.Sum256 (ipad ++ msg)).

(** The loop of [subtle.ConstantTimeCompare]: [v |= x[i] ^ y[i]]. *)
Fixpoint xorAcc (v : N) (x y : string) : N :=
  match x, y with
  | String a x', String b y' =>
      xorAcc (N.lor v (N.lxor (N_of_ascii a) (N_of_ascii b))) x' y'
  | _, _ => v
  end.

Definition ConstantTimeCompare (x y : string) : Z :=
  if negb (String.length x =? String.length y)%nat then 0%Z
  else if (xorAcc 0 x y =? 0)%N then 1%Z else 0%Z.

Definition Equal (mac1 mac2 : string) : bool :=
  (ConstantTimeCompare mac1 mac2 =? 1)%Z.

End hmac.

(** ** Package [strconv] *)

Module strconv.

Definition digitValue (c : ascii) : option Z :=
  let n := Z.of_N (N_of_ascii c) in
  if ((48 <=? n) && (n <=? 57))%Z then Some (n - 48)%Z else None.

Fixpoint parseDigits (acc : Z) (s : string) : option Z :=
  match s with
  | EmptyString => Some acc
  | String c s' =>
      match digitValue c with
      | Some d => parseDigits (acc * 10 + d)%Z s'
      | None => None
      end
  end.

(** [ParseInt(s, 10, 64)]: an optional sign, then decimal digits, at
    least one; the value must fit [int64].  [None] is any error. *)
Definition ParseInt (s : string) : option Z :=
  match s with
  | EmptyString => None
  | String c rest =>
      let neg := Ascii.eqb c "-" in
      let digits := if Ascii.eqb c "+" || neg then rest else s in
      match digits with
      | EmptyString => None
      | _ =>
          match parseDigits 0 digits with
          | None => None
          | Some un =>
              if negb neg && (2 ^ 63 <=? un)%Z then None
              else if neg && (2 ^ 63 <? un)%Z then None
              else Some (if neg then - un else un)%Z
          end
      end
  end.

End strconv.

(** ** [internal/handlers/handlers.go]: the verification of signatures *)

(** The value of an [int64] expression: two's complement wrap-around. *)
Definition wrap64 (z : Z) : Z := ((z + 2 ^ 63) mod 2 ^ 64 - 2 ^ 63)%Z.

Definition int64 (z : Z) : Prop := (- 2 ^ 63 <= z < 2 ^ 63)%Z.

(** An inbound request: its headers, under their canonical names, and
    what reading its body gives ([None] when the read fails). *)
Module Request.
Record t := mk {
  Header : list (string * string);
  Body : option string
}.
End Request.

(** [r.Header.Get(key)]: the empty string when the header is missing. *)
Definition Header_Get (r : Request.t) (key : string) : string :=
  match List.find (fun kv => String.eqb kv.1 key) (Request.Header r) with
  | Some kv => kv.2
  | None => EmptyString
  end.

Definition calculateSignature (cfg : Config.t) (timestamp body : string) : string :=
  let baseString := "v0:" +:+ timestamp +:+ ":" +:+ body in
  hex.EncodeToString
    (hmac.Sum (bytesOf (Config.SlackSigningSecret cfg)) (bytesOf baseString)).

(** [now] is [time.Now().Unix()]. *)
Definition verifySlackSignature (cfg : Config.t) (now : Z) (r : Request.t) : bool :=
  if String.eqb (Config.SlackSigningSecret cfg) "" then false
  else
    let timestamp := Header_Get r "X-Slack-Request-Timestamp" in
    if String.eqb timestamp "" then false
    else
      match strconv.ParseInt timestamp with
      | None => false
      | Some ts =>
          if (300 <? wrap64 (now - ts))%Z then false
          else
            match Request.Body r with
            | None => false
            | Some body =>
                let sig := "v0=" +:+ calculateSignature cfg timestamp body in
                let receivedSig := Header_Get r "X-Slack-Signature" in
                hmac.Equal sig receivedSig
            end
      end.

(** ** [internal/services/confluence.go] *)

(** The double quote, the newline. *)
Definition dquote : string := String (ascii_of_nat 34) EmptyString.
Definition newline : string := String (ascii_of_nat 10) EmptyString.

Definition dangerous : list string :=
  [ " AND "; " OR "; " NOT ";
    "("; ")"; "["; "]"; "{"; "}";
    dquote; "'"; "\";
    "~"; "*"; "?" ]%string.

(** The body of the loop over [dangerous]. *)
Definition replaceAllBySpace (sanitized char : string) : string :=
  strings.ReplaceAll sanitized char " ".

Definition sanitizeCQLQuery (query : string) : string :=
  let sanitized := fold_left replaceAllBySpace dangerous query in
  let words := strings.Fields sanitized in
  let sanitized := strings.Join words " " in
  if (100 <? String.length sanitized)%nat
  then strings.slice_to 100 sanitized
  else sanitized.

(** The byte [c] occurs in [s]. *)
Definition hasByte (c : ascii) (s : string) : Prop :=
  In c (list_ascii_of_string s).
#[global] Arguments hasByte : simpl never.

(** The grouping, quoting, escape and wildcard bytes of the list
    [dangerous]. *)
Definition dangerousBytes : string := "()[]{}" +:+ dquote +:+ "'\~*?".

(** ** The collaborators *)

Module SlackMessage.
Record t := mk {
  ID : string;
  Channel : string;
  User : string;
  Text : string;
  Timestamp : string;
  ThreadTS : string
}.
End SlackMessage.

Module ConfluencePage.
Record t := mk {
  ID : string;
  Title : string;
  Content : string;
  URL : string;
  Author : string
}.
End ConfluencePage.

(** What the program takes from outside the repository: the methods of
    [SlackService], the search request that
    [ConfluenceService.SearchPages] sends for a CQL expression,
    [LLMService.GenerateResponse], the clock, and the case table of
    package [unicode] ([To_LowerCase r] is [unicode.To(unicode.LowerCase, r)]
    for a rune [r] above ASCII). *)
Module Env.
Record t := mk {
  GetMessage : string → string → result SlackMessage.t;
  SearchMessages : string → Z → result (list SlackMessage.t);
  GetUserInfo : string → result string;
  PostThreadReply : string → string → string → result string;
  searchContent : string → result (list ConfluencePage.t);
  GenerateResponse : Inquiry.t → list SearchResult.t → result string;
  Now : Z;
  To_LowerCase : Z → Z
}.
End Env.

(** [ConfluenceService.SearchPages] *)
Definition SearchPages (cfg : Config.t) (env : Env.t) (query : string)
  : result (list ConfluencePage.t) :=
  if String.eqb (Config.ConfluenceBaseURL cfg) ""
     || String.eqb (Config.ConfluenceAPIToken cfg) ""
  then Ok []
  else
    let sanitizedQuery := sanitizeCQLQuery query in
    Env.searchContent env
      ("space=" +:+ Config.ConfluenceSpaceKey cfg +:+ " AND text ~ "
       +:+ dquote +:+ sanitizedQuery +:+ dquote).

(** ** [internal/services/search.go]: the search over both sources *)

Definition buildSlackMessageURL (channelID timestamp : string) : string :=
  let ts := strings.ReplaceAll timestamp "." "" in
  "https://slack.com/archives/" +:+ channelID +:+ "/p" +:+ ts.

(** The results are saved one by one; the rows receive their keys, the
    slice that is returned keeps the key 0. *)
Definition saveResults (db : DB.t) (results : list SearchResult.t) : DB.t :=
  fold_left DB.createSearchResult results db.

Definition searchSlack (cfg : Config.t) (env : Env.t) (db : DB.t)
    (query : string) (inquiryID : nat)
  : DB.t * result (list SearchResult.t) :=
  match Env.SearchMessages env query (Config.SearchDaysBack cfg) with
  | Err err => (db, Err err)
  | Ok messages =>
      let results :=
        List.map
          (fun msg =>
             let author :=
               match Env.GetUserInfo env (SlackMessage.User msg) with
               | Ok realName =>
                   if negb (String.eqb realName "") then realName
                   else SlackMessage.User msg
               | Err _ => SlackMessage.User msg
               end in
             SearchResult.mk 0 inquiryID "slack" (SlackMessage.Timestamp msg)
               "Slack Message" (SlackMessage.Text msg)
               (buildSlackMessageURL (SlackMessage.Channel msg)
                  (SlackMessage.Timestamp msg))
               (calculateRelevanceScore (Env.To_LowerCase env)
                  (SlackMessage.Text msg) query)
               author)
          messages in
      (saveResults db results, Ok results)
  end.

Definition searchConfluence (cfg : Config.t) (env : Env.t) (db : DB.t)
    (query : string) (inquiryID : nat)
  : DB.t * result (list SearchResult.t) :=
  match SearchPages cfg env query with
  | Err err => (db, Err err)
  | Ok pages =>
      let results :=
        List.map
          (fun page =>
             SearchResult.mk 0 inquiryID "confluence" (ConfluencePage.ID page)
               (ConfluencePage.Title page) (ConfluencePage.Content page)
               (ConfluencePage.URL page)
               (calculateRelevanceScore (Env.To_LowerCase env)
                  (ConfluencePage.Title page +:+ " " +:+ ConfluencePage.Content page)
                  query)
               (ConfluencePage.Author page))
          pages in
      (saveResults db results, Ok results)
  end.

(** A source that fails contributes nothing. *)
Definition orNothing (r : result (list SearchResult.t)) : list SearchResult.t :=
  match r with
  | Ok results => results
  | Err _ => []
  end.

Definition SearchAll (cfg : Config.t) (env : Env.t) (db : DB.t)
    (query : string) (inquiryID : nat)
  : option (DB.t * result (list SearchResult.t)) :=
  let keywords := extractKeywords (Env.To_LowerCase env) query in
  let searchQuery := strings.Join keywords " " in
  let '(db, slackResults) := searchSlack cfg env db searchQuery inquiryID in
  let allResults := orNothing slackResults in
  let '(db, confluenceResults) := searchConfluence cfg env db searchQuery inquiryID in
  let allResults := allResults ++ orNothing confluenceResults in
  filteredResults ← filterAndRankResults cfg allResults;
  Some (db, Ok filteredResults).

(** ** The inquiry service *)

(** [sendResponse]: the inquiry is passed by pointer; its new value is
    returned along with the store. *)
Definition sendResponse (env : Env.t) (db : DB.t) (inquiry : Inquiry.t)
    (response : string) : DB.t * Inquiry.t * result unit :=
  let formattedResponse :=
    "🤖 *AI Assistant Response*" +:+ newline +:+ newline +:+ response in
  match Env.PostThreadReply env (Inquiry.ChannelID inquiry)
          (Inquiry.Timestamp inquiry) formattedResponse with
  | Err err => (db, inquiry, Err err)
  | Ok threadTS =>
      let inquiry := Inquiry.setThreadTimestamp threadTS inquiry in
      (DB.saveInquiry db inquiry, inquiry, Ok tt)
  end.

Definition noInformation : string :=
  "I couldn't find relevant information to answer your inquiry. You might want to check our documentation or reach out to the relevant team directly.".

(** The body of the loop of [generateFallbackResponse]. *)
Definition appendResult (response : string) (result : SearchResult.t) : string :=
  let response :=
    response +:+ "• **" +:+ SearchResult.Title result +:+ "** ("
    +:+ SearchResult.Source result +:+ ")" +:+ newline in
  let response :=
    if negb (String.eqb (SearchResult.Content result) "") then
      let content := SearchResult.Content result in
      let content :=
        if (100 <? String.length content)%nat
        then strings.slice_to 100 content +:+ "..."
        else content in
      response +:+ "  " +:+ content +:+ newline
    else response in
  let response :=
    if negb (String.eqb (SearchResult.URL result) "")
    then response +:+ "  " +:+ SearchResult.URL result +:+ newline
    else response in
  response +:+ newline.

(** [for i, result := range searchResults], with [if i >= 3 { break }]. *)
Fixpoint fallbackLoop (i : nat) (searchResults : list SearchResult.t)
    (response : string) : string :=
  match searchResults with
  | [] => response
  | result :: rest =>
      if (3 <=? i)%nat then response
      else fallbackLoop (S i) rest (appendResult response result)
  end.

Definition generateFallbackResponse (searchResults : list SearchResult.t) : string :=
  if (length searchResults =? 0)%nat then noInformation
  else
    let response :=
      "I found some potentially relevant information:" +:+ newline +:+ newline in
    let response := fallbackLoop 0 searchResults response in
    response
    +:+ "Please review these resources or contact the relevant team for more specific assistance.".

(** The record that [ProcessInquiry] creates. *)
Definition newInquiry (messageID channelID userID messageText timestamp : string)
  : Inquiry.t :=
  Inquiry.mk 0 messageID channelID userID messageText timestamp
    "pending" None false "" "".

Definition ProcessInquiry (cfg : Config.t) (env : Env.t) (db : DB.t)
    (messageID channelID userID messageText timestamp : string)
  : option (DB.t * result unit) :=
  let inquiry := newInquiry messageID channelID userID messageText timestamp in
  match DB.createInquiry db inquiry with
  | Err err => Some (db, Err ("failed to create inquiry: " +:+ err))
  | Ok (db, inquiry) =>
      let inquiry := Inquiry.setStatus "processing" inquiry in
      let db := DB.saveInquiry db inquiry in
      '(db, searched) ← SearchAll cfg env db messageText (Inquiry.ID inquiry);
      match searched with
      | Err err =>
          let inquiry := Inquiry.setStatus "failed" inquiry in
          let db := DB.saveInquiry db inquiry in
          Some (db, Err ("search failed: " +:+ err))
      | Ok searchResults =>
          match Env.GenerateResponse env inquiry searchResults with
          | Err err =>
              let fallbackResponse := generateFallbackResponse searchResults in
              let '(db, inquiry, _) := sendResponse env db inquiry fallbackResponse in
              let inquiry := Inquiry.setStatus "failed" inquiry in
              let inquiry := Inquiry.setResponseText fallbackResponse inquiry in
              let db := DB.saveInquiry db inquiry in
              Some (db, Err ("AI response generation failed: " +:+ err))
          | Ok response =>
              match sendResponse env db inquiry response with
              | (db, inquiry, Err err) =>
                  let inquiry := Inquiry.setStatus "failed" inquiry in
                  let inquiry := Inquiry.setResponseText response inquiry in
                  let db := DB.saveInquiry db inquiry in
                  Some (db, Err ("failed to send response: " +:+ err))
              | (db, inquiry, Ok _) =>
                  let inquiry := Inquiry.setStatus "completed" inquiry in
                  let inquiry := Inquiry.setProcessedAt (Some (Env.Now env)) inquiry in
                  let inquiry := Inquiry.setResponseSent true inquiry in
                  let inquiry := Inquiry.setResponseText response inquiry in
                  let db := DB.saveInquiry db inquiry in
                  Some (db, Ok tt)
              end
          end
      end
  end.

Definition GetInquiryByMessageID (db : DB.t) (messageID : string)
  : result Inquiry.t :=
  match DB.firstInquiryByMessageID db messageID with
  | Some inquiry => Ok inquiry
  | None => Err "record not found"
  end.

(** The record that [ProcessReactionEvent] creates. *)
Definition newReactionEvent
    (messageID channelID userID reaction eventType timestamp : string)
  : ReactionEvent.t :=
  ReactionEvent.mk 0 messageID channelID userID reaction eventType timestamp
    false None.

Definition ProcessReactionEvent (cfg : Config.t) (env : Env.t) (db : DB.t)
    (messageID channelID userID reaction eventType timestamp : string)
  : option (DB.t * result unit) :=
  if negb (String.eqb reaction (Config.TriggerEmoji cfg))
     || negb (String.eqb eventType "added")
  then Some (db, Ok tt)
  else
    let reactionEvent :=
      newReactionEvent messageID channelID userID reaction eventType timestamp in
    match DB.createReactionEvent db reactionEvent with
    | Err err => Some (db, Err err)
    | Ok (db, reactionEvent) =>
        match DB.firstInquiryByMessageID db messageID with
        | Some existingInquiry =>
            let reactionEvent :=
              ReactionEvent.markProcessed (Inquiry.ID existingInquiry) reactionEvent in
            Some (DB.saveReactionEvent db reactionEvent, Ok tt)
        | None =>
            match Env.GetMessage env channelID messageID with
            | Err err => Some (db, Err err)
            | Ok slackMessage =>
                if String.eqb (SlackMessage.Text slackMessage) ""
                then Some (db, Err "empty Slack message")
                else
                  '(db, processed) ←
                    ProcessInquiry cfg env db messageID channelID
                      (SlackMessage.User slackMessage)
                      (SlackMessage.Text slackMessage)
                      (SlackMessage.Timestamp slackMessage);
                  match processed with
                  | Err err => Some (db, Err err)
                  | Ok _ =>
                      match GetInquiryByMessageID db messageID with
                      | Ok inquiry =>
                          let reactionEvent :=
                            ReactionEvent.markProcessed (Inquiry.ID inquiry)
                              reactionEvent in
                          Some (DB.saveReactionEvent db reactionEvent, Ok tt)
                      | Err _ => Some (db, Ok tt)
                      end
                  end
            end
        end
    end.

(** ** [internal/handlers/handlers.go]: the entry points *)

Module SlackEventItem.
Record t := mk {
  Type_ : string;
  Channel : string;
  TS : string
}.
End SlackEventItem.

Module SlackEventInner.
Record t := mk {
  Type_ : string;
  Channel : string;
  User : string;
  Text : string;
  Timestamp : string;
  EventTimestamp : string;
  Reaction : string;
  Item : SlackEventItem.t
}.
End SlackEventInner.

Module SlackEvent.
Record t := mk {
  Token : string;
  Challenge : string;
  Type_ : string;
  Event : SlackEventInner.t
}.
End SlackEvent.

(** What [c.JSON(code, gin.H{...})] writes: the status code and the
    fields of the object. *)
Module Response.
Record t := mk {
  Code : Z;
  Fields : list (string * string)
}.
End Response.

Definition StatusOK : Z := 200.
Definition StatusBadRequest : Z := 400.
Definition StatusUnauthorized : Z := 401.

(** [c.ShouldBindJSON(&event)] reads the body, which the verification
    has put back; [decode] is the JSON decoder, [None] its error. *)
Definition ShouldBindJSON (decode : string → option SlackEvent.t) (r : Request.t)
  : option SlackEvent.t :=
  match Request.Body r with
  | Some body => decode body
  | None => None
  end.

(** [HandleSlackEvents]: the answer, and the event that is handed to
    [go h.processSlackEvent(event)], if any. *)
Definition HandleSlackEvents (cfg : Config.t) (now : Z)
    (decode : string → option SlackEvent.t) (r : Request.t)
  : Response.t * option SlackEvent.t :=
  if negb (verifySlackSignature cfg now r)
  then (Response.mk StatusUnauthorized [("error", "invalid signature")]%string, None)
  else
    match ShouldBindJSON decode r with
    | None => (Response.mk StatusBadRequest [("error", "invalid JSON")]%string, None)
    | Some event =>
        if String.eqb (SlackEvent.Type_ event) "url_verification"
        then (Response.mk StatusOK [("challenge", SlackEvent.Challenge event)]%string,
              None)
        else
          let spawned :=
            if String.eqb (SlackEvent.Type_ event) "event_callback"
            then Some event else None in
          (Response.mk StatusOK [("status", "ok")]%string, spawned)
    end.

Definition HandleInteractiveComponents (cfg : Config.t) (now : Z) (r : Request.t)
  : Response.t :=
  if negb (verifySlackSignature cfg now r)
  then Response.mk StatusUnauthorized [("error", "invalid signature")]%string
  else Response.mk StatusOK [("status", "ok")]%string.

(** [handleReactionEvent]: an error of the intake is logged only. *)
Definition handleReactionEvent (cfg : Config.t) (env : Env.t) (db : DB.t)
    (event : SlackEvent.t) (eventType : string) : option DB.t :=
  let inner := SlackEvent.Event event in
  let item := SlackEventInner.Item inner in
  if negb (String.eqb (SlackEventItem.Type_ item) "message") then Some db
  else
    '(db, _) ←
      ProcessReactionEvent cfg env db
        (SlackEventItem.TS item) (SlackEventItem.Channel item)
        (SlackEventInner.User inner) (SlackEventInner.Reaction inner)
        eventType (SlackEventInner.EventTimestamp inner);
    Some db.

Definition processSlackEvent (cfg : Config.t) (env : Env.t) (db : DB.t)
    (event : SlackEvent.t) : option DB.t :=
  let type := SlackEventInner.Type_ (SlackEvent.Event event) in
  if String.eqb type "reaction_added"
  then handleReactionEvent cfg env db event "added"
  else if String.eqb type "reaction_removed"
  then handleReactionEvent cfg env db event "removed"
  else Some db.

(** ** [internal/config]: loading the configuration *)

(** [strconv.Atoi], on a platform whose [int] has 64 bits. *)
Definition Atoi (s : string) : option Z := strconv.ParseInt s.

Section Load.

(** The environment of the process ([os.Getenv]: the empty string for a
    variable that is not set) and [strconv.ParseFloat(value, 64)]. *)
Context (Getenv : string → string) (ParseFloat : string → option float64).

Definition getEnv (key defaultValue : string) : string :=
  let value := Getenv key in
  if negb (String.eqb value "") then value else defaultValue.

Definition getEnvInt (key : string) (defaultValue : Z) : Z :=
  let value := Getenv key in
  if negb (String.eqb value "")
  then match Atoi value with
       | Some intValue => intValue
       | None => defaultValue
       end
  else defaultValue.

Definition getEnvFloat (key : string) (defaultValue : float64) : float64 :=
  let value := Getenv key in
  if negb (String.eqb value "")
  then match ParseFloat value with
       | Some floatValue => floatValue
       | None => defaultValue
       end
  else defaultValue.

(** [Load], for the fields of [Config.t]. *)
Definition Load : Config.t :=
  Config.mk
    (getEnv "SLACK_SIGNING_SECRET" "")
    (getEnv "TRIGGER_EMOJI" "eyes")
    (getEnv "CONFLUENCE_BASE_URL" "")
    (getEnv "CONFLUENCE_API_TOKEN" "")
    (getEnv "CONFLUENCE_SPACE_KEY" "DOCS")
    (getEnvFloat "SIMILARITY_THRESHOLD" (7 # 10))
    (getEnvInt "MAX_SEARCH_RESULTS" 10)
    (getEnvInt "SEARCH_DAYS_BACK" 90).

End Load.

(** ** [internal/services/confluence.go]: the text of a page *)

(** The list [replacements]: a string, then what stands for it. *)
Definition replacements : list string :=
  [ "<p>"; ""; "</p>"; "";
    "<div>"; ""; "</div>"; "";
    "<span>"; ""; "</span>"; "";
    "<strong>"; ""; "</strong>"; "";
    "<em>"; ""; "</em>"; "";
    "<br>"; newline; "<br/>"; newline;
    "&nbsp;"; " " ]%string.

(** [for i := 0; i < len(replacements); i += 2], on what is left of the
    list; reading [replacements[i+1]] past the end panics. *)
Fixpoint replaceEach (pairs : list string) (text : string) : option string :=
  match pairs with
  | [] => Some text
  | old :: new :: rest => replaceEach rest (strings.ReplaceAll text old new)
  | [_] => None
  end.

Definition extractContentText (content : string) : option string :=
  let text := strings.ReplaceAll content "<" " <" in
  let text := strings.ReplaceAll text ">" "> " in
  text ← replaceEach replacements text;
  let words := strings.Fields text in
  let cleanText := strings.Join words " " in
  if (500 <? String.length cleanText)%nat
  then Some (strings.slice_to 500 cleanText +:+ "...")
  else Some cleanText.

(** ** [internal/services/llm.go]: the context of a prompt *)

(** [fmt.Sprintf("%d", n)] for a number that is not negative. *)
Definition itoa (n : nat) : string := NilEmpty.string_of_uint (Nat.to_uint n).

(** The body of the loop that groups the results by source; the [switch]
    has no default case. *)
Definition groupBySource
    (groups : list SearchResult.t * list SearchResult.t) (result : SearchResult.t)
  : list SearchResult.t * list SearchResult.t :=
  if String.eqb (SearchResult.Source result) "slack"
  then (groups.1 ++ [result], groups.2)
  else if String.eqb (SearchResult.Source result) "confluence"
  then (groups.1, groups.2 ++ [result])
  else groups.

(** [for i, result := range slackResults]. *)
Fixpoint slackContext (i : nat) (slackResults : list SearchResult.t)
    (contextParts : list string) : list string :=
  match slackResults with
  | [] => contextParts
  | result :: rest =>
      let contextParts :=
        contextParts ++ [itoa (i + 1) +:+ ". " +:+ SearchResult.Content result] in
      let contextParts :=
        if negb (String.eqb (SearchResult.Author result) "")
        then contextParts ++ ["   (by " +:+ SearchResult.Author result +:+ ")"]
        else contextParts in
      slackContext (S i) rest (contextParts ++ [EmptyString])
  end.

(** [for i, result := range confluenceResults]. *)
Fixpoint confluenceContext (i : nat) (confluenceResults : list SearchResult.t)
    (contextParts : list string) : list string :=
  match confluenceResults with
  | [] => contextParts
  | result :: rest =>
      let contextParts :=
        contextParts ++ [itoa (i + 1) +:+ ". " +:+ SearchResult.Title result] in
      let contextParts :=
        if negb (String.eqb (SearchResult.Content result) "")
        then contextParts ++ ["   " +:+ SearchResult.Content result]
        else contextParts in
      let contextParts :=
        if negb (String.eqb (SearchResult.URL result) "")
        then contextParts ++ ["   Link: " +:+ SearchResult.URL result]
        else contextParts in
      confluenceContext (S i) rest (contextParts ++ [EmptyString])
  end.

Definition buildContext (inquiry : Inquiry.t) (searchResults : list SearchResult.t)
  : string :=
  let contextParts :=
    ["Original inquiry: " +:+ Inquiry.MessageText inquiry; EmptyString] in
  if (length searchResults =? 0)%nat
  then
    strings.Join
      (contextParts ++ ["No relevant historical information found."]%string)
      newline
  else
    let '(slackResults, confluenceResults) :=
      fold_left groupBySource searchResults ([], []) in
    let contextParts :=
      if (0 <? length slackResults)%nat
      then slackContext 0 slackResults
             (contextParts ++ ["Similar past Slack discussions:"]%string)
      else contextParts in
    let contextParts :=
      if (0 <? length confluenceResults)%nat
      then confluenceContext 0 confluenceResults
             (contextParts ++ ["Relevant documentation:"]%string)
      else contextParts in
    strings.Join contextParts newline.

(** *** The fallback text, as the specification words it *)

(** The excerpt of a content: the content, truncated to 100 bytes. *)
Definition excerpt (content : string) : string :=
  if (100 <? String.length content)%nat
  then strings.slice_to 100 content
  else content.

(** The mark that follows an excerpt when something was cut. *)
Definition ellipsis (content : string) : string :=
  if (100 <? String.length content)%nat then "..." else "".

(** One bullet: title and source, then the excerpt unless the content is
    empty, then the URL unless it is empty. *)
Definition bullet (r : SearchResult.t) : string :=
  "• **" +:+ SearchResult.Title r +:+ "** (" +:+ SearchResult.Source r +:+ ")"
  +:+ newline
  +:+ (if String.eqb (SearchResult.Content r) "" then ""
       else "  " +:+ excerpt (SearchResult.Content r)
            +:+ ellipsis (SearchResult.Content r) +:+ newline)
  +:+ (if String.eqb (SearchResult.URL r) "" then ""
       else "  " +:+ SearchResult.URL r +:+ newline)
  +:+ newline.

Definition fallbackText (searchResults : list SearchResult.t) : string :=
  match searchResults with
  | [] => noInformation
  | _ =>
      "I found some potentially relevant information:" +:+ newline +:+ newline
      +:+ List.fold_right String.append "" (List.map bullet (take 3 searchResults))
      +:+ "Please review these resources or contact the relevant team for more specific assistance."
  end.

(** *** Invariants of the store *)

(** The unique index on [message_id]. *)
Definition uniqueMessageID (db : DB.t) : Prop :=
  NoDup (List.map Inquiry.MessageID (DB.inquiries db)).

(** The primary key of the inquiries. *)
Definition uniqueInquiryID (db : DB.t) : Prop :=
  NoDup (List.map Inquiry.ID (DB.inquiries db)).

Definition storeInvariant (db : DB.t) : Prop :=
  uniqueInquiryID db ∧ uniqueMessageID db.

(** The number of inquiries about a message. *)
Definition inquiriesFor (db : DB.t) (messageID : string) : nat :=
  length
    (List.filter (fun i => String.eqb (Inquiry.MessageID i) messageID)
       (DB.inquiries db)).

(** *** A functional reading of keyword extraction and scoring *)

(** [sub] occurs in [s]. *)
Definition isSubstr (sub s : string) : Prop :=
  ∃ pre post, s = pre +:+ sub +:+ post.

Definition cleanWord (word : string) : string := strings.Trim word ".,!?;:".

Definition isKeyword (cleaned : string) : bool :=
  (2 <? String.length cleaned)%nat && negb (stopWords cleaned).

(** The keywords that the scoring extracts: those of the query in lower
    case. *)
Definition queryKeywords (To_LowerCase : Z → Z) (query : string)
  : list string :=
  extractKeywords To_LowerCase (strings.ToLower To_LowerCase query).

(** The keywords of [query] that occur in [content], case put aside. *)
Definition keywordsFound (To_LowerCase : Z → Z) (content query : string)
  : list string :=
  List.filter (strings.Contains (strings.ToLower To_LowerCase content))
    (queryKeywords To_LowerCase query).

(** *** Readings used in the statements *)

(** The results that a source reports: without key, tied to the inquiry. *)
Definition reported (source : string) (inquiryID : nat) (r : SearchResult.t) : Prop :=
  SearchResult.ID r = 0
  ∧ SearchResult.InquiryID r = inquiryID
  ∧ SearchResult.Source r = source.

(** Everything that both sources report. *)
Definition allResults (cfg : Config.t) (env : Env.t) (db : DB.t)
    (query : string) (inquiryID : nat) : list SearchResult.t :=
  let searchQuery :=
    strings.Join (extractKeywords (Env.To_LowerCase env) query) " " in
  orNothing (searchSlack cfg env db searchQuery inquiryID).2
  ++ orNothing (searchConfluence cfg env db searchQuery inquiryID).2.

(** The row of the inquiry that [ProcessInquiry] works on. *)
Definition inquiryRow (db : DB.t)
    (messageID channelID userID messageText timestamp : string)
    (status : string) (processedAt : option Z) (responseSent : bool)
    (responseText threadTimestamp : string) : Inquiry.t :=
  Inquiry.mk (nextKey Inquiry.ID (DB.inquiries db)) messageID channelID userID
    messageText timestamp status processedAt responseSent responseText
    threadTimestamp.

(** The text that [sendResponse] posts. *)
Definition formatted (response : string) : string :=
  "🤖 *AI Assistant Response*" +:+ newline +:+ newline +:+ response.

(** What the verification of the signature asks of a request whose body
    reads as [body]. *)
Definition accepted (cfg : Config.t) (now : Z) (r : Request.t) (body : string)
  : Prop :=
  Config.SlackSigningSecret cfg ≠ EmptyString
  ∧ (∃ ts,
       strconv.ParseInt (Header_Get r "X-Slack-Request-Timestamp") = Some ts
       ∧ (wrap64 (now - ts) <= 300)%Z)
  ∧ Request.Body r = Some body
  ∧ Header_Get r "X-Slack-Signature"
    = "v0=" +:+ calculateSignature cfg
                  (Header_Get r "X-Slack-Request-Timestamp") body.

(** The numbers that are bytes. *)
Definition isByte (b : Z) : Prop := (0 <= b < 256)%Z.

(** The digits of [hex.EncodeToString]. *)
Definition hexDigits : string := "0123456789abcdef".

(** The results of one source, in their order. *)
Definition fromSource (source : string) (results : list SearchResult.t)
  : list SearchResult.t :=
  List.filter (fun r => String.eqb (SearchResult.Source r) source) results.

(** *** The context of a prompt, section by section *)

(** The lines of the entry number [n] of the Slack section: the content,
    the author unless it is empty, an empty line. *)
Definition slackEntry (n : nat) (result : SearchResult.t) : list string :=
  [itoa n +:+ ". " +:+ SearchResult.Content result]
  ++ (if String.eqb (SearchResult.Author result) "" then []
      else ["   (by " +:+ SearchResult.Author result +:+ ")"])
  ++ [EmptyString].

(** The lines of the entry number [n] of the documentation section: the
    title, the content unless it is empty, the link unless it is empty,
    an empty line. *)
Definition confluenceEntry (n : nat) (result : SearchResult.t) : list string :=
  [itoa n +:+ ". " +:+ SearchResult.Title result]
  ++ (if String.eqb (SearchResult.Content result) "" then []
      else ["   " +:+ SearchResult.Content result])
  ++ (if String.eqb (SearchResult.URL result) "" then []
      else ["   Link: " +:+ SearchResult.URL result])
  ++ [EmptyString].

(** The entries of a list, numbered from [n] on. *)
Fixpoint numbered (entry : nat → SearchResult.t → list string) (n : nat)
    (results : list SearchResult.t) : list string :=
  match results with
  | [] => []
  | result :: rest => entry n result ++ numbered entry (S n) rest
  end.

(** A section: nothing when it has no entry, else its heading and its
    entries numbered from 1 on. *)
Definition contextSection (heading : string)
    (entry : nat → SearchResult.t → list string)
    (results : list SearchResult.t) : list string :=
  match results with
  | [] => []
  | _ => heading :: numbered entry 1 results
  end.

(** The context: the inquiry and an empty line; then one fixed line when
    there is no result at all, else the Slack section followed by the
    documentation section. *)
Definition contextText (inquiry : Inquiry.t) (results : list SearchResult.t)
  : string :=
  let inquiryLines :=
    ["Original inquiry: " +:+ Inquiry.MessageText inquiry; EmptyString] in
  match results with
  | [] =>
      strings.Join
        (inquiryLines ++ ["No relevant historical information found."]%string)
        newline
  | _ =>
      strings.Join
        (inquiryLines
         ++ contextSection "Similar past Slack discussions:" slackEntry
              (fromSource "slack" results)
         ++ contextSection "Relevant documentation:" confluenceEntry
              (fromSource "confluence" results))
        newline
  end.

(** *** Bytes of a rune *)

(** The first [k] bytes of [s] are there and none of them is ASCII. *)
Fixpoint contBytes (k : nat) (s : string) : Prop :=
  match k, s with
  | O, _ => True
  | S k', String c s' => (byteOf c <? utf8.RuneSelf)%Z = false ∧ contBytes k' s'
  | S _, EmptyString => False
  end.

(** *** A case table used as an example *)

(** The answers of [unicode.CaseRanges] on Latin-1: the capital letters
    from U+00C0 to U+00DE, the multiplication sign apart, stand 32 below
    their small letters.  Nothing is lowered above Latin-1 here; the
    ASCII texts of the examples never consult the table. *)
Definition latin1Lower (r : Z) : Z :=
  if ((0xC0 <=? r)%Z && (r <=? 0xD6)%Z) || ((0xD8 <=? r)%Z && (r <=? 0xDE)%Z)
  then (r + 32)%Z else r.

(** U+00A0, no-break space, and U+2003, em space, in UTF-8. *)
Definition noBreakSpace : string :=
  String (byteAt 0xC2) (String (byteAt 0xA0) EmptyString).

Definition emSpace : string :=
  String (byteAt 0xE2) (String (byteAt 0x80) (String (byteAt 0x83) EmptyString)).

(** The byte A9 alone, which starts no encoding, before [cole]. *)
Definition brokenText : string := String (byteAt 0xA9) "cole".

(** *** Search results used as examples *)

(** The example of [TestFilterAndRankResults]. *)
Definition scored (score : float64) (title : string) : SearchResult.t :=
  SearchResult.mk 0 0 "" "" title "" "" score "".

Definition testConfig : Config.t :=
  Config.mk "" "eyes" "" "" "DOCS" (1 # 2) 3 90.

Definition testResults : list SearchResult.t :=
  [ scored (9 # 10) "High score 1"; scored (8 # 10) "High score 2";
    scored (7 # 10) "Medium score 1"; scored (6 # 10) "Medium score 2";
    scored (4 # 10) "Low score (should be filtered)";
    scored (3 # 10) "Very low score (should be filtered)" ].

(** Two results of equal score, found before a better one. *)
Definition tieA : SearchResult.t := scored (8 # 10) "first of the tie".
Definition tieB : SearchResult.t := scored (8 # 10) "second of the tie".
Definition topC : SearchResult.t := scored (9 # 10) "best".
Definition alsoTop : SearchResult.t := scored (9 # 10) "as good, found later".

(** *** Requests used as examples *)

Definition botConfig : Config.t :=
  Config.mk "8f742231b10e8888abcd99yyyzzz85a5" "eyes" "" "" "DOCS" (7 # 10) 10 90.

Definition signedRequest (timestamp body signature : string) : Request.t :=
  Request.mk
    [ ("Content-Type", "application/json");
      ("X-Slack-Request-Timestamp", timestamp);
      ("X-Slack-Signature", signature) ]%string
    (Some body).

(** A request dated at the least [int64], signed with the secret of
    [botConfig]. *)
Definition staleRequest : Request.t :=
  signedRequest "-9223372036854775808" "{}"
    "v0=548e3ecc7bb4cede2159a299fefcd8c2d35e87ab05c56a277fcde38cc5404c5d".

(** A request dated one hour after the clock reading 1700000000. *)
Definition futureRequest : Request.t :=
  signedRequest "1700003600" "{}"
    ("v0=" +:+ calculateSignature botConfig "1700003600" "{}").

(** *** A store and collaborators used as examples *)

Definition storedInquiry : Inquiry.t :=
  Inquiry.mk 1 "1700000000.000100" "C024BE91L" "U2147483697"
    "How to deploy service" "1700000000.000100"
    "completed" (Some 1700000002%Z) true "Use the deploy pipeline."
    "1700000003.000200".

Definition oneInquiry : DB.t := DB.mk [storedInquiry] [] [].

Definition deployMessage : SlackMessage.t :=
  SlackMessage.mk "1700000000.000100" "C024BE91L" "U2147483697"
    "How to deploy service" "1700000000.000100" "".

Definition emptyMessage : SlackMessage.t :=
  SlackMessage.mk "1700000000.000100" "C024BE91L" "U2147483697"
    "" "1700000000.000100" "".

Definition pastMessages : list SlackMessage.t :=
  [ SlackMessage.mk "1690000000.000001" "C024BE91L" "U1"
      "deploy the service to production" "1690000000.000001" "";
    SlackMessage.mk "1690000000.000002" "C024BE91L" "U2"
      "lunch?" "1690000000.000002" "" ].

(** Slack answers, posting included or not; the documentation platform
    is not configured; the language model fails. *)
Definition failingModel (message : SlackMessage.t) (posting : bool) : Env.t :=
  Env.mk
    (fun _ _ => Ok message)
    (fun _ _ => Ok pastMessages)
    (fun _ => Err "failed to get user info: user_not_found")
    (fun _ _ _ =>
       if posting then Ok "1700000004.000300"
       else Err "failed to post thread reply: channel_not_found")
    (fun _ => Ok [])
    (fun _ _ => Err "LiteLLM not configured")
    1700000005
    latin1Lower.

(** Nothing is found, the language model is rate limited, the reply can
    be posted. *)
Definition rateLimited : Env.t :=
  Env.mk
    (fun _ _ => Ok deployMessage)
    (fun _ _ => Ok [])
    (fun _ => Err "failed to get user info: user_not_found")
    (fun _ _ _ => Ok "1700000004.000300")
    (fun _ => Ok [])
    (fun _ _ => Err "LiteLLM API rate limit exceeded")
    1700000005
    latin1Lower.

(** What the search finds for [deployMessage]. *)
Definition foundResult : SearchResult.t :=
  SearchResult.mk 0 1 "slack" "1690000000.000001" "Slack Message"
    "deploy the service to production"
    "https://slack.com/archives/C024BE91L/p1690000000000001" (2 # 2) "U1".

(** *** More collaborators, events and results used as examples *)

(** A configuration with the documentation platform. *)
Definition docsConfig : Config.t :=
  Config.mk "8f742231b10e8888abcd99yyyzzz85a5" "eyes"
    "https://example.atlassian.net/wiki" "token" "DOCS" (7 # 10) 10 90.

(** Both sources are out of reach. *)
Definition sourcesDown : Env.t :=
  Env.mk
    (fun _ _ => Ok deployMessage)
    (fun _ _ => Err "failed to search messages: ratelimited")
    (fun _ => Err "failed to get user info: user_not_found")
    (fun _ _ _ => Ok "1700000004.000300")
    (fun _ => Err "failed to execute request: timeout")
    (fun _ _ => Ok "Use the deploy pipeline.")
    1700000005
    latin1Lower.

(** The language model answers; the reply can be posted or not. *)
Definition answering (posting : bool) : Env.t :=
  Env.mk
    (fun _ _ => Ok deployMessage)
    (fun _ _ => Ok pastMessages)
    (fun _ => Err "failed to get user info: user_not_found")
    (fun _ _ _ =>
       if posting then Ok "1700000004.000300"
       else Err "failed to post thread reply: channel_not_found")
    (fun _ => Ok [])
    (fun _ _ => Ok "Use the deploy pipeline.")
    1700000005
    latin1Lower.

(** The message cannot be fetched. *)
Definition messageGone : Env.t :=
  Env.mk
    (fun _ _ => Err "failed to get message: message_not_found")
    (fun _ _ => Ok pastMessages)
    (fun _ => Err "failed to get user info: user_not_found")
    (fun _ _ _ => Ok "1700000004.000300")
    (fun _ => Ok [])
    (fun _ _ => Ok "Use the deploy pipeline.")
    1700000005
    latin1Lower.

(** A reaction of the trigger emoji on the message of [deployMessage]. *)
Definition reactionAdded : SlackEvent.t :=
  SlackEvent.mk "" "" "event_callback"
    (SlackEventInner.mk "reaction_added" "" "U9" "" "" "1700000100.000000" "eyes"
       (SlackEventItem.mk "message" "C024BE91L" "1700000000.000100")).

(** A decoder for the examples: one body is known. *)
Definition decodeExample (body : string) : option SlackEvent.t :=
  if String.eqb body "{}" then Some reactionAdded else None.

(** The reaction is taken back. *)
Definition reactionRemoved : SlackEvent.t :=
  SlackEvent.mk "" "" "event_callback"
    (SlackEventInner.mk "reaction_removed" "" "U9" "" "" "1700000100.000000" "eyes"
       (SlackEventItem.mk "message" "C024BE91L" "1700000000.000100")).

(** The environment of a deployment whose limit is set to -1. *)
Definition negativeLimit (key : string) : string :=
  if String.eqb key "MAX_SEARCH_RESULTS" then "-1"
  else if String.eqb key "SLACK_SIGNING_SECRET"
  then "8f742231b10e8888abcd99yyyzzz85a5"
  else "".

(** A page of the documentation, and a result of a source that the
    search does not have. *)
Definition docResult : SearchResult.t :=
  SearchResult.mk 0 1 "confluence" "98765" "Deploy guide"
    "How to deploy the service" "https://example.atlassian.net/wiki/x/98765"
    (2 # 2) "".

Definition otherResult : SearchResult.t :=
  SearchResult.mk 0 1 "jira" "OPS-1" "Deploy ticket" "deploy the service" ""
    (2 # 2) "".

(** The handshake of the Events API. *)
Definition challengeEvent : SlackEvent.t :=
  SlackEvent.mk "Jhj5dZrVaK7ZwHHjRyZWjbDl"
    "3eZbrw1aBm2rZgRNFdxV2595E9CY3gmdALWMmHkvFXO7tYXAYM8P" "url_verification"
    (SlackEventInner.mk "" "" "" "" "" "" "" (SlackEventItem.mk "" "" "")).

(** A decoder for the handshake: one body is known. *)
Definition decodeChallenge (body : string) : option SlackEvent.t :=
  if String.eqb body "{}" then Some challengeEvent else None.

(* ================================================================== *)
(** * Part II. Properties                                               *)
(* ================================================================== *)

(** ** The tests of the repository, replayed *)

Example extractKeywords_simple To_LowerCase :
  extractKeywords To_LowerCase "How to deploy service"
  = ["deploy"; "service"]%string.
Proof. reflexivity. Qed.

Example extractKeywords_stop_words To_LowerCase :
  extractKeywords To_LowerCase "What is the best way to deploy a service?"
  = ["best"; "way"; "deploy"; "service"]%string.
Proof. reflexivity. Qed.

Example extractKeywords_punctuation To_LowerCase :
  extractKeywords To_LowerCase "Deploy service, please!"
  = ["deploy"; "service"; "please"]%string.
Proof. reflexivity. Qed.

Example extractKeywords_only_stop_words To_LowerCase :
  extractKeywords To_LowerCase "the a an and or" = [].
Proof. reflexivity. Qed.

Example score_half_match To_LowerCase :
  (calculateRelevanceScore To_LowerCase "deploy to production" "deploy service"
   == 1 # 2)%Q.
Proof. reflexivity. Qed.

Example score_case_insensitive To_LowerCase :
  (calculateRelevanceScore To_LowerCase "Deploy Service" "deploy service"
   == 1)%Q.
Proof. reflexivity. Qed.

Example score_exact_match To_LowerCase :
  (calculateRelevanceScore To_LowerCase "deploy service" "deploy service"
   == 1)%Q.
Proof. reflexivity. Qed.

Example score_partial_match To_LowerCase :
  (calculateRelevanceScore To_LowerCase "deploy the service to production"
     "deploy service" == 1)%Q.
Proof. reflexivity. Qed.

Example score_no_match To_LowerCase :
  (calculateRelevanceScore To_LowerCase "something else entirely"
     "deploy service" == 0)%Q.
Proof. reflexivity. Qed.

Example extractKeywords_special_characters To_LowerCase :
  extractKeywords To_LowerCase "deploy@service#with$special%characters"
  = ["deploy@service#with$special%characters"]%string.
Proof. reflexivity. Qed.

(** *** Text outside ASCII *)

Example decode_two_bytes : utf8.DecodeRuneInString "école" = (0xE9%Z, 2).
Proof. reflexivity. Qed.

Example decode_three_bytes : utf8.DecodeRuneInString emSpace = (0x2003%Z, 3).
Proof. reflexivity. Qed.

Example decode_four_bytes : utf8.DecodeRuneInString "😀" = (0x1F600%Z, 4).
Proof. reflexivity. Qed.

Example decode_invalid :
  utf8.DecodeRuneInString brokenText = (utf8.RuneError, 1).
Proof. reflexivity. Qed.

Example Fields_unicode_space :
  strings.Fields ("a" +:+ noBreakSpace +:+ "b" +:+ emSpace +:+ "c")
  = ["a"; "b"; "c"]%string.
Proof. vm_compute. reflexivity. Qed.

Example sanitize_unicode_space :
  sanitizeCQLQuery ("a" +:+ noBreakSpace +:+ "b" +:+ emSpace +:+ "c") = "a b c".
Proof. vm_compute. reflexivity. Qed.

Example ToLower_latin1 :
  strings.ToLower latin1Lower "ÉCOLE Déploiement" = "école déploiement".
Proof. vm_compute. reflexivity. Qed.

Example ToLower_invalid :
  strings.ToLower latin1Lower brokenText = "�cole".
Proof. vm_compute. reflexivity. Qed.

Example extractKeywords_latin1 :
  extractKeywords latin1Lower "ÉCOLE Déploiement"
  = ["école"; "déploiement"]%string.
Proof. vm_compute. reflexivity. Qed.

Example score_latin1 :
  (calculateRelevanceScore latin1Lower "école" "ÉCOLE" == 1)%Q.
Proof. vm_compute. reflexivity. Qed.

(** The invalid byte reads as U+FFFD in lower case: the broken content
    matches the query, the mended one does not. *)
Example score_invalid :
  (calculateRelevanceScore latin1Lower brokenText "�cole" == 1)%Q
  ∧ (calculateRelevanceScore latin1Lower "école" "�cole" == 0)%Q.
Proof. split; vm_compute; reflexivity. Qed.

(** ** The sort of [filterAndRankResults] *)

Lemma swapIfLess_spec pre x done y todo :
  swapIfLess (length pre) (length pre + 1 + length done)
    (pre ++ x :: done ++ y :: todo)
  = Some (if score_lt (SearchResult.Score x) (SearchResult.Score y)
          then pre ++ y :: done ++ x :: todo
          else pre ++ x :: done ++ y :: todo).
Proof.
  unfold swapIfLess.
  rewrite (list_lookup_middle pre (done ++ y :: todo) x (length pre) eq_refl).
  simpl.
  assert (Hj : (pre ++ x :: done ++ y :: todo) !! (length pre + 1 + length done)
               = Some y).
  { replace (pre ++ x :: done ++ y :: todo)
      with ((pre ++ x :: done) ++ y :: todo)
      by (rewrite <- app_assoc; reflexivity).
    apply list_lookup_middle. rewrite length_app; simpl; lia. }
  rewrite Hj. simpl.
  destruct (score_lt _ _); [|reflexivity].
  f_equal.
  replace (length pre) with (length pre + 0) at 2 by lia.
  rewrite insert_app_r. simpl.
  rewrite insert_app_r_alt by lia.
  replace (length pre + 1 + length done - length pre) with (S (length done)) by lia.
  simpl. f_equal. f_equal.
  replace (length done) with (length done + 0) at 1 by lia.
  rewrite insert_app_r. reflexivity.
Qed.

Lemma sortInner_spec todo : ∀ pre x done,
  sortInner (length todo) (length pre) (length pre + 1 + length done)
    (pre ++ x :: done ++ todo)
  = Some (pre ++ (bubbleMax x todo).1 :: done ++ (bubbleMax x todo).2).
Proof.
  induction todo as [|y t IH]; intros pre x done; simpl.
  - reflexivity.
  - rewrite swapIfLess_spec. simpl.
    destruct (score_lt _ _).
    + specialize (IH pre y (done ++ [x])).
      rewrite length_app in IH. simpl in IH.
      replace (S (length pre + 1 + length done))
        with (length pre + 1 + (length done + 1)) by lia.
      rewrite <- !app_assoc in IH. simpl in IH. rewrite IH.
      destruct (bubbleMax y t); reflexivity.
    + specialize (IH pre x (done ++ [y])).
      rewrite length_app in IH. simpl in IH.
      replace (S (length pre + 1 + length done))
        with (length pre + 1 + (length done + 1)) by lia.
      rewrite <- !app_assoc in IH. simpl in IH. rewrite IH.
      destruct (bubbleMax x t); reflexivity.
Qed.

Lemma bubbleMax_length x l : length (bubbleMax x l).2 = length l.
Proof.
  revert x; induction l as [|y t IH]; intros x; simpl; [reflexivity|].
  destruct (score_lt _ _).
  - specialize (IH y). destruct (bubbleMax y t); simpl in *; lia.
  - specialize (IH x). destruct (bubbleMax x t); simpl in *; lia.
Qed.

(** Past the last but one index the outer loop has nothing to do. *)
Lemma sortOuter_done n : ∀ i a, length a ≤ i + 1 → sortOuter n i a = Some a.
Proof.
  induction n as [|n IH]; intros i a Hlen; simpl; [reflexivity|].
  replace (length a - (i + 1)) with 0 by lia. simpl.
  apply IH. lia.
Qed.

Lemma sortOuter_spec n : ∀ pre l,
  sortOuter n (length pre) (pre ++ l) = Some (pre ++ exchangeSort n l).
Proof.
  induction n as [|n IH]; intros pre l.
  - destruct l; reflexivity.
  - destruct l as [|x t].
    + simpl exchangeSort. apply sortOuter_done. rewrite length_app. simpl. lia.
    + simpl.
      replace (length (pre ++ x :: t) - (length pre + 1)) with (length t)
        by (rewrite length_app; simpl; lia).
      pose proof (sortInner_spec t pre x []) as Hin.
      simpl in Hin. rewrite Nat.add_0_r in Hin. rewrite Hin. simpl.
      destruct (bubbleMax x t) as [m t'] eqn:Hb. simpl.
      specialize (IH (pre ++ [m]) t').
      rewrite length_app in IH. simpl in IH.
      replace (length pre + 1) with (S (length pre)) in IH by lia.
      rewrite <- app_assoc in IH. simpl in IH. rewrite IH.
      rewrite <- app_assoc. reflexivity.
Qed.

(** The loops never index out of range, and compute [exchangeSort]. *)
Lemma sortByScore_spec l :
  sortByScore l = Some (exchangeSort (length l - 1) l).
Proof. apply (sortOuter_spec (length l - 1) [] l). Qed.

Lemma score_lt_true a b : score_lt a b = true ↔ (a < b)%Q.
Proof.
  unfold score_lt. rewrite negb_true_iff, <- not_true_iff_false, Qle_bool_iff.
  split; [apply Qnot_le_lt | apply Qlt_not_le].
Qed.

Lemma score_lt_false a b : score_lt a b = false ↔ (b <= a)%Q.
Proof. unfold score_lt. rewrite negb_false_iff. apply Qle_bool_iff. Qed.

Lemma score_ge_true a b : score_ge a b = true ↔ (b <= a)%Q.
Proof. apply Qle_bool_iff. Qed.

Lemma score_desc_trans a b c : score_desc a b → score_desc b c → score_desc a c.
Proof. unfold score_desc. intros Hab Hbc. exact (Qle_trans _ _ _ Hbc Hab). Qed.

Lemma bubbleMax_perm x l : (bubbleMax x l).1 :: (bubbleMax x l).2 ≡ₚ x :: l.
Proof.
  revert x; induction l as [|y t IH]; intros x; simpl; [reflexivity|].
  destruct (score_lt _ _).
  - specialize (IH y). destruct (bubbleMax y t) as [m t']; simpl in *.
    etransitivity; [apply Permutation_swap|]. constructor. exact IH.
  - specialize (IH x). destruct (bubbleMax x t) as [m t']; simpl in *.
    etransitivity; [apply Permutation_swap|].
    etransitivity; [|apply Permutation_swap]. constructor. exact IH.
Qed.

(** The value brought to the front dominates the one the turn started
    with and everything left behind. *)
Lemma bubbleMax_max x l :
  score_desc (bubbleMax x l).1 x ∧ Forall (score_desc (bubbleMax x l).1) (bubbleMax x l).2.
Proof.
  revert x; induction l as [|y t IH]; intros x; simpl.
  - split; [apply Qle_refl | constructor].
  - destruct (score_lt _ _) eqn:Hlt.
    + specialize (IH y). destruct (bubbleMax y t) as [m t']; simpl in *.
      destruct IH as [Hy Ht]. apply score_lt_true in Hlt.
      assert (Hx : score_desc m x).
      { apply score_desc_trans with y; [exact Hy|]. apply Qlt_le_weak, Hlt. }
      split; [exact Hx | constructor; assumption].
    + specialize (IH x). destruct (bubbleMax x t) as [m t']; simpl in *.
      destruct IH as [Hx Ht]. apply score_lt_false in Hlt.
      split; [exact Hx|]. constructor; [|exact Ht].
      apply score_desc_trans with x; assumption.
Qed.

Lemma exchangeSort_perm n : ∀ l, exchangeSort n l ≡ₚ l.
Proof.
  induction n as [|n IH]; intros l; [destruct l; reflexivity|].
  destruct l as [|x t]; [reflexivity|]. simpl.
  pose proof (bubbleMax_perm x t) as Hp.
  destruct (bubbleMax x t) as [m t']; simpl in *.
  rewrite IH. exact Hp.
Qed.

Lemma exchangeSort_sorted n : ∀ l,
  length l ≤ n + 1 → StronglySorted score_desc (exchangeSort n l).
Proof.
  induction n as [|n IH]; intros l Hlen.
  - destruct l as [|x [|y t]]; simpl in *; try lia; repeat constructor.
  - destruct l as [|x t]; [constructor|]. simpl.
    pose proof (bubbleMax_max x t) as [_ Hmax].
    pose proof (bubbleMax_length x t) as Hl.
    destruct (bubbleMax x t) as [m t']; simpl in *.
    constructor.
    + apply IH. lia.
    + rewrite exchangeSort_perm. exact Hmax.
Qed.

Lemma StronglySorted_sortedDesc l : StronglySorted score_desc l ↔ sortedDesc l.
Proof.
  split.
  - intros Hs. induction Hs as [|x l Hs IH Hx]; intros i j a b Hij Hi Hj.
    + rewrite lookup_nil in Hi. discriminate.
    + destruct j as [|j]; [lia|]. simpl in Hj.
      destruct i as [|i]; simpl in Hi.
      * injection Hi as <-. rewrite Forall_forall in Hx.
        apply Hx. apply list_elem_of_lookup. eauto.
      * apply (IH i j); [lia|assumption..].
  - induction l as [|x l IH]; intros Hs; constructor.
    + apply IH. intros i j a b Hij Hi Hj. apply (Hs (S i) (S j)); [lia|assumption..].
    + rewrite Forall_forall. intros y Hy.
      apply list_elem_of_lookup in Hy as [k Hk].
      apply (Hs 0 (S k)); [lia|reflexivity|exact Hk].
Qed.

Lemma sortedDesc_take n l : sortedDesc l → sortedDesc (take n l).
Proof.
  intros Hs i j a b Hij Hi Hj.
  apply lookup_take_Some in Hi as [Hi _]. apply lookup_take_Some in Hj as [Hj _].
  exact (Hs i j a b Hij Hi Hj).
Qed.

(** The filter loop computes the survivors. *)
Lemma filterByScore_spec cfg results :
  filterByScore cfg results = survivors cfg results.
Proof.
  unfold filterByScore, survivors.
  enough (H : ∀ acc,
    fold_left
      (λ filtered result,
         if score_ge (SearchResult.Score result) (Config.SimilarityThreshold cfg)
         then filtered ++ [result] else filtered) results acc
    = acc ++ List.filter
        (λ r, score_ge (SearchResult.Score r) (Config.SimilarityThreshold cfg))
        results) by apply (H []).
  induction results as [|r rs IH]; intros acc; simpl.
  - rewrite app_nil_r. reflexivity.
  - rewrite IH. destruct (score_ge _ _); [|reflexivity].
    rewrite <- app_assoc. reflexivity.
Qed.

(** What [filterAndRankResults] returns, and when it panics. *)
Lemma filterAndRankResults_spec cfg results :
  filterAndRankResults cfg results =
    let sorted := exchangeSort (length (survivors cfg results) - 1)
                    (survivors cfg results) in
    if (Config.MaxSearchResults cfg <? 0)%Z then None
    else Some (take (Z.to_nat (Config.MaxSearchResults cfg)) sorted).
Proof.
  unfold filterAndRankResults. rewrite filterByScore_spec, sortByScore_spec.
  simpl. set (sorted := exchangeSort _ _).
  destruct (Z.ltb_spec (Config.MaxSearchResults cfg) (Z.of_nat (length sorted)))
    as [Hlt|Hge].
  - reflexivity.
  - destruct (Z.ltb_spec (Config.MaxSearchResults cfg) 0); [lia|].
    rewrite take_ge by lia. reflexivity.
Qed.

Lemma survivors_above cfg results r :
  r ∈ survivors cfg results →
  (Config.SimilarityThreshold cfg <= SearchResult.Score r)%Q.
Proof.
  intros Hr. apply list_elem_of_In, filter_In in Hr as [_ Hr].
  apply score_ge_true, Hr.
Qed.

(** A negative [MaxSearchResults] makes the slice expression panic. *)
Lemma filterAndRankResults_panics cfg results :
  (Config.MaxSearchResults cfg < 0)%Z → filterAndRankResults cfg results = None.
Proof.
  intros Hneg. rewrite filterAndRankResults_spec. simpl.
  destruct (Z.ltb_spec (Config.MaxSearchResults cfg) 0); [reflexivity|lia].
Qed.

Example filterAndRankResults_test :
  filterAndRankResults testConfig testResults
  = Some [ scored (9 # 10) "High score 1"; scored (8 # 10) "High score 2";
           scored (7 # 10) "Medium score 1" ].
Proof. reflexivity. Qed.

(** C4. For every list of search results, [filterAndRankResults] returns
    (the configured [MaxSearchResults] being a count, that is not
    negative) a list that is sorted by score in descending order, all of
    whose elements have a score at least [SimilarityThreshold], and whose
    length is at most [MaxSearchResults]. *)
Theorem filterAndRankResults_ranked cfg results :
  (0 <= Config.MaxSearchResults cfg)%Z →
  ∃ out,
    filterAndRankResults cfg results = Some out
    ∧ sortedDesc out
    ∧ (∀ r, r ∈ out →
         (Config.SimilarityThreshold cfg <= SearchResult.Score r)%Q)
    ∧ (Z.of_nat (length out) <= Config.MaxSearchResults cfg)%Z.
Proof.
  intros Hmax. rewrite filterAndRankResults_spec. simpl.
  destruct (Z.ltb_spec (Config.MaxSearchResults cfg) 0) as [|_]; [lia|].
  eexists; split; [reflexivity|]. split; [|split].
  - apply sortedDesc_take, StronglySorted_sortedDesc, exchangeSort_sorted. lia.
  - intros r Hr. apply subseteq_take in Hr.
    rewrite exchangeSort_perm in Hr. exact (survivors_above _ _ _ Hr).
  - rewrite length_take. lia.
Qed.

Lemma filterAndRankResults_ranked_witness :
  ∃ out,
    filterAndRankResults testConfig testResults = Some out
    ∧ sortedDesc out
    ∧ (∀ r, r ∈ out →
         (Config.SimilarityThreshold testConfig <= SearchResult.Score r)%Q)
    ∧ (Z.of_nat (length out) <= Config.MaxSearchResults testConfig)%Z.
Proof. apply (filterAndRankResults_ranked testConfig testResults). simpl. lia. Defined.

(** ** Ties *)

(** C5, refuted.  Two results of equal score pass the threshold, the
    first found stands before the second in the input, and the output
    lists them the other way round: the exchange of [tieA] with [topC]
    carries [tieA] behind [tieB]. *)
Lemma filterAndRankResults_not_stable :
  filterAndRankResults testConfig [tieA; tieB; topC] = Some [topC; tieB; tieA]
  ∧ (SearchResult.Score tieA == SearchResult.Score tieB)%Q
  ∧ survivors testConfig [tieA; tieB; topC] = [tieA; tieB; topC]
  ∧ precedes tieA tieB [tieA; tieB; topC]
  ∧ precedes tieB tieA [topC; tieB; tieA]
  ∧ ¬ precedes tieA tieB [topC; tieB; tieA]
  ∧ ¬ tiesKeepOrder (survivors testConfig [tieA; tieB; topC]) [topC; tieB; tieA].
Proof.
  split; [reflexivity|]. split; [reflexivity|]. split; [reflexivity|].
  split; [exists 0, 1; repeat split; lia|].
  split; [exists 1, 2; repeat split; lia|]. split.
  - intros (i & j & Hij & Hi & Hj).
    destruct i as [|[|[|i]]]; simpl in Hi; try discriminate.
    destruct j as [|[|[|j]]]; simpl in Hj; try discriminate; lia.
  - intros Hk. specialize (Hk (8 # 10)). destruct Hk as [k Hk].
    vm_compute in Hk. discriminate.
Qed.

Lemma bubbleMax_sorted x l :
  Forall (score_desc x) l → bubbleMax x l = (x, l).
Proof.
  induction 1 as [|y t Hy Ht IH]; simpl; [reflexivity|].
  apply score_lt_false in Hy. rewrite Hy, IH. reflexivity.
Qed.

(** No exchange happens on a list that is already in descending order. *)
Lemma exchangeSort_sorted_id n : ∀ l,
  StronglySorted score_desc l → exchangeSort n l = l.
Proof.
  induction n as [|n IH]; intros l Hs; [destruct l; reflexivity|].
  destruct Hs as [|x t Hs Hx]; [reflexivity|]. simpl.
  rewrite (bubbleMax_sorted x t Hx), (IH t Hs). reflexivity.
Qed.

Lemma scoreClass_prefix s l1 l2 :
  l1 `prefix_of` l2 → scoreClass s l1 `prefix_of` scoreClass s l2.
Proof.
  intros [k ->]. unfold scoreClass. rewrite List.filter_app.
  eexists; reflexivity.
Qed.

Lemma scoreClass_cons s r l :
  scoreClass s (r :: l)
  = if Qeq_bool (SearchResult.Score r) s then r :: scoreClass s l
    else scoreClass s l.
Proof. reflexivity. Qed.

Lemma scoreClass_below s r :
  (SearchResult.Score r < s)%Q → Qeq_bool (SearchResult.Score r) s = false.
Proof.
  intros Hlt. apply not_true_is_false. intros Heq.
  apply Qeq_bool_iff in Heq. rewrite Heq in Hlt. exact (Qlt_irrefl _ Hlt).
Qed.

(** One turn of the outer loop does not touch the order of the results
    of the highest score. *)
Lemma bubbleMax_top s l : ∀ x,
  Forall (λ y, (SearchResult.Score y <= s)%Q) (x :: l) →
  scoreClass s ((bubbleMax x l).1 :: (bubbleMax x l).2) = scoreClass s (x :: l).
Proof.
  induction l as [|y t IH]; intros x Hall; [reflexivity|].
  simpl bubbleMax.
  apply Forall_cons in Hall as [Hx Hall].
  pose proof Hall as Hyt. apply Forall_cons in Hall as [Hy Ht].
  destruct (score_lt _ _) eqn:Hlt.
  - specialize (IH y Hyt). destruct (bubbleMax y t) as [m t']. simpl in *.
    apply score_lt_true in Hlt.
    assert (Hxs : Qeq_bool (SearchResult.Score x) s = false).
    { apply scoreClass_below. exact (Qlt_le_trans _ _ _ Hlt Hy). }
    rewrite (scoreClass_cons s x (y :: t)), Hxs, <- IH.
    rewrite !scoreClass_cons, Hxs. reflexivity.
  - apply score_lt_false in Hlt.
    destruct (Qeq_bool (SearchResult.Score y) s) eqn:Hys.
    + (* [y] has the highest score, hence [x] too: nothing moves *)
      apply Qeq_bool_iff in Hys.
      assert (Hdom : Forall (score_desc x) t).
      { eapply Forall_impl; [exact Ht|]. intros z Hz. unfold score_desc.
        apply Qle_trans with s; [exact Hz|]. rewrite <- Hys. exact Hlt. }
      rewrite (bubbleMax_sorted x t Hdom). reflexivity.
    + assert (Hxt : Forall (λ z, (SearchResult.Score z <= s)%Q) (x :: t))
        by (constructor; assumption).
      specialize (IH x Hxt).
      destruct (bubbleMax x t) as [m t']. simpl in *.
      rewrite (scoreClass_cons s x (y :: t)), (scoreClass_cons s y t), Hys.
      rewrite <- (scoreClass_cons s x t), <- IH.
      rewrite !scoreClass_cons, Hys. reflexivity.
Qed.

Lemma exchangeSort_top s n : ∀ l,
  Forall (λ y, (SearchResult.Score y <= s)%Q) l →
  scoreClass s (exchangeSort n l) = scoreClass s l.
Proof.
  induction n as [|n IH]; intros l Hall; [destruct l; reflexivity|].
  destruct l as [|x t]; [reflexivity|]. simpl exchangeSort.
  pose proof (bubbleMax_top s t x Hall) as Htop.
  pose proof (bubbleMax_perm x t) as Hperm.
  destruct (bubbleMax x t) as [m t']. simpl in *.
  rewrite <- Htop, !scoreClass_cons.
  assert (Ht' : Forall (λ y, (SearchResult.Score y <= s)%Q) t').
  { rewrite <- Hperm in Hall. apply Forall_cons in Hall as [_ Hall]. exact Hall. }
  rewrite (IH t' Ht'). reflexivity.
Qed.

(** C5, amended.  The sort is an exchange sort: its output is the first
    [MaxSearchResults] elements of a permutation of the survivors that is
    in descending order of score, and is itself in descending order, with
    no promise on ties in general.  The results that tie for the highest
    score keep the order of discovery; and when the survivors are already
    in descending order of score, no exchange happens: the output is the
    survivors themselves, truncated, and all ties keep the order of
    discovery. *)
Theorem filterAndRankResults_ties cfg results :
  (0 <= Config.MaxSearchResults cfg)%Z →
  ∃ out,
    filterAndRankResults cfg results = Some out
    ∧ (∃ sorted, sorted ≡ₚ survivors cfg results
                 ∧ sortedDesc sorted
                 ∧ out = take (Z.to_nat (Config.MaxSearchResults cfg)) sorted)
    ∧ sortedDesc out
    ∧ (∀ top,
         (∀ r, r ∈ survivors cfg results → (SearchResult.Score r <= top)%Q) →
         scoreClass top out `prefix_of` scoreClass top (survivors cfg results))
    ∧ (sortedDesc (survivors cfg results) →
         out = take (Z.to_nat (Config.MaxSearchResults cfg))
                 (survivors cfg results)
         ∧ tiesKeepOrder (survivors cfg results) out).
Proof.
  intros Hmax. rewrite filterAndRankResults_spec. simpl.
  destruct (Z.ltb_spec (Config.MaxSearchResults cfg) 0) as [|_]; [lia|].
  assert (Hsorted : sortedDesc
            (exchangeSort (length (survivors cfg results) - 1)
               (survivors cfg results))).
  { apply StronglySorted_sortedDesc, exchangeSort_sorted. lia. }
  eexists; split; [reflexivity|]. split; [|split; [|split]].
  - eexists; split; [apply exchangeSort_perm|]. split; [exact Hsorted|reflexivity].
  - apply sortedDesc_take, Hsorted.
  - intros top Htop.
    rewrite <- (exchangeSort_top top (length (survivors cfg results) - 1)
                  (survivors cfg results)).
    + apply scoreClass_prefix, prefix_take.
    + apply Forall_forall. exact Htop.
  - intros Hs. apply StronglySorted_sortedDesc in Hs.
    rewrite (exchangeSort_sorted_id _ _ Hs). split; [reflexivity|].
    intros s. apply scoreClass_prefix, prefix_take.
Qed.

Lemma tiedResults_sorted : sortedDesc (survivors testConfig [topC; tieA; tieB]).
Proof.
  apply StronglySorted_sortedDesc. vm_compute survivors.
  repeat constructor; unfold score_desc, Qle; simpl; lia.
Qed.

(** Two inputs with ties.  In the first the tie for the best score, of
    [topC] and [alsoTop], comes after a lesser result: the sort moves
    the two to the front and keeps their order.  The second is already
    in descending order: the tie of [tieA] and [tieB] keeps its order. *)
Lemma filterAndRankResults_ties_witness :
  (∃ out,
     filterAndRankResults testConfig [tieA; topC; alsoTop] = Some out
     ∧ sortedDesc out
     ∧ scoreClass (9 # 10) out
       `prefix_of` scoreClass (9 # 10) (survivors testConfig [tieA; topC; alsoTop])
     ∧ scoreClass (9 # 10) out = [topC; alsoTop])
  ∧ (∃ out,
       filterAndRankResults testConfig [topC; tieA; tieB] = Some out
       ∧ out = [topC; tieA; tieB]
       ∧ tiesKeepOrder (survivors testConfig [topC; tieA; tieB]) out).
Proof.
  split.
  - destruct (filterAndRankResults_ties testConfig [tieA; topC; alsoTop])
      as (out & Hout & _ & Hsorted & Htop & _).
    + simpl. lia.
    + exists out. split; [exact Hout|]. split; [exact Hsorted|]. split.
      * apply Htop. intros r Hr. vm_compute in Hr.
        repeat (apply elem_of_cons in Hr as [-> | Hr]);
          [| | |apply elem_of_nil in Hr; destruct Hr];
          unfold Qle; simpl; lia.
      * vm_compute in Hout. injection Hout as <-. reflexivity.
  - destruct (filterAndRankResults_ties testConfig [topC; tieA; tieB])
      as (out & Hout & _ & _ & _ & Hties).
    + simpl. lia.
    + exists out. split; [exact Hout|].
      destruct (Hties tiedResults_sorted) as [-> Hkeep].
      split; [reflexivity|exact Hkeep].
Defined.

(** ** Package [strings]: lemmas *)

Lemma append_nil_r s : s +:+ "" = s.
Proof. induction s as [|c s IH]; simpl; [reflexivity|]. rewrite IH. reflexivity. Qed.

Lemma append_assoc a b c : (a +:+ b) +:+ c = a +:+ b +:+ c.
Proof. induction a as [|x a IH]; simpl; [reflexivity|]. rewrite IH. reflexivity. Qed.

Lemma length_append a b :
  String.length (a +:+ b) = String.length a + String.length b.
Proof. induction a as [|x a IH]; simpl; [reflexivity|]. rewrite IH. reflexivity. Qed.

Lemma isSubstr_refl s : isSubstr s s.
Proof. exists "", "". simpl. rewrite append_nil_r. reflexivity. Qed.

Lemma isSubstr_trans a b c : isSubstr a b → isSubstr b c → isSubstr a c.
Proof.
  intros (p1 & q1 & ->) (p2 & q2 & ->).
  exists (p2 +:+ p1), (q1 +:+ q2). rewrite !append_assoc. reflexivity.
Qed.

Lemma isSubstr_cons c sub s : isSubstr sub s → isSubstr sub (String c s).
Proof. intros (p & q & ->). exists (String c p), q. reflexivity. Qed.

Lemma isSubstr_prefix sub post : isSubstr sub (sub +:+ post).
Proof. exists "", post. reflexivity. Qed.

Lemma isSubstr_suffix pre sub : isSubstr sub (pre +:+ sub).
Proof. exists pre, "". rewrite append_nil_r. reflexivity. Qed.

Lemma HasPrefix_true s p : strings.HasPrefix s p = true ↔ ∃ post, s = p +:+ post.
Proof.
  unfold strings.HasPrefix. revert s; induction p as [|a p IH]; intros s.
  - destruct s; simpl; split; eauto.
  - destruct s as [|b s]; simpl.
    + split; [discriminate|]. intros [post H]. discriminate.
    + destruct (ascii_dec a b) as [->|Hne].
      * rewrite IH. split; intros [post H]; exists post; congruence.
      * split; [discriminate|]. intros [post H]. congruence.
Qed.

Lemma Contains_true s sub : strings.Contains s sub = true ↔ isSubstr sub s.
Proof.
  induction s as [|c s IH].
  - change (strings.Contains "" sub) with (strings.HasPrefix "" sub || false).
    rewrite orb_false_r, HasPrefix_true. split.
    + intros [post ->]. apply isSubstr_prefix.
    + intros (p & q & H). destruct p; [|discriminate]. exists q. exact H.
  - change (strings.Contains (String c s) sub)
      with (strings.HasPrefix (String c s) sub || strings.Contains s sub).
    rewrite orb_true_iff, HasPrefix_true, IH. split.
    + intros [[post ->]|H]; [apply isSubstr_prefix | apply isSubstr_cons, H].
    + intros (p & q & H). destruct p as [|x p]; simpl in H.
      * left. exists q. exact H.
      * right. exists p, q. congruence.
Qed.

Lemma toLowerByte_idem c :
  strings.toLowerByte (strings.toLowerByte c) = strings.toLowerByte c.
Proof. destruct c as [[] [] [] [] [] [] [] []]; reflexivity. Qed.


Lemma isASCII_cons c s :
  strings.isASCII (String c s)
  = (byteOf c <? utf8.RuneSelf)%Z && strings.isASCII s.
Proof. reflexivity. Qed.

Lemma toLowerByte_ASCII c :
  (byteOf (strings.toLowerByte c) <? utf8.RuneSelf)%Z
  = (byteOf c <? utf8.RuneSelf)%Z.
Proof. destruct c as [[] [] [] [] [] [] [] []]; reflexivity. Qed.

(** Lowering ASCII text gives ASCII text. *)
Lemma isASCII_toLowerBytes s :
  strings.isASCII (strings.toLowerBytes s) = strings.isASCII s.
Proof.
  induction s as [|c s IH]; [reflexivity|].
  cbn [strings.toLowerBytes]. now rewrite !isASCII_cons, toLowerByte_ASCII, IH.
Qed.

(** On ASCII text [ToLower] does not consult the case table. *)
Lemma ToLower_ASCII table s :
  strings.isASCII s = true → strings.ToLower table s = strings.toLowerBytes s.
Proof. unfold strings.ToLower. now intros ->. Qed.

Lemma isASCII_ToLower table s :
  strings.isASCII s = true → strings.isASCII (strings.ToLower table s) = true.
Proof.
  intros Hs. now rewrite ToLower_ASCII, isASCII_toLowerBytes.
Qed.


(** The word being read is a prefix of the text, the later ones occur
    in it. *)
Lemma splitSpace_spec s :
  ∃ w ws, strings.splitSpace s = w :: ws
          ∧ (∃ post, s = w +:+ post)
          ∧ Forall (λ v, isSubstr v s) ws.
Proof.
  induction s as [|c s (w & ws & Hs & [post Hw] & Hws)]; simpl.
  - exists "", []. split; [reflexivity|]. split; [exists ""; reflexivity|constructor].
  - rewrite Hs. destruct (strings.isSpace c).
    + exists "", (w :: ws). split; [reflexivity|].
      split; [exists (String c s); reflexivity|].
      constructor.
      * apply isSubstr_cons. rewrite Hw. apply isSubstr_prefix.
      * eapply Forall_impl; [exact Hws|]. intros v. apply isSubstr_cons.
    + exists (String c w), ws. split; [reflexivity|].
      split; [exists post; simpl; congruence|].
      eapply Forall_impl; [exact Hws|]. intros v. apply isSubstr_cons.
Qed.

(** The same for the runes: the word being read is a prefix of the text
    unless the bytes of a space are still to be passed. *)
Lemma splitRunes_spec f s : ∀ skip inSpace,
  ∃ w ws, strings.splitRunes f skip inSpace s = w :: ws
          ∧ (inSpace = false ∨ skip = 0 → ∃ post, s = w +:+ post)
          ∧ isSubstr w s
          ∧ Forall (λ v, isSubstr v s) ws.
Proof.
  induction s as [|c s IH]; intros skip inSpace.
  - exists "", []. split; [destruct skip; reflexivity|].
    split; [intros _; exists ""; reflexivity|].
    split; [apply isSubstr_refl|constructor].
  - assert (Hpush : ∀ k,
      ∃ w ws,
        match strings.splitRunes f k false s with
        | w :: ws => String c w :: ws
        | [] => [String c EmptyString]
        end = w :: ws
        ∧ (∃ post, String c s = w +:+ post)
        ∧ isSubstr w (String c s)
        ∧ Forall (λ v, isSubstr v (String c s)) ws).
    { intros k. destruct (IH k false) as (w & ws & -> & Hpre & _ & Hws).
      destruct (Hpre (or_introl eq_refl)) as [post Hpost].
      exists (String c w), ws. split; [reflexivity|].
      assert (Hp : String c s = String c w +:+ post) by (simpl; congruence).
      split; [exists post; exact Hp|].
      split; [rewrite Hp; apply isSubstr_prefix|].
      eapply Forall_impl; [exact Hws|]. intros v. apply isSubstr_cons. }
    assert (Hweak : ∀ l : list string,
      (∃ w ws, l = w :: ws
               ∧ (∃ post, String c s = w +:+ post)
               ∧ isSubstr w (String c s)
               ∧ Forall (λ v, isSubstr v (String c s)) ws) →
      ∃ w ws, l = w :: ws
              ∧ (inSpace = false ∨ skip = 0 → ∃ post, String c s = w +:+ post)
              ∧ isSubstr w (String c s)
              ∧ Forall (λ v, isSubstr v (String c s)) ws).
    { intros l (w & ws & Hl & Hpre & Hsub & Hws). exists w, ws. tauto. }
    destruct skip as [|k]; cbn [strings.splitRunes].
    + destruct (utf8.DecodeRuneInString (String c s)) as [rune width].
      destruct (f rune); [|apply Hweak, Hpush].
      destruct (IH (width - 1) true) as (w & ws & -> & _ & Hsub & Hws).
      exists "", (w :: ws). split; [reflexivity|].
      split; [intros _; exists (String c s); reflexivity|].
      split; [exists "", (String c s); reflexivity|].
      constructor; [apply isSubstr_cons, Hsub|].
      eapply Forall_impl; [exact Hws|]. intros v. apply isSubstr_cons.
    + destruct inSpace; [|apply Hweak, Hpush].
      destruct (IH k true) as (w & ws & -> & _ & Hsub & Hws).
      exists w, ws. split; [reflexivity|].
      split; [intros [|]; discriminate|].
      split; [apply isSubstr_cons, Hsub|].
      eapply Forall_impl; [exact Hws|]. intros v. apply isSubstr_cons.
Qed.

(** On ASCII text [Fields] splits at the bytes of [asciiSpace]. *)
Lemma Fields_ASCII s :
  strings.isASCII s = true →
  strings.Fields s = List.filter strings.nonEmpty (strings.splitSpace s).
Proof. unfold strings.Fields. now intros ->. Qed.

Lemma Fields_substr s w : In w (strings.Fields s) → isSubstr w s.
Proof.
  unfold strings.Fields, strings.FieldsFunc.
  destruct (strings.isASCII s); rewrite filter_In; intros [Hin _].
  - destruct (splitSpace_spec s) as (w0 & ws & Hs & [post Hw] & Hws).
    rewrite Hs in Hin. destruct Hin as [<-|Hin].
    + rewrite Hw. apply isSubstr_prefix.
    + rewrite Forall_forall in Hws. apply Hws, list_elem_of_In, Hin.
  - destruct (splitRunes_spec unicode.IsSpace s 0 false)
      as (w0 & ws & Hs & _ & Hw & Hws).
    rewrite Hs in Hin. destruct Hin as [<-|Hin]; [exact Hw|].
    rewrite Forall_forall in Hws. apply Hws, list_elem_of_In, Hin.
Qed.

Lemma TrimLeft_suffix s cutset : ∃ pre, s = pre +:+ strings.TrimLeft s cutset.
Proof.
  induction s as [|c s [pre IH]]; simpl.
  - exists "". reflexivity.
  - destruct (strings.byte_in c cutset).
    + exists (String c pre). simpl. congruence.
    + exists "". reflexivity.
Qed.

Lemma TrimRight_prefix s cutset : ∃ post, s = strings.TrimRight s cutset +:+ post.
Proof.
  induction s as [|c s [post IH]]; simpl.
  - exists "". reflexivity.
  - destruct (strings.TrimRight s cutset) as [|d r] eqn:Hr.
    + destruct (strings.byte_in c cutset).
      * exists (String c s). reflexivity.
      * exists s. reflexivity.
    + exists post. simpl in *. congruence.
Qed.

Lemma Trim_substr s cutset : isSubstr (strings.Trim s cutset) s.
Proof.
  unfold strings.Trim.
  destruct (TrimLeft_suffix s cutset) as [pre Hl].
  destruct (TrimRight_prefix (strings.TrimLeft s cutset) cutset) as [post Hr].
  exists pre, post. rewrite <- Hr. exact Hl.
Qed.

(** ** Keywords and scores *)

Lemma keepKeyword_fold words : ∀ acc,
  fold_left keepKeyword words acc
  = acc ++ List.filter isKeyword (List.map cleanWord words).
Proof.
  induction words as [|w ws IH]; intros acc; simpl.
  - rewrite app_nil_r. reflexivity.
  - rewrite IH. unfold keepKeyword. fold (cleanWord w). fold (isKeyword (cleanWord w)).
    destruct (isKeyword (cleanWord w)); [|reflexivity].
    rewrite <- app_assoc. reflexivity.
Qed.

(** The keywords are the cleaned words of the lower-cased query that are
    longer than two bytes and are no stop words. *)
Lemma extractKeywords_spec table query :
  extractKeywords table query
  = List.filter isKeyword
      (List.map cleanWord (strings.Fields (strings.ToLower table query))).
Proof. unfold extractKeywords. apply (keepKeyword_fold _ []). Qed.



Lemma score_fold content keywords : ∀ acc : Q,
  (fold_left
     (λ score keyword,
        if strings.Contains content keyword then score + 1 else score)
     keywords acc
   == acc + inject_Z (Z.of_nat (length (List.filter (strings.Contains content) keywords))))%Q.
Proof.
  induction keywords as [|k ks IH]; intros acc; simpl.
  - ring.
  - rewrite IH. destruct (strings.Contains content k); [|reflexivity].
    simpl length. rewrite Nat2Z.inj_succ, <- Z.add_1_l, inject_Z_plus. ring.
Qed.

(** The score is the number of keywords found over the number of
    keywords, and the number found when there is no keyword (none, then). *)
Lemma calculateRelevanceScore_spec table content query :
  (calculateRelevanceScore table content query
   == if (0 <? length (queryKeywords table query))%nat
      then inject_Z (Z.of_nat (length (keywordsFound table content query)))
           / inject_Z (Z.of_nat (length (queryKeywords table query)))
      else 0)%Q.
Proof.
  unfold calculateRelevanceScore, keywordsFound.
  fold (queryKeywords table query).
  destruct (0 <? length (queryKeywords table query))%nat eqn:Hn.
  - rewrite score_fold. rewrite Qplus_0_l. reflexivity.
  - rewrite score_fold. apply Nat.ltb_ge in Hn.
    destruct (queryKeywords table query); simpl in *; [reflexivity|lia].
Qed.

Lemma keywordsFound_le table content query :
  length (keywordsFound table content query)
  ≤ length (queryKeywords table query).
Proof. apply List.filter_length_le. Qed.





(** ** [sanitizeCQLQuery] *)

Example sanitize_basic : sanitizeCQLQuery "deployment guide" = "deployment guide".
Proof. reflexivity. Qed.

Example sanitize_operators :
  sanitizeCQLQuery "deployment AND guide OR setup" = "deployment guide setup".
Proof. reflexivity. Qed.

Example sanitize_parentheses :
  sanitizeCQLQuery "(deployment OR guide) AND setup" = "deployment guide setup".
Proof. reflexivity. Qed.

Example sanitize_quotes :
  sanitizeCQLQuery (dquote +:+ "deployment guide" +:+ dquote +:+ " AND setup")
  = "deployment guide setup".
Proof. reflexivity. Qed.

Example sanitize_special : sanitizeCQLQuery "deploy* ~guide [setup]" = "deploy guide setup".
Proof. reflexivity. Qed.

Example sanitize_backslashes : sanitizeCQLQuery "deploy\guide\setup" = "deploy guide setup".
Proof. reflexivity. Qed.

Example sanitize_long :
  sanitizeCQLQuery
    "this is a very very very very very very very very very very very very very long query that should be truncated"
  = "this is a very very very very very very very very very very very very very long query that should be".
Proof. reflexivity. Qed.

Example sanitize_only_special :
  sanitizeCQLQuery ("() [] {} " +:+ dquote +:+ " ' \ ~ * ?") = "".
Proof. reflexivity. Qed.

Example sanitize_spaces :
  sanitizeCQLQuery "deployment     guide     setup" = "deployment guide setup".
Proof. reflexivity. Qed.

Lemma hasByte_append c a b : hasByte c (a +:+ b) ↔ hasByte c a ∨ hasByte c b.
Proof.
  unfold hasByte. induction a as [|x a IH]; simpl.
  - tauto.
  - rewrite IH. tauto.
Qed.

Lemma hasByte_substr c sub s : isSubstr sub s → hasByte c sub → hasByte c s.
Proof. intros (p & q & ->) H. rewrite !hasByte_append. tauto. Qed.

Lemma hasByte_slice_to c n : ∀ s, hasByte c (strings.slice_to n s) → hasByte c s.
Proof.
  unfold hasByte. induction n as [|n IH]; intros [|x s]; simpl; try tauto.
  intros [H|H]; [left; exact H | right; apply IH, H].
Qed.

Lemma slice_to_length n : ∀ s, String.length (strings.slice_to n s) ≤ n.
Proof.
  induction n as [|n IH]; intros [|x s]; simpl; try lia.
  specialize (IH s). lia.
Qed.

Lemma hasByte_Join c sep words :
  hasByte c (strings.Join words sep) →
  hasByte c sep ∨ ∃ w, In w words ∧ hasByte c w.
Proof.
  unfold strings.Join. induction words as [|w ws IH]; simpl.
  - intros [].
  - destruct ws as [|w' ws'].
    + intros H. right. exists w. split; [left; reflexivity|exact H].
    + rewrite !hasByte_append. intros [H|[H|H]].
      * right. exists w. split; [left; reflexivity|exact H].
      * left. exact H.
      * destruct (IH H) as [Hs|(v & Hv & Hc)]; [left; exact Hs|].
        right. exists v. split; [right; exact Hv|exact Hc].
Qed.

(** A replacement brings in no byte but those of [new]. *)
Lemma hasByte_replaceFrom c old new s : ∀ skip,
  hasByte c (strings.replaceFrom old new skip s) → hasByte c s ∨ hasByte c new.
Proof.
  induction s as [|x s IH]; intros skip; simpl; [tauto|].
  destruct skip as [|k].
  - destruct (strings.HasPrefix (String x s) old).
    + rewrite hasByte_append. intros [H|H]; [right; exact H|].
      destruct (IH _ H) as [H'|H']; [left; right; exact H'|right; exact H'].
    + intros [H|H]; [left; left; exact H|].
      destruct (IH _ H) as [H'|H']; [left; right; exact H'|right; exact H'].
  - intros H. destruct (IH _ H) as [H'|H']; [left; right; exact H'|right; exact H'].
Qed.

(** Replacing a single byte removes it. *)
Lemma replaceFrom_removes c new s :
  ¬ hasByte c new →
  ¬ hasByte c (strings.replaceFrom (String c EmptyString) new 0 s).
Proof.
  intros Hnew. induction s as [|x s IH]; simpl; [tauto|].
  unfold strings.HasPrefix. simpl.
  destruct (ascii_dec c x) as [->|Hne].
  - destruct s; simpl; rewrite hasByte_append; tauto.
  - intros [H|H]; [congruence|exact (IH H)].
Qed.

Lemma replaceAllBySpace_keeps c s old :
  old ≠ EmptyString → c ≠ " "%char → ¬ hasByte c s →
  ¬ hasByte c (replaceAllBySpace s old).
Proof.
  intros Hold Hc Hs H. unfold replaceAllBySpace, strings.ReplaceAll in H.
  destruct old as [|o old]; [congruence|].
  apply hasByte_replaceFrom in H as [H|[H|[]]]; [exact (Hs H)|congruence].
Qed.

Lemma replaceAllBySpace_fold_keeps c olds : ∀ s,
  Forall (λ old, old ≠ EmptyString) olds → c ≠ " "%char → ¬ hasByte c s →
  ¬ hasByte c (fold_left replaceAllBySpace olds s).
Proof.
  induction olds as [|o olds IH]; intros s Hne Hc Hs; simpl; [exact Hs|].
  inversion Hne as [|? ? Ho Holds]; subst.
  apply IH; [exact Holds|exact Hc|].
  apply replaceAllBySpace_keeps; assumption.
Qed.

Lemma replaceAllBySpace_fold_removes c olds : ∀ s,
  Forall (λ old, old ≠ EmptyString) olds → c ≠ " "%char →
  In (String c EmptyString) olds →
  ¬ hasByte c (fold_left replaceAllBySpace olds s).
Proof.
  induction olds as [|o olds IH]; intros s Hne Hc Hin; simpl; [destruct Hin|].
  inversion Hne as [|? ? Ho Holds]; subst.
  destruct (string_dec o (String c EmptyString)) as [->|Hneq].
  - apply replaceAllBySpace_fold_keeps; [exact Holds|exact Hc|].
    unfold replaceAllBySpace, strings.ReplaceAll.
    apply replaceFrom_removes. intros [H|[]]. congruence.
  - destruct Hin as [Heq|Hin]; [congruence|].
    apply IH; assumption.
Qed.

Lemma dangerous_nonempty : Forall (λ old, old ≠ EmptyString) dangerous.
Proof. repeat constructor; discriminate. Qed.

Lemma dangerousBytes_listed c :
  hasByte c dangerousBytes → c ≠ " "%char ∧ In (String c EmptyString) dangerous.
Proof.
  unfold hasByte. vm_compute list_ascii_of_string.
  intros H. repeat (destruct H as [<-|H]); try destruct H;
    (split; [discriminate|vm_compute; tauto]).
Qed.

(** The part of C3 that holds: none of the grouping, quoting, escape and
    wildcard bytes (the bytes of [dangerousBytes]) is left in the output. *)
Lemma sanitizeCQLQuery_no_dangerous_byte query c :
  hasByte c dangerousBytes → ¬ hasByte c (sanitizeCQLQuery query).
Proof.
  intros Hc Hout. apply dangerousBytes_listed in Hc as [Hsp Hin].
  unfold sanitizeCQLQuery in Hout.
  set (replaced := fold_left replaceAllBySpace dangerous query) in Hout.
  assert (Hrep : ¬ hasByte c replaced).
  { apply replaceAllBySpace_fold_removes;
      [apply dangerous_nonempty|exact Hsp|exact Hin]. }
  assert (Hjoin : ¬ hasByte c (strings.Join (strings.Fields replaced) " ")).
  { intros H. apply hasByte_Join in H as [[H|[]]|(w & Hw & H)]; [congruence|].
    apply Hrep. exact (hasByte_substr _ _ _ (Fields_substr _ _ Hw) H). }
  destruct (100 <? _)%nat; [|exact (Hjoin Hout)].
  apply Hjoin. exact (hasByte_slice_to _ _ _ Hout).
Qed.

(** The part of C3 that holds: the output has at most 100 bytes. *)
Lemma sanitizeCQLQuery_length query :
  String.length (sanitizeCQLQuery query) ≤ 100.
Proof.
  unfold sanitizeCQLQuery.
  set (joined := strings.Join _ " ").
  destruct (Nat.ltb_spec 100 (String.length joined)) as [Hlt|Hge].
  - apply slice_to_length.
  - exact Hge.
Qed.

(** C3, at the failing input.  Of two operators that share the space
    between them only the first is replaced ([ReplaceAll] does not look
    at the bytes of a match again), and an operator that stands between
    brackets is not yet delimited by spaces when the operators are
    replaced: in both cases [" AND "] comes out. *)
Theorem sanitizeCQLQuery_keeps_operator :
  sanitizeCQLQuery "x AND AND y" = "x AND y"
  ∧ strings.Contains (sanitizeCQLQuery "x AND AND y") " AND " = true
  ∧ sanitizeCQLQuery "(a)AND(b)" = "a AND b"
  ∧ In "AND"%string (strings.Fields (sanitizeCQLQuery "x AND AND y")).
Proof. repeat split; vm_compute; tauto. Qed.

(** ** The verification of signatures *)

Example sha256_abc :
  hex.EncodeToString (sha256.Sum256 (bytesOf "abc"))
  = "ba7816bf8f01cfea414140de5dae2223b00361a396177a9cb410ff61f20015ad".
Proof. vm_compute. reflexivity. Qed.

Example hmac_sha256_fox :
  hex.EncodeToString
    (hmac.Sum (bytesOf "key") (bytesOf "The quick brown fox jumps over the lazy dog"))
  = "f7bc83f430538424b13298e6aa6fb143ef4d59a14946175997479dbc2d1a3cd8".
Proof. vm_compute. reflexivity. Qed.

Example sha256_constants :
  nth_error sha256.K 0 = Some 0x428a2f98%Z
  ∧ nth_error sha256.K 63 = Some 0xc67178f2%Z
  ∧ nth_error sha256.H0 0 = Some 0x6a09e667%Z
  ∧ nth_error sha256.H0 7 = Some 0x5be0cd19%Z.
Proof. repeat split; vm_compute; reflexivity. Qed.

Example ParseInt_examples :
  strconv.ParseInt "1700000000" = Some 1700000000%Z
  ∧ strconv.ParseInt "-9223372036854775808" = Some (- 2 ^ 63)%Z
  ∧ strconv.ParseInt "9223372036854775808" = None
  ∧ strconv.ParseInt "+12" = Some 12%Z
  ∧ strconv.ParseInt "" = None
  ∧ strconv.ParseInt "-" = None
  ∧ strconv.ParseInt "12a" = None
  ∧ strconv.ParseInt " 12" = None.
Proof. repeat split. Qed.

Lemma xorAcc_zero x : ∀ y v,
  String.length x = String.length y →
  hmac.xorAcc v x y = 0%N ↔ v = 0%N ∧ x = y.
Proof.
  induction x as [|a x IH]; intros [|b y] v Hlen; simpl in *; try discriminate.
  - tauto.
  - rewrite IH by lia. rewrite N.lor_eq_0_iff. split.
    + intros [[Hv Hab] ->]. split; [exact Hv|].
      apply N.lxor_eq in Hab.
      rewrite <- (ascii_N_embedding a), <- (ascii_N_embedding b), Hab.
      reflexivity.
    + intros [Hv Heq]. injection Heq as -> ->.
      rewrite N.lxor_nilpotent. tauto.
Qed.

(** The constant-time comparison decides equality. *)
Lemma hmac_Equal_iff mac1 mac2 : hmac.Equal mac1 mac2 = true ↔ mac1 = mac2.
Proof.
  unfold hmac.Equal, hmac.ConstantTimeCompare.
  destruct (Nat.eqb_spec (String.length mac1) (String.length mac2)) as [Hlen|Hlen];
    simpl.
  - destruct (N.eqb_spec (hmac.xorAcc 0 mac1 mac2) 0) as [Hz|Hnz].
    + apply xorAcc_zero in Hz as [_ ->]; [tauto|exact Hlen].
    + split; [discriminate|]. intros ->. exfalso. apply Hnz.
      apply xorAcc_zero; tauto.
  - split; [discriminate|]. intros ->. congruence.
Qed.

Lemma parseDigits_nonneg s : ∀ acc un,
  (0 <= acc)%Z → strconv.parseDigits acc s = Some un → (0 <= un)%Z.
Proof.
  induction s as [|c s IH]; intros acc un Hacc; simpl.
  - intros [= <-]. exact Hacc.
  - unfold strconv.digitValue.
    destruct ((48 <=? Z.of_N (N_of_ascii c)) && (Z.of_N (N_of_ascii c) <=? 57))%Z
      eqn:Hd; [|discriminate].
    apply IH. lia.
Qed.

(** What [ParseInt] returns is an [int64]. *)
Lemma ParseInt_int64 s ts : strconv.ParseInt s = Some ts → int64 ts.
Proof.
  unfold strconv.ParseInt, int64. destruct s as [|c rest]; [discriminate|].
  set (digits := if (c =? "+")%char || (c =? "-")%char then rest else String c rest).
  destruct digits as [|d ds] eqn:Hdigits; [discriminate|].
  destruct (strconv.parseDigits 0 (String d ds)) as [un|] eqn:Hun; [|discriminate].
  apply parseDigits_nonneg in Hun; [|lia].
  destruct (c =? "-")%char; simpl.
  - destruct (Z.ltb_spec (2 ^ 63) un); [discriminate|]. intros [= <-]. lia.
  - destruct (Z.leb_spec (2 ^ 63) un); [discriminate|]. intros [= <-]. lia.
Qed.

Lemma wrap64_id z : int64 z → wrap64 z = z.
Proof.
  unfold int64, wrap64. intros Hz.
  rewrite Z.mod_small by lia. lia.
Qed.

(** The cases of C2 that hold: no secret, no timestamp, a timestamp that
    is no [int64], a timestamp more than 300 seconds old (as long as the
    age itself fits [int64]), a body that cannot be read, and a signature
    that differs from the expected one. *)
Lemma verifySlackSignature_rejects cfg now r :
  Config.SlackSigningSecret cfg = EmptyString
  ∨ Header_Get r "X-Slack-Request-Timestamp" = EmptyString
  ∨ strconv.ParseInt (Header_Get r "X-Slack-Request-Timestamp") = None
  ∨ (∃ ts, strconv.ParseInt (Header_Get r "X-Slack-Request-Timestamp") = Some ts
           ∧ (300 < now - ts < 2 ^ 63)%Z)
  ∨ Request.Body r = None
  ∨ (∃ body, Request.Body r = Some body
             ∧ Header_Get r "X-Slack-Signature"
               ≠ "v0=" +:+ calculateSignature cfg
                             (Header_Get r "X-Slack-Request-Timestamp") body) →
  verifySlackSignature cfg now r = false.
Proof.
  unfold verifySlackSignature.
  intros [Hs|[Ht|[Hp|[(ts & Hp & Hage)|[Hb|(body & Hb & Hsig)]]]]].
  - rewrite Hs. reflexivity.
  - rewrite Ht. destruct (String.eqb _ ""); reflexivity.
  - rewrite Hp. repeat (destruct (String.eqb _ ""); [reflexivity|]). reflexivity.
  - rewrite Hp. repeat (destruct (String.eqb _ ""); [reflexivity|]).
    rewrite wrap64_id by (unfold int64; lia).
    destruct (Z.ltb_spec 300 (now - ts)); [reflexivity|lia].
  - rewrite Hb. repeat (destruct (String.eqb _ ""); [reflexivity|]).
    destruct (strconv.ParseInt _); [|reflexivity].
    destruct (300 <? _)%Z; reflexivity.
  - rewrite Hb. repeat (destruct (String.eqb _ ""); [reflexivity|]).
    destruct (strconv.ParseInt _); [|reflexivity].
    destruct (300 <? _)%Z; [reflexivity|].
    apply not_true_is_false. rewrite hmac_Equal_iff. congruence.
Qed.

(** The freshness check when the age does not fit [int64]: the
    difference wraps around below zero, and the check is passed. *)
Lemma freshness_wraps now ts :
  int64 now → int64 ts → (2 ^ 63 <= now - ts)%Z →
  wrap64 (now - ts) = (now - ts - 2 ^ 64)%Z
  ∧ (300 <? wrap64 (now - ts))%Z = false.
Proof.
  unfold int64, wrap64. intros Hnow Hts Hage.
  assert (Hmod : ((now - ts + 2 ^ 63) mod 2 ^ 64 = now - ts + 2 ^ 63 - 2 ^ 64)%Z).
  { symmetry. apply Z.mod_unique with 1%Z; lia. }
  rewrite Hmod. split; [lia|]. apply Z.ltb_ge. lia.
Qed.

(** C2, at the failing input.  The time stamp is the least [int64]: it
    parses, it lies more than 300 seconds before the clock reading
    1700000000, but the difference wraps around to a negative number and
    the freshness check lets the request through; the signature being the
    expected one, the verification answers [true]. *)
Theorem verifySlackSignature_accepts_stale :
  strconv.ParseInt (Header_Get staleRequest "X-Slack-Request-Timestamp")
    = Some (- 2 ^ 63)%Z
  ∧ (300 < 1700000000 - - 2 ^ 63)%Z
  ∧ wrap64 (1700000000 - - 2 ^ 63) = (- 9223372035154775808)%Z
  ∧ Header_Get staleRequest "X-Slack-Signature"
    = "v0=" +:+ calculateSignature botConfig "-9223372036854775808" "{}"
  ∧ verifySlackSignature botConfig 1700000000 staleRequest = true.
Proof.
  split; [vm_compute; reflexivity|].
  split; [vm_compute; reflexivity|].
  split; [vm_compute; reflexivity|].
  split; vm_compute; reflexivity.
Qed.

(** C10. The freshness check bounds the age from above only: whenever
    the time stamp is later than the clock (which reads a time after the
    epoch), the test [time.Now().Unix()-ts > 300] is false, and a request
    that carries the expected signature is accepted. *)
Theorem verifySlackSignature_future cfg now r ts body :
  (0 <= now < 2 ^ 63)%Z →
  Config.SlackSigningSecret cfg ≠ EmptyString →
  strconv.ParseInt (Header_Get r "X-Slack-Request-Timestamp") = Some ts →
  (now < ts)%Z →
  Request.Body r = Some body →
  Header_Get r "X-Slack-Signature"
    = "v0=" +:+ calculateSignature cfg
                  (Header_Get r "X-Slack-Request-Timestamp") body →
  (300 <? wrap64 (now - ts))%Z = false
  ∧ verifySlackSignature cfg now r = true.
Proof.
  intros Hnow Hsecret Hparse Hfuture Hbody Hsig.
  pose proof (ParseInt_int64 _ _ Hparse) as Hts. unfold int64 in Hts.
  assert (Hfresh : (300 <? wrap64 (now - ts))%Z = false).
  { rewrite wrap64_id by (unfold int64; lia). apply Z.ltb_ge. lia. }
  split; [exact Hfresh|].
  unfold verifySlackSignature.
  destruct (String.eqb_spec (Config.SlackSigningSecret cfg) "") as [|_];
    [contradiction|].
  destruct (String.eqb_spec (Header_Get r "X-Slack-Request-Timestamp") "")
    as [Hempty|_].
  { rewrite Hempty in Hparse. discriminate. }
  rewrite Hparse, Hfresh, Hbody, Hsig. apply hmac_Equal_iff. reflexivity.
Qed.

Lemma verifySlackSignature_future_witness :
  (300 <? wrap64 (1700000000 - 1700003600))%Z = false
  ∧ verifySlackSignature botConfig 1700000000 futureRequest = true.
Proof.
  apply (verifySlackSignature_future botConfig 1700000000 futureRequest
           1700003600 "{}").
  - lia.
  - discriminate.
  - reflexivity.
  - lia.
  - reflexivity.
  - reflexivity.
Defined.

(** ** The store *)

Section TableFacts.
Context {A : Type} (key : A → nat) (setKey : nat → A → A).

Lemma nextKey_fresh rows r : In r rows → key r < nextKey key rows.
Proof.
  intros Hr. unfold nextKey.
  pose proof (proj1 (list_max_le (List.map key rows) (list_max (List.map key rows)))
                (Nat.le_refl _)) as Hall.
  rewrite List.Forall_forall in Hall.
  specialize (Hall (key r) (in_map key rows r Hr)). lia.
Qed.

Lemma updateRow_other rows row :
  (∀ r, In r rows → key r ≠ key row) → updateRow key rows row = rows.
Proof.
  unfold updateRow. induction rows as [|r rows IH]; intros Hne; simpl;
    [reflexivity|].
  destruct (Nat.eqb_spec (key r) (key row)) as [Heq|_].
  - exfalso. exact (Hne r (or_introl eq_refl) Heq).
  - f_equal. apply IH. intros r' Hr'. apply Hne. right. exact Hr'.
Qed.

Lemma updateRow_last rows x y :
  (∀ r, In r rows → key r ≠ key y) → key x = key y →
  updateRow key (rows ++ [x]) y = rows ++ [y].
Proof.
  intros Hne Hxy.
  pose proof (updateRow_other rows y Hne) as Hrows.
  unfold updateRow in *. rewrite List.map_app, Hrows. simpl.
  rewrite Hxy, Nat.eqb_refl. reflexivity.
Qed.

Lemma hasKey_last rows x : hasKey key (rows ++ [x]) (key x) = true.
Proof.
  unfold hasKey. rewrite existsb_app. simpl.
  rewrite Nat.eqb_refl, orb_true_r. reflexivity.
Qed.

End TableFacts.

Lemma firstInquiry_None db messageID :
  DB.firstInquiryByMessageID db messageID = None ↔
  ∀ i, In i (DB.inquiries db) → Inquiry.MessageID i ≠ messageID.
Proof.
  unfold DB.firstInquiryByMessageID. split.
  - intros Hnone i Hi Heq.
    pose proof (find_none _ _ Hnone i Hi) as Hf. simpl in Hf.
    rewrite Heq, String.eqb_refl in Hf. discriminate.
  - intros Hall.
    destruct (List.find _ _) as [i|] eqn:Hf; [|reflexivity].
    apply find_some in Hf as [Hi Heq]. apply String.eqb_eq in Heq.
    exfalso. exact (Hall i Hi Heq).
Qed.

Lemma firstInquiry_Some db messageID i :
  DB.firstInquiryByMessageID db messageID = Some i →
  In i (DB.inquiries db) ∧ Inquiry.MessageID i = messageID.
Proof.
  unfold DB.firstInquiryByMessageID. intros Hf.
  apply find_some in Hf as [Hi Heq]. apply String.eqb_eq in Heq. auto.
Qed.

(** Under the unique index, a row is found by the identifier of its
    message. *)
Lemma firstInquiry_unique db i :
  uniqueMessageID db → In i (DB.inquiries db) →
  DB.firstInquiryByMessageID db (Inquiry.MessageID i) = Some i.
Proof.
  unfold uniqueMessageID, DB.firstInquiryByMessageID.
  induction (DB.inquiries db) as [|r rows IH]; intros Hnd Hi; [destruct Hi|].
  simpl in *. apply NoDup_cons in Hnd as [Hr Hnd]. rewrite list_elem_of_In in Hr.
  destruct Hi as [->|Hi].
  - rewrite String.eqb_refl. reflexivity.
  - destruct (String.eqb_spec (Inquiry.MessageID r) (Inquiry.MessageID i))
      as [Heq|_].
    + exfalso. apply Hr. rewrite Heq. apply in_map. exact Hi.
    + apply IH; assumption.
Qed.

Lemma inquiriesFor_unique db i :
  uniqueMessageID db → In i (DB.inquiries db) →
  inquiriesFor db (Inquiry.MessageID i) = 1.
Proof.
  unfold uniqueMessageID, inquiriesFor.
  induction (DB.inquiries db) as [|r rows IH]; intros Hnd Hi; [destruct Hi|].
  simpl in *. apply NoDup_cons in Hnd as [Hr Hnd]. rewrite list_elem_of_In in Hr.
  assert (Hnone : ∀ rows' m,
            ¬ In m (List.map Inquiry.MessageID rows') →
            List.filter (λ j, String.eqb (Inquiry.MessageID j) m) rows' = []).
  { clear. induction rows' as [|j rows' IH]; intros m Hm; simpl; [reflexivity|].
    simpl in Hm.
    destruct (String.eqb_spec (Inquiry.MessageID j) m) as [Heq|_]; [tauto|].
    apply IH. tauto. }
  destruct Hi as [->|Hi].
  - rewrite String.eqb_refl. simpl. rewrite Hnone by exact Hr. reflexivity.
  - destruct (String.eqb_spec (Inquiry.MessageID r) (Inquiry.MessageID i))
      as [Heq|_].
    + exfalso. apply Hr. rewrite Heq. apply in_map. exact Hi.
    + apply IH; assumption.
Qed.

Lemma inquiriesFor_None db messageID :
  DB.firstInquiryByMessageID db messageID = None → inquiriesFor db messageID = 0.
Proof.
  rewrite firstInquiry_None. unfold inquiriesFor.
  induction (DB.inquiries db) as [|r rows IH]; intros Hall; simpl; [reflexivity|].
  destruct (String.eqb_spec (Inquiry.MessageID r) messageID) as [Heq|_].
  - exfalso. exact (Hall r (or_introl eq_refl) Heq).
  - apply IH. intros i Hi. apply Hall. right. exact Hi.
Qed.

(** Recording an event never fails for a record without key, and appends
    one row. *)
Lemma createReactionEvent_new db messageID channelID userID reaction eventType timestamp :
  DB.createReactionEvent db
    (newReactionEvent messageID channelID userID reaction eventType timestamp)
  = let recorded :=
      ReactionEvent.mk (nextKey ReactionEvent.ID (DB.reaction_events db))
        messageID channelID userID reaction eventType timestamp false None in
    Ok (DB.mk (DB.inquiries db) (DB.search_results db)
          (DB.reaction_events db ++ [recorded]),
        recorded).
Proof. reflexivity. Qed.

(** Saving the event that was just recorded rewrites its row. *)
Lemma saveReactionEvent_last inquiries results events e e' :
  ReactionEvent.ID e = nextKey ReactionEvent.ID events →
  ReactionEvent.ID e' = ReactionEvent.ID e →
  DB.saveReactionEvent (DB.mk inquiries results (events ++ [e])) e'
  = DB.mk inquiries results (events ++ [e']).
Proof.
  intros He He'. unfold DB.saveReactionEvent. simpl.
  rewrite He', hasKey_last. f_equal.
  apply updateRow_last; [|congruence].
  intros r Hr. pose proof (nextKey_fresh ReactionEvent.ID events r Hr). lia.
Qed.

(** ** Reaction intake *)

Lemma trigger_added_passes cfg :
  negb (String.eqb (Config.TriggerEmoji cfg) (Config.TriggerEmoji cfg))
  || negb (String.eqb "added" "added") = false.
Proof. rewrite String.eqb_refl. reflexivity. Qed.

(** The first steps of the intake of an "added" event of the trigger
    emoji: the filter is passed and the event is recorded. *)
Ltac intake_added :=
  unfold ProcessReactionEvent;
  rewrite trigger_added_passes, createReactionEvent_new;
  cbv beta iota zeta.


(** C1. When an inquiry about the message [m] is already stored, a further
    "added" event of the trigger emoji on [m] succeeds, leaves the table
    of inquiries as it is, so that, the index on [message_id] being
    unique, exactly one inquiry about [m] exists afterwards; the pipeline
    is not run again (no search result is stored); and the event is
    recorded as one new row, marked as processed and linked to that
    inquiry. *)
Theorem ProcessReactionEvent_idempotent
    cfg env db existing channelID userID timestamp :
  uniqueMessageID db →
  In existing (DB.inquiries db) →
  ∃ db',
    ProcessReactionEvent cfg env db (Inquiry.MessageID existing) channelID
      userID (Config.TriggerEmoji cfg) "added" timestamp
    = Some (db', Ok tt)
    ∧ DB.inquiries db' = DB.inquiries db
    ∧ inquiriesFor db' (Inquiry.MessageID existing) = 1
    ∧ DB.search_results db' = DB.search_results db
    ∧ DB.reaction_events db'
      = DB.reaction_events db
        ++ [ ReactionEvent.mk
               (nextKey ReactionEvent.ID (DB.reaction_events db))
               (Inquiry.MessageID existing) channelID userID
               (Config.TriggerEmoji cfg) "added" timestamp
               true (Some (Inquiry.ID existing)) ].
Proof.
  intros Huniq Hin. intake_added.
  set (db1 := DB.mk _ _ (_ ++ _)).
  assert (Hfirst : DB.firstInquiryByMessageID db1 (Inquiry.MessageID existing)
                   = Some existing).
  { apply (firstInquiry_unique db existing Huniq Hin). }
  rewrite Hfirst. unfold db1.
  rewrite (saveReactionEvent_last _ _ _ _
             (ReactionEvent.mk
                (nextKey ReactionEvent.ID (DB.reaction_events db))
                (Inquiry.MessageID existing) channelID userID
                (Config.TriggerEmoji cfg) "added" timestamp
                true (Some (Inquiry.ID existing))))
    by reflexivity.
  eexists. split; [reflexivity|]. simpl.
  split; [reflexivity|]. split; [|split; reflexivity].
  apply (inquiriesFor_unique db existing Huniq Hin).
Qed.

(** C9. On an "added" event of the trigger emoji for a message that has
    no inquiry yet, when the message that is fetched has an empty text,
    the intake fails with the error of the empty message and the table of
    inquiries is unchanged: there is no inquiry about the message. *)
Theorem ProcessReactionEvent_empty_message
    cfg env db messageID channelID userID timestamp slackMessage :
  DB.firstInquiryByMessageID db messageID = None →
  Env.GetMessage env channelID messageID = Ok slackMessage →
  SlackMessage.Text slackMessage = EmptyString →
  ∃ db',
    ProcessReactionEvent cfg env db messageID channelID userID
      (Config.TriggerEmoji cfg) "added" timestamp
    = Some (db', Err "empty Slack message")
    ∧ DB.inquiries db' = DB.inquiries db
    ∧ inquiriesFor db' messageID = 0.
Proof.
  intros Hnew Hget Hempty. intake_added.
  set (db1 := DB.mk _ _ (_ ++ _)).
  assert (Hfirst : DB.firstInquiryByMessageID db1 messageID = None) by exact Hnew.
  rewrite Hfirst, Hget, Hempty. simpl.
  eexists. split; [reflexivity|]. split; [reflexivity|].
  apply (inquiriesFor_None db messageID Hnew).
Qed.

Lemma oneInquiry_unique : uniqueMessageID oneInquiry.
Proof. apply NoDup_singleton. Qed.

Lemma ProcessReactionEvent_idempotent_witness :
  ∃ db',
    ProcessReactionEvent botConfig (failingModel deployMessage true) oneInquiry
      "1700000000.000100" "C024BE91L" "U9" "eyes" "added" "1700000100.000000"
    = Some (db', Ok tt)
    ∧ DB.inquiries db' = [storedInquiry]
    ∧ inquiriesFor db' "1700000000.000100" = 1
    ∧ DB.search_results db' = []
    ∧ DB.reaction_events db'
      = [ ReactionEvent.mk 1 "1700000000.000100" "C024BE91L" "U9" "eyes"
            "added" "1700000100.000000" true (Some 1) ].
Proof.
  apply (ProcessReactionEvent_idempotent botConfig
           (failingModel deployMessage true) oneInquiry storedInquiry
           "C024BE91L" "U9" "1700000100.000000").
  - exact oneInquiry_unique.
  - simpl. left. reflexivity.
Defined.

Lemma ProcessReactionEvent_empty_message_witness :
  ∃ db',
    ProcessReactionEvent botConfig (failingModel emptyMessage true) DB.empty
      "1700000000.000100" "C024BE91L" "U9" "eyes" "added" "1700000100.000000"
    = Some (db', Err "empty Slack message")
    ∧ DB.inquiries db' = []
    ∧ inquiriesFor db' "1700000000.000100" = 0.
Proof.
  apply (ProcessReactionEvent_empty_message botConfig
           (failingModel emptyMessage true) DB.empty
           "1700000000.000100" "C024BE91L" "U9" "1700000100.000000"
           emptyMessage); reflexivity.
Defined.

(** C8, refuted.  A "removed" event of the trigger emoji, and an "added"
    event of another emoji, return at once: nothing is recorded. *)
Lemma ProcessReactionEvent_records_nothing :
  ProcessReactionEvent botConfig (failingModel deployMessage true) DB.empty
    "1700000000.000100" "C024BE91L" "U9" "eyes" "removed" "1700000100.000000"
  = Some (DB.empty, Ok tt)
  ∧ ProcessReactionEvent botConfig (failingModel deployMessage true) DB.empty
      "1700000000.000100" "C024BE91L" "U9" "thumbsup" "added" "1700000100.000000"
    = Some (DB.empty, Ok tt)
  ∧ DB.reaction_events DB.empty = [].
Proof. repeat split. Qed.

(** ** The search leaves the inquiries and the events alone *)

Lemma saveResults_frame results : ∀ db,
  DB.inquiries (saveResults db results) = DB.inquiries db
  ∧ DB.reaction_events (saveResults db results) = DB.reaction_events db.
Proof.
  unfold saveResults. induction results as [|r rs IH]; intros db; simpl.
  - split; reflexivity.
  - destruct (IH (DB.createSearchResult db r)) as [-> ->]. split; reflexivity.
Qed.

Lemma searchSlack_frame cfg env db query inquiryID :
  DB.inquiries (searchSlack cfg env db query inquiryID).1 = DB.inquiries db
  ∧ DB.reaction_events (searchSlack cfg env db query inquiryID).1
    = DB.reaction_events db.
Proof.
  unfold searchSlack. destruct (Env.SearchMessages _ _ _); simpl.
  - apply saveResults_frame.
  - split; reflexivity.
Qed.

Lemma searchConfluence_frame cfg env db query inquiryID :
  DB.inquiries (searchConfluence cfg env db query inquiryID).1 = DB.inquiries db
  ∧ DB.reaction_events (searchConfluence cfg env db query inquiryID).1
    = DB.reaction_events db.
Proof.
  unfold searchConfluence. destruct (SearchPages _ _ _); simpl.
  - apply saveResults_frame.
  - split; reflexivity.
Qed.

(** [SearchAll] never reports an error; it returns unless the slice
    expression of the ranking panics. *)
Lemma SearchAll_inv cfg env db query inquiryID db' searched :
  SearchAll cfg env db query inquiryID = Some (db', searched) →
  DB.inquiries db' = DB.inquiries db
  ∧ DB.reaction_events db' = DB.reaction_events db
  ∧ ∃ searchResults, searched = Ok searchResults.
Proof.
  unfold SearchAll.
  pose proof (searchSlack_frame cfg env db
                (strings.Join (extractKeywords (Env.To_LowerCase env) query) " ") inquiryID) as Hs.
  destruct (searchSlack _ _ _ _ _) as [db1 r1]. simpl in Hs.
  pose proof (searchConfluence_frame cfg env db1
                (strings.Join (extractKeywords (Env.To_LowerCase env) query) " ") inquiryID) as Hc.
  destruct (searchConfluence _ _ _ _ _) as [db2 r2]. simpl in Hc.
  destruct (filterAndRankResults _ _) as [filtered|]; simpl; [|discriminate].
  intros [= <- <-]. destruct Hs as [Hs1 Hs2], Hc as [Hc1 Hc2].
  split; [congruence|]. split; [congruence|]. eauto.
Qed.

Lemma SearchAll_total cfg env db query inquiryID :
  (0 <= Config.MaxSearchResults cfg)%Z →
  ∃ db' searchResults,
    SearchAll cfg env db query inquiryID = Some (db', Ok searchResults).
Proof.
  intros Hmax. unfold SearchAll.
  destruct (searchSlack _ _ _ _ _) as [db1 r1].
  destruct (searchConfluence _ _ _ _ _) as [db2 r2].
  rewrite filterAndRankResults_spec. simpl.
  destruct (Z.ltb_spec (Config.MaxSearchResults cfg) 0); [lia|].
  simpl. eauto.
Qed.

(** ** The fallback text *)

Lemma excerpt_length content : String.length (excerpt content) ≤ 100.
Proof.
  unfold excerpt.
  destruct (Nat.ltb_spec 100 (String.length content)) as [Hlt|Hge].
  - apply slice_to_length.
  - exact Hge.
Qed.

Lemma appendResult_bullet response r :
  appendResult response r = response +:+ bullet r.
Proof.
  unfold appendResult, bullet, excerpt, ellipsis.
  destruct (String.eqb (SearchResult.Content r) "");
    destruct (String.eqb (SearchResult.URL r) "");
    destruct (100 <? String.length (SearchResult.Content r))%nat;
    simpl negb; cbv iota;
    rewrite ?append_assoc, ?append_nil_r; reflexivity.
Qed.

Lemma fallbackLoop_spec results : ∀ i response,
  fallbackLoop i results response
  = response
    +:+ List.fold_right String.append "" (List.map bullet (take (3 - i) results)).
Proof.
  induction results as [|r rs IH]; intros i response.
  - simpl. rewrite take_nil. simpl. rewrite append_nil_r. reflexivity.
  - change (fallbackLoop i (r :: rs) response)
      with (if (3 <=? i)%nat then response
            else fallbackLoop (S i) rs (appendResult response r)).
    destruct (Nat.leb_spec 3 i) as [Hge|Hlt].
    + replace (3 - i) with 0 by lia. simpl. rewrite append_nil_r. reflexivity.
    + rewrite IH, appendResult_bullet.
      replace (3 - i) with (S (3 - S i)) by lia.
      simpl. rewrite append_assoc. reflexivity.
Qed.

(** The loop of [generateFallbackResponse] writes the text that the
    specification describes. *)
Lemma generateFallbackResponse_spec searchResults :
  generateFallbackResponse searchResults = fallbackText searchResults.
Proof.
  unfold generateFallbackResponse, fallbackText.
  destruct searchResults as [|r rs]; [reflexivity|].
  simpl length. simpl Nat.eqb. cbv iota.
  rewrite fallbackLoop_spec. rewrite !append_assoc. reflexivity.
Qed.

(** ** The orchestrator *)

Lemma existsb_find {A} (f : A → bool) l :
  existsb f l = match List.find f l with Some _ => true | None => false end.
Proof.
  induction l as [|x l IH]; simpl; [reflexivity|].
  destruct (f x); [reflexivity|exact IH].
Qed.

(** Creating the inquiry of a message succeeds exactly when no inquiry
    about the message is stored; the row is appended with the next key. *)
Lemma createInquiry_new db messageID channelID userID messageText timestamp :
  DB.createInquiry db
    (newInquiry messageID channelID userID messageText timestamp)
  = match DB.firstInquiryByMessageID db messageID with
    | Some _ => Err "UNIQUE constraint failed: inquiries.message_id"
    | None =>
        let pending :=
          Inquiry.mk (nextKey Inquiry.ID (DB.inquiries db)) messageID channelID
            userID messageText timestamp "pending" None false "" "" in
        Ok (DB.mk (DB.inquiries db ++ [pending]) (DB.search_results db)
              (DB.reaction_events db),
            pending)
    end.
Proof.
  unfold DB.createInquiry, DB.firstInquiryByMessageID.
  rewrite existsb_find. simpl.
  destruct (List.find _ _); reflexivity.
Qed.

(** Saving the inquiry that was just created rewrites its row. *)
Lemma saveInquiry_last rows results events x y :
  Inquiry.ID x = nextKey Inquiry.ID rows →
  Inquiry.ID y = Inquiry.ID x →
  (∀ r, In r rows → Inquiry.MessageID r ≠ Inquiry.MessageID y) →
  DB.saveInquiry (DB.mk (rows ++ [x]) results events) y
  = DB.mk (rows ++ [y]) results events.
Proof.
  intros Hx Hy Hfresh. unfold DB.saveInquiry. simpl.
  assert (Hcheck :
    existsb
      (λ i, String.eqb (Inquiry.MessageID i) (Inquiry.MessageID y)
            && negb (Inquiry.ID i =? Inquiry.ID y)%nat)
      (rows ++ [x]) = false).
  { rewrite existsb_app. simpl. rewrite Hy, Nat.eqb_refl. simpl.
    rewrite andb_false_r, !orb_false_r.
    apply not_true_is_false. rewrite existsb_exists.
    intros (r & Hr & Hm). apply andb_true_iff in Hm as [Hm _].
    apply String.eqb_eq in Hm. exact (Hfresh r Hr Hm). }
  rewrite Hcheck, Hy, hasKey_last. f_equal.
  apply updateRow_last; [|congruence].
  intros r Hr. pose proof (nextKey_fresh Inquiry.ID rows r Hr). lia.
Qed.

(** C7. When the generation of the answer fails, the text that is sent
    and stored is the fallback text: the fixed message when the search
    found nothing, otherwise a heading, one bullet for each of the first
    three results at most (title and source; the content, cut to its first
    100 bytes and followed by an ellipsis when it is longer, unless it is
    empty; the URL unless it is empty) and a closing line.  Whether the reply could
    be posted or not, the inquiry ends as the one row about its message,
    with the status "failed" and the fallback text as its response
    text. *)
Theorem ProcessInquiry_fallback
    cfg env db messageID channelID userID messageText timestamp
    db1 pending db2 searchResults err :
  DB.createInquiry db
    (newInquiry messageID channelID userID messageText timestamp)
  = Ok (db1, pending) →
  SearchAll cfg env
    (DB.saveInquiry db1 (Inquiry.setStatus "processing" pending))
    messageText (Inquiry.ID pending)
  = Some (db2, Ok searchResults) →
  Env.GenerateResponse env (Inquiry.setStatus "processing" pending) searchResults
  = Err err →
  generateFallbackResponse searchResults = fallbackText searchResults
  ∧ ∃ db' final,
      ProcessInquiry cfg env db messageID channelID userID messageText timestamp
      = Some (db', Err ("AI response generation failed: " +:+ err))
      ∧ DB.inquiries db' = DB.inquiries db ++ [final]
      ∧ inquiriesFor db' messageID = 1
      ∧ Inquiry.ID final = Inquiry.ID pending
      ∧ Inquiry.MessageID final = messageID
      ∧ Inquiry.Status final = "failed"%string
      ∧ Inquiry.ResponseText final = fallbackText searchResults.
Proof.
  intros Hcreate Hsearch Hgen.
  split; [apply generateFallbackResponse_spec|].
  rewrite <- generateFallbackResponse_spec.
  unfold ProcessInquiry. rewrite Hcreate. cbv beta iota zeta.
  change (Inquiry.ID (Inquiry.setStatus "processing" pending))
    with (Inquiry.ID pending).
  rewrite Hsearch. simpl mbind. cbv beta iota zeta. rewrite Hgen.
  (* the shape of the store after creation *)
  rewrite createInquiry_new in Hcreate.
  destruct (DB.firstInquiryByMessageID db messageID) as [|] eqn:Hnew;
    [discriminate|].
  cbv zeta in Hcreate. injection Hcreate as <- <-.
  set (rows := DB.inquiries db) in *.
  set (n := nextKey Inquiry.ID rows) in *.
  assert (Hfresh : ∀ r, In r rows → Inquiry.MessageID r ≠ messageID).
  { apply firstInquiry_None, Hnew. }
  rewrite saveInquiry_last in Hsearch by (try reflexivity; exact Hfresh).
  apply SearchAll_inv in Hsearch as (Hrows & _ & _). simpl in Hrows.
  destruct db2 as [rows2 results2 events2]. simpl in Hrows. subst rows2.
  assert (Hcount : ∀ final results events,
            Inquiry.MessageID final = messageID →
            inquiriesFor (DB.mk (rows ++ [final]) results events) messageID = 1).
  { intros final results events Hm. unfold inquiriesFor. simpl.
    rewrite List.filter_app, length_app. simpl.
    rewrite Hm, String.eqb_refl. simpl.
    pose proof (inquiriesFor_None db messageID Hnew) as Hzero.
    unfold inquiriesFor in Hzero. fold rows in Hzero. rewrite Hzero.
    reflexivity. }
  unfold sendResponse. simpl Inquiry.ChannelID. simpl Inquiry.Timestamp.
  destruct (Env.PostThreadReply env channelID timestamp _) as [threadTS|sendErr].
  - rewrite saveInquiry_last by (try reflexivity; exact Hfresh).
    rewrite saveInquiry_last by (try reflexivity; exact Hfresh).
    eexists _, _. split; [reflexivity|]. split; [reflexivity|].
    split; [apply Hcount; reflexivity|]. repeat split.
  - rewrite saveInquiry_last by (try reflexivity; exact Hfresh).
    eexists _, _. split; [reflexivity|]. split; [reflexivity|].
    split; [apply Hcount; reflexivity|]. repeat split.
Qed.

Lemma ProcessInquiry_fallback_witness :
  (∃ db' final,
     ProcessInquiry botConfig (failingModel deployMessage true) DB.empty
       "1700000000.000100" "C024BE91L" "U2147483697" "How to deploy service"
       "1700000000.000100"
     = Some (db', Err "AI response generation failed: LiteLLM not configured")
     ∧ DB.inquiries db' = [final]
     ∧ Inquiry.Status final = "failed"%string
     ∧ Inquiry.ResponseText final = fallbackText [foundResult])
  ∧ (∃ db' final,
       ProcessInquiry botConfig (failingModel deployMessage false) DB.empty
         "1700000000.000100" "C024BE91L" "U2147483697" "How to deploy service"
         "1700000000.000100"
       = Some (db', Err "AI response generation failed: LiteLLM not configured")
       ∧ DB.inquiries db' = [final]
       ∧ Inquiry.Status final = "failed"%string
       ∧ Inquiry.ResponseText final = fallbackText [foundResult]).
Proof.
  split.
  - edestruct (ProcessInquiry_fallback botConfig
                 (failingModel deployMessage true) DB.empty
                 "1700000000.000100" "C024BE91L" "U2147483697"
                 "How to deploy service" "1700000000.000100")
      as (_ & db' & final & Hrun & Hrows & _ & _ & _ & Hstatus & Htext).
    + reflexivity.
    + vm_compute. reflexivity.
    + reflexivity.
    + exists db', final. split; [exact Hrun|].
      split; [exact Hrows|]. split; [exact Hstatus|exact Htext].
  - edestruct (ProcessInquiry_fallback botConfig
                 (failingModel deployMessage false) DB.empty
                 "1700000000.000100" "C024BE91L" "U2147483697"
                 "How to deploy service" "1700000000.000100")
      as (_ & db' & final & Hrun & Hrows & _ & _ & _ & Hstatus & Htext).
    + reflexivity.
    + vm_compute. reflexivity.
    + reflexivity.
    + exists db', final. split; [exact Hrun|].
      split; [exact Hrows|]. split; [exact Hstatus|exact Htext].
Defined.

(** ** The orchestrator leaves the recorded events alone *)

Lemma saveInquiry_events db inquiry :
  DB.reaction_events (DB.saveInquiry db inquiry) = DB.reaction_events db.
Proof.
  unfold DB.saveInquiry.
  destruct (existsb _ _); [reflexivity|].
  destruct (hasKey _ _ _); reflexivity.
Qed.

Lemma createInquiry_events db inquiry db1 created :
  DB.createInquiry db inquiry = Ok (db1, created) →
  DB.reaction_events db1 = DB.reaction_events db.
Proof.
  unfold DB.createInquiry.
  destruct (existsb _ _); [discriminate|].
  destruct (_ && _); [discriminate|].
  simpl. intros [= <- _]. reflexivity.
Qed.

Lemma sendResponse_events env db inquiry response :
  DB.reaction_events (sendResponse env db inquiry response).1.1
  = DB.reaction_events db.
Proof.
  unfold sendResponse.
  destruct (Env.PostThreadReply _ _ _ _); simpl; [|reflexivity].
  apply saveInquiry_events.
Qed.

Lemma ProcessInquiry_events
    cfg env db messageID channelID userID messageText timestamp db' outcome :
  ProcessInquiry cfg env db messageID channelID userID messageText timestamp
  = Some (db', outcome) →
  DB.reaction_events db' = DB.reaction_events db.
Proof.
  unfold ProcessInquiry.
  destruct (DB.createInquiry db _) as [[db1 created]|e] eqn:Hcreate.
  2: { intros [= <- _]. reflexivity. }
  apply createInquiry_events in Hcreate.
  destruct (SearchAll _ _ _ _ _) as [[db2 searched]|] eqn:Hsearch; simpl;
    [|discriminate].
  apply SearchAll_inv in Hsearch as (_ & Hevents & rs & ->).
  rewrite saveInquiry_events in Hevents.
  destruct (Env.GenerateResponse _ _ _) as [response|e].
  - pose proof (sendResponse_events env db2
                  (Inquiry.setStatus "processing" created) response) as Hsend.
    destruct (sendResponse _ _ _ _) as [[db3 sent] [u|e]]; simpl in Hsend;
      intros [= <- _]; rewrite saveInquiry_events; congruence.
  - pose proof (sendResponse_events env db2
                  (Inquiry.setStatus "processing" created)
                  (generateFallbackResponse rs)) as Hsend.
    destruct (sendResponse _ _ _ _) as [[db3 sent] sentOutcome]; simpl in Hsend.
    intros [= <- _]. rewrite saveInquiry_events. congruence.
Qed.

(** The orchestrator returns, unless the ranking panics. *)
Lemma ProcessInquiry_total
    cfg env db messageID channelID userID messageText timestamp :
  (0 <= Config.MaxSearchResults cfg)%Z →
  ∃ db' outcome,
    ProcessInquiry cfg env db messageID channelID userID messageText timestamp
    = Some (db', outcome).
Proof.
  intros Hmax. unfold ProcessInquiry.
  destruct (DB.createInquiry db _) as [[db1 created]|e]; [|eauto].
  edestruct (SearchAll_total cfg env) as (db2 & rs & ->); [exact Hmax|].
  simpl.
  destruct (Env.GenerateResponse _ _ _) as [response|e].
  - destruct (sendResponse _ _ _ _) as [[db3 sent] [u|e]]; eauto.
  - destruct (sendResponse _ _ _ _) as [[db3 sent] sentOutcome]; eauto.
Qed.

(** C8, amended.  An "added" event of the trigger emoji is recorded as
    one new row that carries the raw event, before anything else is done,
    and the row is there when [ProcessReactionEvent] returns, whatever
    happens next (the message is already known, it cannot be fetched, it
    is empty, the pipeline fails or succeeds).  Any other event (a
    "removed" event, another emoji) returns success at once and leaves the
    store as it is: nothing is recorded for it. *)
Theorem ProcessReactionEvent_records
    cfg env db messageID channelID userID reaction eventType timestamp :
  (0 <= Config.MaxSearchResults cfg)%Z →
  ∃ db' outcome,
    ProcessReactionEvent cfg env db messageID channelID userID reaction
      eventType timestamp
    = Some (db', outcome)
    ∧ if String.eqb reaction (Config.TriggerEmoji cfg)
         && String.eqb eventType "added"
      then ∃ e,
             DB.reaction_events db' = DB.reaction_events db ++ [e]
             ∧ ReactionEvent.ID e
               = nextKey ReactionEvent.ID (DB.reaction_events db)
             ∧ ReactionEvent.MessageID e = messageID
             ∧ ReactionEvent.ChannelID e = channelID
             ∧ ReactionEvent.UserID e = userID
             ∧ ReactionEvent.Reaction e = reaction
             ∧ ReactionEvent.EventType e = eventType
             ∧ ReactionEvent.Timestamp e = timestamp
      else db' = db ∧ outcome = Ok tt.
Proof.
  intros Hmax. unfold ProcessReactionEvent.
  destruct (String.eqb reaction (Config.TriggerEmoji cfg)); cbn [negb orb andb];
    [|eexists _, _; split; [reflexivity|split; reflexivity]].
  destruct (String.eqb eventType "added"); cbn [negb orb andb];
    [|eexists _, _; split; [reflexivity|split; reflexivity]].
  rewrite createReactionEvent_new. cbv beta iota zeta.
  set (recorded := ReactionEvent.mk _ _ _ _ _ _ _ false None).
  set (db1 := DB.mk _ _ (_ ++ [recorded])).
  assert (Hraw : ∀ e,
            ReactionEvent.ID e = ReactionEvent.ID recorded →
            ReactionEvent.MessageID e = messageID →
            ReactionEvent.ChannelID e = channelID →
            ReactionEvent.UserID e = userID →
            ReactionEvent.Reaction e = reaction →
            ReactionEvent.EventType e = eventType →
            ReactionEvent.Timestamp e = timestamp →
            ∀ db', DB.reaction_events db' = DB.reaction_events db ++ [e] →
            ∃ e0,
              DB.reaction_events db' = DB.reaction_events db ++ [e0]
              ∧ ReactionEvent.ID e0
                = nextKey ReactionEvent.ID (DB.reaction_events db)
              ∧ ReactionEvent.MessageID e0 = messageID
              ∧ ReactionEvent.ChannelID e0 = channelID
              ∧ ReactionEvent.UserID e0 = userID
              ∧ ReactionEvent.Reaction e0 = reaction
              ∧ ReactionEvent.EventType e0 = eventType
              ∧ ReactionEvent.Timestamp e0 = timestamp).
  { intros e H1 H2 H3 H4 H5 H6 H7 db' Hdb'. exists e. repeat split; assumption. }
  assert (Hmark : ∀ id inquiries results,
            ∃ e0,
              DB.reaction_events
                (DB.saveReactionEvent
                   (DB.mk inquiries results (DB.reaction_events db ++ [recorded]))
                   (ReactionEvent.markProcessed id recorded))
              = DB.reaction_events db ++ [e0]
              ∧ ReactionEvent.ID e0
                = nextKey ReactionEvent.ID (DB.reaction_events db)
              ∧ ReactionEvent.MessageID e0 = messageID
              ∧ ReactionEvent.ChannelID e0 = channelID
              ∧ ReactionEvent.UserID e0 = userID
              ∧ ReactionEvent.Reaction e0 = reaction
              ∧ ReactionEvent.EventType e0 = eventType
              ∧ ReactionEvent.Timestamp e0 = timestamp).
  { intros id inquiries results.
    rewrite saveReactionEvent_last by reflexivity.
    apply (Hraw (ReactionEvent.markProcessed id recorded)); reflexivity. }
  destruct (DB.firstInquiryByMessageID db1 messageID) as [existing|].
  { eexists _, _. split; [reflexivity|]. apply Hmark. }
  destruct (Env.GetMessage env channelID messageID) as [slackMessage|e].
  2: { eexists _, _. split; [reflexivity|]. apply (Hraw recorded); reflexivity. }
  destruct (String.eqb (SlackMessage.Text slackMessage) "").
  { eexists _, _. split; [reflexivity|]. apply (Hraw recorded); reflexivity. }
  destruct (ProcessInquiry_total cfg env db1 messageID channelID
              (SlackMessage.User slackMessage) (SlackMessage.Text slackMessage)
              (SlackMessage.Timestamp slackMessage) Hmax)
    as (db2 & processed & Hrun).
  rewrite Hrun. simpl.
  apply ProcessInquiry_events in Hrun. simpl in Hrun.
  destruct processed as [u|e].
  2: { eexists _, _. split; [reflexivity|]. apply (Hraw recorded); auto. }
  destruct (GetInquiryByMessageID db2 messageID) as [inquiry|e].
  2: { eexists _, _. split; [reflexivity|]. apply (Hraw recorded); auto. }
  eexists _, _. split; [reflexivity|].
  destruct db2 as [inquiries2 results2 events2]. simpl in Hrun. subst events2.
  apply Hmark.
Qed.

Lemma ProcessReactionEvent_records_witness :
  ∃ db' outcome,
    ProcessReactionEvent botConfig (failingModel deployMessage true) DB.empty
      "1700000000.000100" "C024BE91L" "U9" "eyes" "added" "1700000100.000000"
    = Some (db', outcome)
    ∧ ∃ e,
        DB.reaction_events db' = [e]
        ∧ ReactionEvent.ID e = 1
        ∧ ReactionEvent.MessageID e = "1700000000.000100"%string
        ∧ ReactionEvent.ChannelID e = "C024BE91L"%string
        ∧ ReactionEvent.UserID e = "U9"%string
        ∧ ReactionEvent.Reaction e = "eyes"%string
        ∧ ReactionEvent.EventType e = "added"%string
        ∧ ReactionEvent.Timestamp e = "1700000100.000000"%string.
Proof.
  apply (ProcessReactionEvent_records botConfig
           (failingModel deployMessage true) DB.empty
           "1700000000.000100" "C024BE91L" "U9" "eyes" "added"
           "1700000100.000000").
  simpl. lia.
Defined.

(** ** The unique index is an invariant of the store *)

Lemma storeInvariant_empty : storeInvariant DB.empty.
Proof. split; apply NoDup_nil_2. Qed.

Lemma storeInvariant_frame db db' :
  DB.inquiries db' = DB.inquiries db → storeInvariant db → storeInvariant db'.
Proof.
  unfold storeInvariant, uniqueInquiryID, uniqueMessageID. intros ->. tauto.
Qed.

Lemma storeInvariant_append db row results events :
  storeInvariant db →
  (∀ r, In r (DB.inquiries db) → Inquiry.ID r ≠ Inquiry.ID row) →
  (∀ r, In r (DB.inquiries db) → Inquiry.MessageID r ≠ Inquiry.MessageID row) →
  storeInvariant (DB.mk (DB.inquiries db ++ [row]) results events).
Proof.
  unfold storeInvariant, uniqueInquiryID, uniqueMessageID. simpl.
  intros [Hid Hm] Hkey Hmsg. rewrite !List.map_app. simpl.
  split; apply NoDup_app; (split; [assumption|]);
    (split; [|apply NoDup_singleton]);
    intros v Hv Hv'; apply list_elem_of_In in Hv;
    apply in_map_iff in Hv as (r & <- & Hr);
    apply list_elem_of_singleton in Hv'.
  - exact (Hkey r Hr Hv').
  - exact (Hmsg r Hr Hv').
Qed.

Lemma existsb_false {A} (f : A → bool) l :
  existsb f l = false ↔ ∀ x, In x l → f x = false.
Proof.
  split.
  - intros H x Hx. apply not_true_is_false. intros Hfx.
    assert (Ht : existsb f l = true) by (apply existsb_exists; eauto).
    congruence.
  - intros H. apply not_true_is_false. rewrite existsb_exists.
    intros (x & Hx & Hfx). rewrite (H x Hx) in Hfx. discriminate.
Qed.

Lemma createInquiry_invariant db inquiry db1 created :
  storeInvariant db →
  DB.createInquiry db inquiry = Ok (db1, created) →
  storeInvariant db1.
Proof.
  intros Hinv. unfold DB.createInquiry.
  destruct (existsb _ _) eqn:Hmsg; [discriminate|].
  destruct (_ && _) eqn:Hkey; [discriminate|].
  simpl. intros [= <- _].
  rewrite existsb_false in Hmsg.
  apply storeInvariant_append; [exact Hinv| |].
  - intros r Hr.
    destruct (Nat.eqb_spec (Inquiry.ID inquiry) 0) as [Hz|Hnz]; simpl in *.
    + pose proof (nextKey_fresh Inquiry.ID _ r Hr). lia.
    + unfold hasKey in Hkey. rewrite existsb_false in Hkey.
      specialize (Hkey r Hr). apply Nat.eqb_neq in Hkey. exact Hkey.
  - intros r Hr Heq. specialize (Hmsg r Hr). simpl in Hmsg.
    destruct (Inquiry.ID inquiry =? 0)%nat; simpl in Heq;
      rewrite Heq, String.eqb_refl in Hmsg; discriminate.
Qed.

Lemma updateRow_keys rows row :
  List.map Inquiry.ID (updateRow Inquiry.ID rows row) = List.map Inquiry.ID rows.
Proof.
  unfold updateRow. induction rows as [|r rows IH]; simpl; [reflexivity|].
  rewrite IH. destruct (Nat.eqb_spec (Inquiry.ID r) (Inquiry.ID row)) as [->|_];
    reflexivity.
Qed.

Lemma updateRow_In rows row x :
  In x (updateRow Inquiry.ID rows row) → x = row ∨ In x rows.
Proof.
  unfold updateRow. rewrite in_map_iff. intros (r & Hx & Hr).
  destruct (Inquiry.ID r =? Inquiry.ID row)%nat; subst; auto.
Qed.

Lemma updateRow_messages rows row :
  NoDup (List.map Inquiry.ID rows) →
  NoDup (List.map Inquiry.MessageID rows) →
  (∀ r, In r rows → Inquiry.MessageID r = Inquiry.MessageID row →
        Inquiry.ID r = Inquiry.ID row) →
  NoDup (List.map Inquiry.MessageID (updateRow Inquiry.ID rows row)).
Proof.
  induction rows as [|r rows IH]; intros Hid Hm Hsame; simpl;
    [apply NoDup_nil_2|].
  simpl in Hid, Hm.
  apply NoDup_cons in Hid as [Hr Hid]. apply NoDup_cons in Hm as [Hrm Hm].
  rewrite list_elem_of_In in Hr. rewrite list_elem_of_In in Hrm.
  destruct (Nat.eqb_spec (Inquiry.ID r) (Inquiry.ID row)) as [Heq|Hne].
  - fold (updateRow Inquiry.ID rows row). rewrite updateRow_other.
    + apply NoDup_cons. split; [|exact Hm].
      rewrite list_elem_of_In, in_map_iff. intros (r' & Hmsg & Hr').
      apply Hr. rewrite Heq, <- (Hsame r' (or_intror Hr') Hmsg).
      apply in_map. exact Hr'.
    + intros r' Hr' Hkey. apply Hr. rewrite Heq, <- Hkey. apply in_map. exact Hr'.
  - fold (updateRow Inquiry.ID rows row). apply NoDup_cons. split.
    + rewrite list_elem_of_In, in_map_iff. intros (x & Hmsg & Hx).
      apply updateRow_In in Hx as [->|Hx].
      * apply Hne. apply Hsame; [left; reflexivity|congruence].
      * apply Hrm. rewrite <- Hmsg. apply in_map. exact Hx.
    + apply IH; [exact Hid|exact Hm|].
      intros r' Hr'. apply Hsame. right. exact Hr'.
Qed.

Lemma saveInquiry_invariant db inquiry :
  storeInvariant db → storeInvariant (DB.saveInquiry db inquiry).
Proof.
  intros Hinv. unfold DB.saveInquiry.
  destruct (existsb _ _) eqn:Hmsg; [exact Hinv|].
  rewrite existsb_false in Hmsg.
  assert (Hsame : ∀ r, In r (DB.inquiries db) →
            Inquiry.MessageID r = Inquiry.MessageID inquiry →
            Inquiry.ID r = Inquiry.ID inquiry).
  { intros r Hr Heq. specialize (Hmsg r Hr). simpl in Hmsg.
    rewrite Heq, String.eqb_refl in Hmsg. simpl in Hmsg.
    apply negb_false_iff, Nat.eqb_eq in Hmsg. exact Hmsg. }
  destruct (hasKey _ _ _) eqn:Hkey.
  - destruct Hinv as [Hid Hm]. split.
    + unfold uniqueInquiryID. simpl. rewrite updateRow_keys. exact Hid.
    + unfold uniqueMessageID. simpl. apply updateRow_messages; assumption.
  - unfold hasKey in Hkey. rewrite existsb_false in Hkey.
    apply storeInvariant_append; [exact Hinv| |].
    + intros r Hr. specialize (Hkey r Hr). apply Nat.eqb_neq in Hkey. exact Hkey.
    + intros r Hr Heq. specialize (Hkey r Hr). apply Nat.eqb_neq in Hkey.
      exact (Hkey (Hsame r Hr Heq)).
Qed.

Lemma sendResponse_invariant env db inquiry response :
  storeInvariant db → storeInvariant (sendResponse env db inquiry response).1.1.
Proof.
  intros Hinv. unfold sendResponse.
  destruct (Env.PostThreadReply _ _ _ _); simpl; [|exact Hinv].
  apply saveInquiry_invariant, Hinv.
Qed.

Lemma ProcessInquiry_invariant
    cfg env db messageID channelID userID messageText timestamp db' outcome :
  storeInvariant db →
  ProcessInquiry cfg env db messageID channelID userID messageText timestamp
  = Some (db', outcome) →
  storeInvariant db'.
Proof.
  intros Hinv. unfold ProcessInquiry.
  destruct (DB.createInquiry db _) as [[db1 created]|e] eqn:Hcreate.
  2: { intros [= <- _]. exact Hinv. }
  apply (createInquiry_invariant _ _ _ _ Hinv) in Hcreate.
  destruct (SearchAll _ _ _ _ _) as [[db2 searched]|] eqn:Hsearch; simpl;
    [|discriminate].
  apply SearchAll_inv in Hsearch as (Hrows & _ & rs & ->).
  assert (Hinv2 : storeInvariant db2).
  { apply (storeInvariant_frame _ _ Hrows), saveInquiry_invariant, Hcreate. }
  destruct (Env.GenerateResponse _ _ _) as [response|e].
  - pose proof (sendResponse_invariant env db2
                  (Inquiry.setStatus "processing" created) response Hinv2)
      as Hsend.
    destruct (sendResponse _ _ _ _) as [[db3 sent] [u|e]]; simpl in Hsend;
      intros [= <- _]; apply saveInquiry_invariant, Hsend.
  - pose proof (sendResponse_invariant env db2
                  (Inquiry.setStatus "processing" created)
                  (generateFallbackResponse rs) Hinv2) as Hsend.
    destruct (sendResponse _ _ _ _) as [[db3 sent] sentOutcome]; simpl in Hsend.
    intros [= <- _]. apply saveInquiry_invariant, Hsend.
Qed.

(** Whatever the event and the answers of the collaborators, the intake
    keeps the keys and the message identifiers of the inquiries unique:
    from the empty store on, no two inquiries are about the same
    message. *)
Lemma ProcessReactionEvent_invariant
    cfg env db messageID channelID userID reaction eventType timestamp
    db' outcome :
  storeInvariant db →
  ProcessReactionEvent cfg env db messageID channelID userID reaction
    eventType timestamp
  = Some (db', outcome) →
  storeInvariant db'.
Proof.
  intros Hinv. unfold ProcessReactionEvent.
  destruct (_ || _); [intros [= <- _]; exact Hinv|].
  rewrite createReactionEvent_new. cbv beta iota zeta.
  set (recorded := ReactionEvent.mk _ _ _ _ _ _ _ false None).
  set (db1 := DB.mk _ _ (_ ++ [recorded])).
  assert (Hinv1 : storeInvariant db1).
  { apply (storeInvariant_frame db); [reflexivity|exact Hinv]. }
  assert (Hsave : ∀ db2 e, storeInvariant db2 →
                           storeInvariant (DB.saveReactionEvent db2 e)).
  { intros db2 e. apply storeInvariant_frame.
    unfold DB.saveReactionEvent. destruct (hasKey _ _ _); reflexivity. }
  destruct (DB.firstInquiryByMessageID db1 messageID) as [existing|].
  { intros [= <- _]. apply Hsave, Hinv1. }
  destruct (Env.GetMessage env channelID messageID) as [slackMessage|e].
  2: { intros [= <- _]. exact Hinv1. }
  destruct (String.eqb (SlackMessage.Text slackMessage) "").
  { intros [= <- _]. exact Hinv1. }
  destruct (ProcessInquiry _ _ _ _ _ _ _ _) as [[db2 processed]|] eqn:Hrun;
    simpl; [|discriminate].
  apply (ProcessInquiry_invariant _ _ _ _ _ _ _ _ _ _ Hinv1) in Hrun.
  destruct processed as [u|e]; [|intros [= <- _]; exact Hrun].
  destruct (GetInquiryByMessageID db2 messageID) as [inquiry|e];
    intros [= <- _]; [apply Hsave, Hrun|exact Hrun].
Qed.

Lemma inquiriesFor_le_1 db messageID :
  uniqueMessageID db → inquiriesFor db messageID ≤ 1.
Proof.
  intros Huniq.
  destruct (DB.firstInquiryByMessageID db messageID) as [i|] eqn:Hfirst.
  - apply firstInquiry_Some in Hfirst as [Hi <-].
    rewrite (inquiriesFor_unique db i Huniq Hi). lia.
  - rewrite (inquiriesFor_None db messageID Hfirst). lia.
Qed.

(** Two events in a row, whatever they are and whatever the collaborators
    answer, never leave two inquiries about one message. *)
Lemma two_reactions_one_inquiry
    cfg env env' db messageID
    channelID userID reaction eventType timestamp db1 outcome1
    channelID' userID' reaction' eventType' timestamp' db2 outcome2 :
  storeInvariant db →
  ProcessReactionEvent cfg env db messageID channelID userID reaction
    eventType timestamp = Some (db1, outcome1) →
  ProcessReactionEvent cfg env' db1 messageID channelID' userID' reaction'
    eventType' timestamp' = Some (db2, outcome2) →
  inquiriesFor db2 messageID ≤ 1.
Proof.
  intros Hinv Hfirst Hsecond.
  apply (ProcessReactionEvent_invariant _ _ _ _ _ _ _ _ _ _ _ Hinv) in Hfirst.
  apply (ProcessReactionEvent_invariant _ _ _ _ _ _ _ _ _ _ _ Hfirst) in Hsecond.
  apply inquiriesFor_le_1, Hsecond.
Qed.

(** ** Scenarios of the specification *)

(** The query "How to deploy service" has the keywords "deploy" and
    "service"; the message "deploy the service to production" scores 1 and
    is kept with the threshold 0.7. *)
Example scenario_deploy_kept To_LowerCase :
  extractKeywords To_LowerCase "How to deploy service"
  = ["deploy"; "service"]%string
  ∧ (calculateRelevanceScore To_LowerCase "deploy the service to production"
       (strings.Join (extractKeywords To_LowerCase "How to deploy service") " ")
     == 1)%Q
  ∧ filterAndRankResults botConfig [foundResult] = Some [foundResult].
Proof. repeat split. Qed.

(** The generation is rate limited and the search found nothing: the
    fixed message is sent and recorded, and the inquiry has failed. *)
Example scenario_rate_limit_nothing_found :
  ProcessInquiry botConfig rateLimited DB.empty
    "1700000000.000100" "C024BE91L" "U2147483697" "How to deploy service"
    "1700000000.000100"
  = Some
      (DB.mk
         [ Inquiry.mk 1 "1700000000.000100" "C024BE91L" "U2147483697"
             "How to deploy service" "1700000000.000100" "failed" None false
             noInformation "1700000004.000300" ]
         [] [],
       Err "AI response generation failed: LiteLLM API rate limit exceeded").
Proof. vm_compute. reflexivity. Qed.

(** Two "added" reactions on one message, one after the other: the first
    runs the pipeline, the second finds the inquiry and is linked to it. *)
Example scenario_two_reactions :
  ∃ db1 db2,
    ProcessReactionEvent botConfig rateLimited DB.empty
      "1700000000.000100" "C024BE91L" "U9" "eyes" "added" "1700000100.000000"
    = Some (db1, Err "AI response generation failed: LiteLLM API rate limit exceeded")
    ∧ ProcessReactionEvent botConfig rateLimited db1
        "1700000000.000100" "C024BE91L" "U8" "eyes" "added" "1700000200.000000"
      = Some (db2, Ok tt)
    ∧ inquiriesFor db2 "1700000000.000100" = 1
    ∧ DB.reaction_events db2
      = [ ReactionEvent.mk 1 "1700000000.000100" "C024BE91L" "U9" "eyes"
            "added" "1700000100.000000" false None;
          ReactionEvent.mk 2 "1700000000.000100" "C024BE91L" "U8" "eyes"
            "added" "1700000200.000000" true (Some 1) ].
Proof.
  eexists _, _. split; [vm_compute; reflexivity|].
  split; [vm_compute; reflexivity|]. split; vm_compute; reflexivity.
Qed.

(** ** Further properties of the program *)

(** *** More on byte strings *)

Lemma hasByte_cons c d s : hasByte c (String d s) ↔ c = d ∨ hasByte c s.
Proof. unfold hasByte. simpl. intuition congruence. Qed.

Lemma hasByte_nil c : ¬ hasByte c EmptyString.
Proof. unfold hasByte. simpl. tauto. Qed.

Lemma toLowerBytes_append a b :
  strings.toLowerBytes (a +:+ b)
  = strings.toLowerBytes a +:+ strings.toLowerBytes b.
Proof. induction a as [|c a IH]; simpl; [reflexivity | now rewrite IH]. Qed.

Lemma toLowerBytes_lower c s :
  hasByte c (strings.toLowerBytes s) → strings.toLowerByte c = c.
Proof.
  induction s as [|d s IH]; simpl; intros H.
  - now apply hasByte_nil in H.
  - apply hasByte_cons in H as [-> | H]; [apply toLowerByte_idem | auto].
Qed.

Lemma splitSpace_cons s : ∃ w ws, strings.splitSpace s = w :: ws.
Proof. destruct (splitSpace_spec s) as (w & ws & H & _). eauto. Qed.

Lemma splitSpace_append a sp b :
  strings.isSpace sp = true →
  strings.splitSpace (a +:+ String sp b)
  = strings.splitSpace a ++ strings.splitSpace b.
Proof.
  intros Hsp. induction a as [|c a IH]; simpl.
  - now rewrite Hsp.
  - rewrite IH. destruct (strings.isSpace c); [reflexivity|].
    destruct (splitSpace_cons a) as (w & ws & ->). reflexivity.
Qed.

Lemma isASCII_append a b :
  strings.isASCII (a +:+ b) = strings.isASCII a && strings.isASCII b.
Proof.
  induction a as [|c a IH]; [reflexivity|].
  cbn [String.append]. rewrite !isASCII_cons, IH. apply andb_assoc.
Qed.

Lemma isASCII_substr sub s :
  isSubstr sub s → strings.isASCII s = true → strings.isASCII sub = true.
Proof.
  intros (pre & post & ->). rewrite !isASCII_append.
  intros H. apply andb_prop in H as [_ H]. now apply andb_prop in H as [H _].
Qed.

(** The bytes of [asciiSpace] are ASCII, and spaces of [unicode.IsSpace]. *)
Lemma isSpace_ASCII c :
  strings.isSpace c = true →
  (byteOf c <? utf8.RuneSelf)%Z = true ∧ unicode.IsSpace (byteOf c) = true.
Proof. destruct c as [[] [] [] [] [] [] [] []]; (discriminate || (split; reflexivity)). Qed.

(** An ASCII byte that [unicode.IsSpace] holds for a space is one of
    [asciiSpace]. *)
Lemma IsSpace_ASCII c :
  (byteOf c <? utf8.RuneSelf)%Z = true →
  unicode.IsSpace (byteOf c) = strings.isSpace c.
Proof. destruct c as [[] [] [] [] [] [] [] []]; (discriminate || reflexivity). Qed.

(** On ASCII text, a white-space byte separates the fields. *)
Lemma Fields_append a sp b :
  strings.isASCII a = true → strings.isASCII b = true →
  strings.isSpace sp = true →
  strings.Fields (a +:+ String sp b) = strings.Fields a ++ strings.Fields b.
Proof.
  intros Ha Hb Hsp. destruct (isSpace_ASCII sp Hsp) as [Hbyte _].
  rewrite !Fields_ASCII; try assumption.
  - now rewrite splitSpace_append, List.filter_app.
  - now rewrite isASCII_append, isASCII_cons, Ha, Hb, Hbyte.
Qed.

Lemma toLowerByte_space c :
  strings.isSpace (strings.toLowerByte c) = strings.isSpace c.
Proof.
  unfold strings.toLowerByte, strings.isSpace.
  destruct ((65 <=? nat_of_ascii c)%nat && (nat_of_ascii c <=? 90)%nat) eqn:E;
    [|reflexivity].
  apply andb_prop in E as [E1 E2].
  apply Nat.leb_le in E1, E2.
  rewrite nat_ascii_embedding by lia.
  transitivity false; [|symmetry];
    apply orb_false_intro;
    try (apply andb_false_intro2; apply Nat.leb_gt; lia);
    apply Nat.eqb_neq; lia.
Qed.

(** No word of [splitSpace] holds a white-space byte. *)
Lemma splitSpace_no_space s :
  Forall (λ w, ∀ c, hasByte c w → strings.isSpace c = false) (strings.splitSpace s).
Proof.
  induction s as [|d s IH]; simpl.
  - constructor; [|constructor]. intros c H. now apply hasByte_nil in H.
  - destruct (strings.isSpace d) eqn:E.
    + constructor; [|exact IH]. intros c H. now apply hasByte_nil in H.
    + destruct (strings.splitSpace s) as [|w ws].
      * constructor; [|constructor]. intros c H.
        apply hasByte_cons in H as [-> | H]; [exact E | now apply hasByte_nil in H].
      * inversion IH as [|? ? Hw Hws]; subst. constructor; [|exact Hws].
        intros c H. apply hasByte_cons in H as [-> | H]; [exact E | auto].
Qed.

Lemma leading_spec s0 sz lo hi :
  utf8.leading s0 = Some (sz, lo, hi) →
  (sz = 2 ∨ sz = 3 ∨ sz = 4) ∧ (0x80 <= lo)%Z.
Proof.
  unfold utf8.leading.
  repeat match goal with
         | |- context [if ?b then _ else _] => destruct b
         end; intros [= <- <- <-] || discriminate; (split; [tauto | lia]).
Qed.

Lemma continuation_not_ASCII b :
  utf8.continuation b = true → (b <? utf8.RuneSelf)%Z = false.
Proof.
  unfold utf8.continuation, utf8.RuneSelf. intros H%andb_prop.
  destruct H as [H _]. apply Z.leb_le in H. apply Z.ltb_ge. exact H.
Qed.

(** The bytes that a rune spans after its first are no ASCII bytes. *)
Lemma DecodeRuneInString_width c s rune width :
  utf8.DecodeRuneInString (String c s) = (rune, width) →
  contBytes (width - 1) s
  ∧ ((byteOf c <? utf8.RuneSelf)%Z = true → rune = byteOf c).
Proof.
  cbn [utf8.DecodeRuneInString].
  destruct (byteOf c <? utf8.RuneSelf)%Z eqn:Hc.
  { intros [= <- <-]. split; [exact I | reflexivity]. }
  intros H. split; [|discriminate]. revert H.
  destruct (utf8.leading (byteOf c)) as [[[sz lo] hi]|] eqn:Hlead;
    [|intros [= _ <-]; exact I].
  apply leading_spec in Hlead as [Hsz Hlo].
  destruct s as [|c1 s1]; [intros [= _ <-]; exact I|].
  destruct ((byteOf c1 <? lo)%Z || (hi <? byteOf c1)%Z) eqn:H1;
    [intros [= _ <-]; exact I|].
  apply orb_false_elim in H1 as [H1 _]. apply Z.ltb_ge in H1.
  assert (Hc1 : (byteOf c1 <? utf8.RuneSelf)%Z = false).
  { apply Z.ltb_ge. unfold utf8.RuneSelf. lia. }
  destruct Hsz as [-> | [-> | ->]].
  - intros [= _ <-]. split; [exact Hc1 | exact I].
  - destruct s1 as [|c2 s2]; [intros [= _ <-]; exact I|].
    destruct (utf8.continuation (byteOf c2)) eqn:H2;
      [|intros [= _ <-]; exact I].
    apply continuation_not_ASCII in H2.
    intros [= _ <-]. repeat split; assumption.
  - destruct s1 as [|c2 s2]; [intros [= _ <-]; exact I|].
    destruct (utf8.continuation (byteOf c2)) eqn:H2;
      [|intros [= _ <-]; exact I].
    apply continuation_not_ASCII in H2.
    destruct s2 as [|c3 s3]; [intros [= _ <-]; exact I|].
    destruct (utf8.continuation (byteOf c3)) eqn:H3;
      [|intros [= _ <-]; exact I].
    apply continuation_not_ASCII in H3.
    intros [= _ <-]. repeat split; assumption.
Qed.

(** No word of [splitRunes], split at the spaces of [unicode.IsSpace],
    holds a byte of [asciiSpace]. *)
Lemma splitRunes_no_space s : ∀ skip inSpace,
  contBytes skip s →
  Forall (λ w, ∀ c, hasByte c w → strings.isSpace c = false)
    (strings.splitRunes unicode.IsSpace skip inSpace s).
Proof.
  induction s as [|d s IH]; intros skip inSpace Hskip.
  - destruct skip; constructor; try constructor;
      intros c H; now apply hasByte_nil in H.
  - assert (Hpush : ∀ k,
      contBytes k s → strings.isSpace d = false →
      Forall (λ w, ∀ c, hasByte c w → strings.isSpace c = false)
        match strings.splitRunes unicode.IsSpace k false s with
        | w :: ws => String d w :: ws
        | [] => [String d EmptyString]
        end).
    { intros k Hk Hd. specialize (IH k false Hk).
      destruct (strings.splitRunes unicode.IsSpace k false s) as [|w ws].
      - constructor; [|constructor]. intros c H.
        apply hasByte_cons in H as [-> | H]; [exact Hd | now apply hasByte_nil in H].
      - inversion IH as [|? ? Hw Hws]; subst. constructor; [|exact Hws].
        intros c H. apply hasByte_cons in H as [-> | H]; [exact Hd | auto]. }
    destruct skip as [|k]; cbn [strings.splitRunes].
    + destruct (utf8.DecodeRuneInString (String d s)) as [rune width] eqn:Hdec.
      apply DecodeRuneInString_width in Hdec as [Hcont Hrune].
      destruct (unicode.IsSpace rune) eqn:Hsp.
      * constructor; [|apply IH, Hcont]. intros c H. now apply hasByte_nil in H.
      * apply Hpush; [exact Hcont|].
        destruct (strings.isSpace d) eqn:Hd; [|reflexivity].
        destruct (isSpace_ASCII d Hd) as [Hbyte Hspace].
        rewrite (Hrune Hbyte), Hspace in Hsp. discriminate.
    + cbn [contBytes] in Hskip. destruct Hskip as [Hd Hk].
      destruct inSpace; [apply IH, Hk|].
      apply Hpush; [exact Hk|].
      destruct (strings.isSpace d) eqn:Hsp; [|reflexivity].
      destruct (isSpace_ASCII d Hsp) as [Hbyte _]. congruence.
Qed.

(** No field holds a byte of [asciiSpace]. *)
Lemma Fields_no_space s w c :
  In w (strings.Fields s) → hasByte c w → strings.isSpace c = false.
Proof.
  unfold strings.Fields, strings.FieldsFunc.
  destruct (strings.isASCII s); intros Hw%List.filter_In Hc;
    destruct Hw as [Hw _].
  - pose proof (splitSpace_no_space s) as HF.
    rewrite List.Forall_forall in HF. eapply HF; eauto.
  - pose proof (splitRunes_no_space s 0 false I) as HF.
    rewrite List.Forall_forall in HF. eapply HF; eauto.
Qed.

Lemma Fields_nonEmpty s w : In w (strings.Fields s) → w ≠ EmptyString.
Proof.
  unfold strings.Fields, strings.FieldsFunc.
  destruct (strings.isASCII s); intros Hw%List.filter_In;
    destruct Hw as [_ Hw]; now destruct w.
Qed.

(** What [TrimLeft] leaves does not start with a byte of the cutset. *)
Lemma TrimLeft_head s cutset c rest :
  strings.TrimLeft s cutset = String c rest → strings.byte_in c cutset = false.
Proof.
  induction s as [|d s IH]; simpl; [discriminate|].
  destruct (strings.byte_in d cutset) eqn:E; [exact IH|].
  intros [= -> ->]. exact E.
Qed.

(** [TrimRight] keeps the first byte of what it does not empty. *)
Lemma TrimRight_head s cutset c rest :
  strings.TrimRight s cutset = String c rest → ∃ rest', s = String c rest'.
Proof.
  destruct s as [|d s]; simpl; [discriminate|].
  destruct (strings.TrimRight s cutset);
    [destruct (strings.byte_in d cutset); [discriminate|] |];
    intros [= -> _]; eauto.
Qed.

(** What [TrimRight] leaves does not end with a byte of the cutset. *)
Lemma TrimRight_last s cutset : ∀ pre c,
  strings.TrimRight s cutset = pre +:+ String c EmptyString →
  strings.byte_in c cutset = false.
Proof.
  induction s as [|d s IH]; simpl; intros pre c.
  - destruct pre; discriminate.
  - destruct (strings.TrimRight s cutset) as [|e r] eqn:E.
    + destruct (strings.byte_in d cutset) eqn:Ed; [destruct pre; discriminate|].
      destruct pre as [|p pre]; simpl.
      * intros [= ->]. exact Ed.
      * intros [= _ H]. destruct pre; discriminate.
    + destruct pre as [|p pre]; simpl; [discriminate|].
      intros [= _ H]. eapply IH. exact H.
Qed.

Lemma Trim_head s cutset c rest :
  strings.Trim s cutset = String c rest → strings.byte_in c cutset = false.
Proof.
  unfold strings.Trim. intros H.
  apply TrimRight_head in H as [rest' H].
  eapply TrimLeft_head. exact H.
Qed.

(** X1. Every keyword that [extractKeywords] returns has more than two
    bytes, is no stop word, occurs in the query put in lower case, holds
    no byte of ASCII white space, and neither starts nor ends with one
    of the punctuation bytes that are trimmed; a keyword of an ASCII
    query holds no upper-case letter. *)
Theorem extractKeywords_shape To_LowerCase query keyword :
  In keyword (extractKeywords To_LowerCase query) →
  2 < String.length keyword
  ∧ stopWords keyword = false
  ∧ isSubstr keyword (strings.ToLower To_LowerCase query)
  ∧ (∀ c, hasByte c keyword → strings.isSpace c = false)
  ∧ (∀ c rest, keyword = String c rest → strings.byte_in c ".,!?;:" = false)
  ∧ (∀ pre c, keyword = pre +:+ String c EmptyString →
              strings.byte_in c ".,!?;:" = false)
  ∧ (strings.isASCII query = true →
     ∀ c, hasByte c keyword → strings.toLowerByte c = c).
Proof.
  rewrite extractKeywords_spec. intros H%List.filter_In.
  destruct H as [Hin Hkw].
  apply List.in_map_iff in Hin as (word & <- & Hword).
  unfold isKeyword in Hkw. apply andb_prop in Hkw as [Hlen Hstop].
  apply Nat.ltb_lt in Hlen. apply negb_true_iff in Hstop.
  assert (Hsub : isSubstr (cleanWord word)
                   (strings.ToLower To_LowerCase query)).
  { eapply isSubstr_trans; [apply Trim_substr | now apply Fields_substr]. }
  split; [exact Hlen|]. split; [exact Hstop|]. split; [exact Hsub|].
  split; [|split; [|split]].
  - intros c Hc.
    assert (Hw : hasByte c word).
    { eapply hasByte_substr; [apply Trim_substr | exact Hc]. }
    eapply Fields_no_space; eauto.
  - intros c rest E. eapply Trim_head. exact E.
  - intros pre c E. eapply TrimRight_last. exact E.
  - intros Hq c Hc. apply (toLowerBytes_lower c query).
    rewrite <- (ToLower_ASCII To_LowerCase query Hq).
    eapply hasByte_substr; [exact Hsub | exact Hc].
Qed.

Lemma extractKeywords_shape_witness :
  In "service"%string (extractKeywords latin1Lower "Deploy Service, please!")
  ∧ 2 < String.length "service"
  ∧ stopWords "service" = false
  ∧ isSubstr "service"
      (strings.ToLower latin1Lower "Deploy Service, please!").
Proof.
  assert (H : In "service"%string
                (extractKeywords latin1Lower "Deploy Service, please!")).
  { vm_compute. tauto. }
  split; [exact H|].
  destruct (extractKeywords_shape latin1Lower "Deploy Service, please!"
              "service" H)
    as (H1 & H2 & H3 & _).
  exact (conj H1 (conj H2 H3)).
Defined.

(** X2. For ASCII texts, the keywords of two texts joined by a
    white-space byte are the keywords of the first followed by those of
    the second: the order of the words is kept and a word that occurs
    twice is kept twice. *)
Theorem extractKeywords_append To_LowerCase a sp b :
  strings.isASCII a = true → strings.isASCII b = true →
  strings.isSpace sp = true →
  extractKeywords To_LowerCase (a +:+ String sp b)
  = extractKeywords To_LowerCase a ++ extractKeywords To_LowerCase b.
Proof.
  intros Ha Hb Hsp. rewrite !extractKeywords_spec.
  assert (Hab : strings.isASCII (a +:+ String sp b) = true).
  { rewrite isASCII_append, isASCII_cons, Ha, Hb.
    now destruct (isSpace_ASCII sp Hsp) as [-> _]. }
  rewrite !ToLower_ASCII by assumption.
  rewrite toLowerBytes_append. cbn [strings.toLowerBytes].
  rewrite Fields_append;
    [|now rewrite isASCII_toLowerBytes..|now rewrite toLowerByte_space].
  now rewrite List.map_app, List.filter_app.
Qed.

Lemma extractKeywords_append_witness :
  extractKeywords latin1Lower
    ("How to deploy" +:+ String " " "the deploy service")
  = extractKeywords latin1Lower "How to deploy"
    ++ extractKeywords latin1Lower "the deploy service".
Proof.
  apply (extractKeywords_append latin1Lower
           "How to deploy" " " "the deploy service");
    reflexivity.
Defined.

Lemma isSubstr_toLowerBytes sub s :
  isSubstr sub s →
  isSubstr (strings.toLowerBytes sub) (strings.toLowerBytes s).
Proof.
  intros (pre & post & ->).
  exists (strings.toLowerBytes pre), (strings.toLowerBytes post).
  now rewrite !toLowerBytes_append.
Qed.

Lemma filter_length_le {A} (f g : A → bool) l :
  (∀ x, f x = true → g x = true) →
  length (List.filter f l) ≤ length (List.filter g l).
Proof.
  intros Hfg. induction l as [|x l IH]; simpl; [lia|].
  destruct (f x) eqn:E.
  - rewrite (Hfg x E). simpl. lia.
  - destruct (g x); simpl; lia.
Qed.

(** X3. The score does not go down when an ASCII content grows: an
    ASCII content that holds another one as a substring scores at least
    as much for every query. *)
Theorem calculateRelevanceScore_monotone To_LowerCase content content' query :
  strings.isASCII content' = true →
  isSubstr content content' →
  (calculateRelevanceScore To_LowerCase content query
   <= calculateRelevanceScore To_LowerCase content' query)%Q.
Proof.
  intros Hascii Hsub. rewrite !calculateRelevanceScore_spec.
  destruct (0 <? length (queryKeywords To_LowerCase query))%nat eqn:E;
    [|apply Qle_refl].
  apply Nat.ltb_lt in E.
  assert (Hle : length (keywordsFound To_LowerCase content query)
                ≤ length (keywordsFound To_LowerCase content' query)).
  { apply filter_length_le. intros k Hk.
    apply Contains_true. apply Contains_true in Hk.
    rewrite ToLower_ASCII in Hk by (eapply isASCII_substr; eauto).
    rewrite ToLower_ASCII by exact Hascii.
    eapply isSubstr_trans; [exact Hk | now apply isSubstr_toLowerBytes]. }
  unfold Qdiv. apply Qmult_le_compat_r.
  - rewrite <- Zle_Qle. lia.
  - apply Qinv_le_0_compat. rewrite <- (Zle_Qle 0). lia.
Qed.

Lemma calculateRelevanceScore_monotone_witness :
  (calculateRelevanceScore latin1Lower "deploy" "deploy service"
   <= calculateRelevanceScore latin1Lower "how to deploy the service"
        "deploy service")%Q.
Proof.
  apply (calculateRelevanceScore_monotone latin1Lower
           "deploy" "how to deploy the service");
    [reflexivity |].
  exists "how to "%string, " the service"%string. reflexivity.
Defined.

(** Joined fields hold no white space but the single spaces between them. *)
Lemma Join_Fields_space s c :
  hasByte c (strings.Join (strings.Fields s) " ") →
  strings.isSpace c = true → c = " "%char.
Proof.
  intros H Hsp. apply hasByte_Join in H as [H | (w & Hw & H)].
  - apply hasByte_cons in H as [-> | H]; [reflexivity | now apply hasByte_nil in H].
  - rewrite (Fields_no_space _ _ _ Hw H) in Hsp. discriminate.
Qed.

(** X11. The output of [sanitizeCQLQuery] has at most 100 bytes, holds
    none of the grouping, quoting, escape and wildcard bytes, and its
    only white space is the single space: no tab or newline is left. *)
Theorem sanitizeCQLQuery_safe query :
  String.length (sanitizeCQLQuery query) ≤ 100
  ∧ ∀ c, hasByte c (sanitizeCQLQuery query) →
         ¬ hasByte c dangerousBytes
         ∧ (strings.isSpace c = true → c = " "%char).
Proof.
  split; [apply sanitizeCQLQuery_length|].
  intros c Hc. split.
  - intros Hd. exact (sanitizeCQLQuery_no_dangerous_byte query c Hd Hc).
  - unfold sanitizeCQLQuery in Hc.
    destruct (100 <? _)%nat.
    + apply hasByte_slice_to in Hc. eapply Join_Fields_space. exact Hc.
    + eapply Join_Fields_space. exact Hc.
Qed.

(** X12. When the documentation platform is configured, the CQL
    expression that [SearchPages] sends is the space key, [AND text ~]
    and a quoted text of at most 100 bytes that holds neither a double
    quote nor a backslash: the text of the user cannot close the
    quotes. *)
Theorem SearchPages_quoted cfg env query :
  Config.ConfluenceBaseURL cfg ≠ EmptyString →
  Config.ConfluenceAPIToken cfg ≠ EmptyString →
  ∃ text,
    SearchPages cfg env query
    = Env.searchContent env
        ("space=" +:+ Config.ConfluenceSpaceKey cfg +:+ " AND text ~ "
         +:+ dquote +:+ text +:+ dquote)
    ∧ String.length text ≤ 100
    ∧ ¬ hasByte (ascii_of_nat 34) text
    ∧ ¬ hasByte "\"%char text.
Proof.
  intros Hurl Htoken. exists (sanitizeCQLQuery query).
  unfold SearchPages.
  apply String.eqb_neq in Hurl, Htoken. rewrite Hurl, Htoken. simpl orb. cbv iota.
  split; [reflexivity|]. split; [apply sanitizeCQLQuery_length|].
  split; apply sanitizeCQLQuery_no_dangerous_byte;
    unfold hasByte; vm_compute; tauto.
Qed.

Lemma SearchPages_quoted_witness :
  ∃ text,
    SearchPages docsConfig rateLimited
      ("deploy" +:+ dquote +:+ " OR space=HR OR text ~ " +:+ dquote +:+ "x")
    = Env.searchContent rateLimited
        ("space=DOCS AND text ~ " +:+ dquote +:+ text +:+ dquote)
    ∧ String.length text ≤ 100
    ∧ ¬ hasByte (ascii_of_nat 34) text
    ∧ ¬ hasByte "\"%char text.
Proof.
  apply (SearchPages_quoted docsConfig rateLimited); discriminate.
Defined.

Lemma replaceEach_replacements text :
  ∃ replaced, replaceEach replacements text = Some replaced.
Proof. eexists. reflexivity. Qed.

(** X13. [extractContentText] always returns; its output has at most
    503 bytes (500 and the ellipsis) and its only white space is the
    single space, so that the newlines put in for the line breaks never
    show in the output. *)
Theorem extractContentText_clean content :
  ∃ text,
    extractContentText content = Some text
    ∧ String.length text ≤ 503
    ∧ ∀ c, hasByte c text → strings.isSpace c = true → c = " "%char.
Proof.
  unfold extractContentText.
  destruct (replaceEach_replacements
              (strings.ReplaceAll (strings.ReplaceAll content "<" " <") ">" "> "))
    as [replaced ->].
  cbn [mbind option_bind].
  set (joined := strings.Join _ " ").
  destruct (Nat.ltb_spec 500 (String.length joined)) as [Hlt | Hge].
  - eexists. split; [reflexivity|]. split.
    + rewrite length_append. pose proof (slice_to_length 500 joined) as Hs.
      change (String.length "...") with 3. lia.
    + intros c Hc Hsp. apply hasByte_append in Hc as [Hc | Hc].
      * apply hasByte_slice_to in Hc. eapply Join_Fields_space; eauto.
      * exfalso. unfold hasByte in Hc. simpl in Hc.
        destruct Hc as [<- | [<- | [<- | []]]]; discriminate.
  - eexists. split; [reflexivity|]. split; [lia|].
    intros c Hc Hsp. eapply Join_Fields_space; eauto.
Qed.

(** A string that does not hold the byte is left as it is. *)
Lemma replaceFrom_absent c new s :
  ¬ hasByte c s → strings.replaceFrom (String c EmptyString) new 0 s = s.
Proof.
  induction s as [|x s IH]; simpl; [reflexivity|]. intros H.
  unfold strings.HasPrefix. simpl.
  destruct (ascii_dec c x) as [-> | Hne].
  - exfalso. apply H. apply hasByte_cons. now left.
  - rewrite IH; [reflexivity|]. intros Hs. apply H. apply hasByte_cons. now right.
Qed.

Lemma replaceFrom_byte_append c new a b :
  strings.replaceFrom (String c EmptyString) new 0 (a +:+ b)
  = strings.replaceFrom (String c EmptyString) new 0 a
    +:+ strings.replaceFrom (String c EmptyString) new 0 b.
Proof.
  induction a as [|x a IH]; simpl; [reflexivity|].
  unfold strings.HasPrefix. simpl.
  destruct (ascii_dec c x) as [-> | Hne].
  - replace (if String.prefix "" (a +:+ b) then _ else _)
      with (new +:+ strings.replaceFrom (String x "") new 0 (a +:+ b))
      by (now destruct (a +:+ b)).
    replace (if String.prefix "" a then _ else _)
      with (new +:+ strings.replaceFrom (String x "") new 0 a)
      by (now destruct a).
    now rewrite IH, append_assoc.
  - now rewrite IH.
Qed.

(** X10. For a timestamp made of seconds, a dot and microseconds, the
    URL of a Slack message is the archive prefix, the channel, [/p] and
    the seconds directly followed by the microseconds. *)
Theorem buildSlackMessageURL_permalink channelID seconds micros :
  ¬ hasByte "."%char seconds → ¬ hasByte "."%char micros →
  buildSlackMessageURL channelID (seconds +:+ "." +:+ micros)
  = "https://slack.com/archives/" +:+ channelID +:+ "/p" +:+ seconds +:+ micros.
Proof.
  intros Hs Hm. unfold buildSlackMessageURL, strings.ReplaceAll.
  rewrite !replaceFrom_byte_append.
  rewrite (replaceFrom_absent _ _ seconds Hs), (replaceFrom_absent _ _ micros Hm).
  reflexivity.
Qed.

Lemma buildSlackMessageURL_permalink_witness :
  buildSlackMessageURL "C024BE91L" "1690000000.000001"
  = "https://slack.com/archives/C024BE91L/p1690000000000001"%string.
Proof.
  apply (buildSlackMessageURL_permalink "C024BE91L" "1690000000" "000001");
    unfold hasByte; vm_compute; intuition discriminate.
Defined.

(** *** What the cut of the ranking drops *)

Lemma exchangeSort_sortedDesc l : sortedDesc (exchangeSort (length l - 1) l).
Proof. apply StronglySorted_sortedDesc, exchangeSort_sorted. lia. Qed.

(** X4. When the limit is not negative, the ranking returns the
    results that pass the threshold minus the ones that the limit cuts:
    their number is the least of the limit and of the number of
    survivors, and no result that is cut has a greater score than a
    result that is kept. *)
Theorem filterAndRankResults_cut cfg results :
  (0 <= Config.MaxSearchResults cfg)%Z →
  ∃ out dropped,
    filterAndRankResults cfg results = Some out
    ∧ out ++ dropped ≡ₚ survivors cfg results
    ∧ length out
      = Nat.min (Z.to_nat (Config.MaxSearchResults cfg))
          (length (survivors cfg results))
    ∧ ∀ a b, a ∈ out → b ∈ dropped → score_desc a b.
Proof.
  intros Hmax. rewrite filterAndRankResults_spec. cbv zeta.
  set (l := survivors cfg results).
  set (n := Z.to_nat (Config.MaxSearchResults cfg)).
  destruct (Z.ltb_spec (Config.MaxSearchResults cfg) 0) as [|_]; [lia|].
  exists (take n (exchangeSort (length l - 1) l)),
         (drop n (exchangeSort (length l - 1) l)).
  split; [reflexivity|]. split; [|split].
  - rewrite take_drop. apply exchangeSort_perm.
  - rewrite length_take, (Permutation_length (exchangeSort_perm _ l)). reflexivity.
  - intros a b Ha Hb.
    apply list_elem_of_lookup in Ha as [i Hi], Hb as [j Hj].
    apply lookup_take_Some in Hi as [Hi Hlt].
    rewrite lookup_drop in Hj.
    eapply (exchangeSort_sortedDesc l i (n + j)); [lia | exact Hi | exact Hj].
Qed.

Lemma filterAndRankResults_cut_witness :
  ∃ out dropped,
    filterAndRankResults testConfig testResults = Some out
    ∧ out ++ dropped ≡ₚ survivors testConfig testResults
    ∧ length out = 3
    ∧ ∀ a b, a ∈ out → b ∈ dropped → score_desc a b.
Proof.
  apply (filterAndRankResults_cut testConfig testResults). vm_compute. discriminate.
Defined.

(** X5. The ranking panics exactly when the limit is negative: the
    loops of the sort never index out of range, and a negative limit
    makes the slice expression panic whatever the results are, the empty
    list included. *)
Theorem filterAndRankResults_panics_iff cfg results :
  filterAndRankResults cfg results = None ↔ (Config.MaxSearchResults cfg < 0)%Z.
Proof.
  rewrite filterAndRankResults_spec. cbv zeta.
  destruct (Z.ltb_spec (Config.MaxSearchResults cfg) 0); split;
    (reflexivity || discriminate || lia || tauto).
Qed.

(** *** The rows that a search stores *)

Lemma setID_setID k r :
  SearchResult.ID r = 0 → SearchResult.setID 0 (SearchResult.setID k r) = r.
Proof. destruct r. simpl. now intros ->. Qed.

Lemma saveResults_rows results : ∀ db,
  Forall (λ r, SearchResult.ID r = 0) results →
  ∃ rows,
    saveResults db results
    = DB.mk (DB.inquiries db) (DB.search_results db ++ rows) (DB.reaction_events db)
    ∧ List.map (SearchResult.setID 0) rows = results
    ∧ Forall (λ row, SearchResult.ID row ≠ 0) rows.
Proof.
  unfold saveResults. induction results as [|r rs IH]; intros db Hzero; simpl.
  - exists []. rewrite app_nil_r. destruct db. repeat split. constructor.
  - inversion Hzero as [|? ? Hr Hrs]; subst.
    destruct (IH (DB.createSearchResult db r) Hrs) as (rows & -> & Hmap & Hkeys).
    unfold DB.createSearchResult, insertRow. simpl. rewrite Hr. simpl.
    exists (SearchResult.setID (nextKey SearchResult.ID (DB.search_results db)) r
            :: rows).
    split; [now rewrite <- app_assoc|]. split.
    + simpl. now rewrite setID_setID, Hmap.
    + constructor; [|exact Hkeys]. destruct r. simpl. unfold nextKey. lia.
Qed.

Lemma searchSlack_reported cfg env db query inquiryID :
  Forall (reported "slack" inquiryID)
    (orNothing (searchSlack cfg env db query inquiryID).2).
Proof.
  unfold searchSlack. destruct (Env.SearchMessages _ _ _) as [messages|]; simpl.
  - apply List.Forall_forall. intros r (msg & <- & _)%List.in_map_iff.
    repeat split.
  - constructor.
Qed.

Lemma searchConfluence_reported cfg env db query inquiryID :
  Forall (reported "confluence" inquiryID)
    (orNothing (searchConfluence cfg env db query inquiryID).2).
Proof.
  unfold searchConfluence. destruct (SearchPages _ _ _) as [pages|]; simpl.
  - apply List.Forall_forall. intros r (page & <- & _)%List.in_map_iff.
    repeat split.
  - constructor.
Qed.

Lemma reported_ID source inquiryID results :
  Forall (reported source inquiryID) results →
  Forall (λ r, SearchResult.ID r = 0) results.
Proof. intros H. eapply Forall_impl; [exact H|]. now intros r [? _]. Qed.

Lemma searchSlack_rows cfg env db query inquiryID :
  ∃ rows,
    (searchSlack cfg env db query inquiryID).1
    = DB.mk (DB.inquiries db) (DB.search_results db ++ rows) (DB.reaction_events db)
    ∧ List.map (SearchResult.setID 0) rows
      = orNothing (searchSlack cfg env db query inquiryID).2
    ∧ Forall (λ row, SearchResult.ID row ≠ 0) rows.
Proof.
  pose proof (searchSlack_reported cfg env db query inquiryID) as Hrep.
  apply reported_ID in Hrep. revert Hrep.
  unfold searchSlack. destruct (Env.SearchMessages _ _ _) as [messages|]; simpl.
  - apply saveResults_rows.
  - intros _. exists []. rewrite app_nil_r. destruct db. repeat split. constructor.
Qed.

Lemma searchConfluence_rows cfg env db query inquiryID :
  ∃ rows,
    (searchConfluence cfg env db query inquiryID).1
    = DB.mk (DB.inquiries db) (DB.search_results db ++ rows) (DB.reaction_events db)
    ∧ List.map (SearchResult.setID 0) rows
      = orNothing (searchConfluence cfg env db query inquiryID).2
    ∧ Forall (λ row, SearchResult.ID row ≠ 0) rows.
Proof.
  pose proof (searchConfluence_reported cfg env db query inquiryID) as Hrep.
  apply reported_ID in Hrep. revert Hrep.
  unfold searchConfluence. destruct (SearchPages _ _ _) as [pages|]; simpl.
  - apply saveResults_rows.
  - intros _. exists []. rewrite app_nil_r. destruct db. repeat split. constructor.
Qed.

(** What a source reports does not depend on the store. *)
Lemma searchConfluence_results cfg env db db' query inquiryID :
  (searchConfluence cfg env db query inquiryID).2
  = (searchConfluence cfg env db' query inquiryID).2.
Proof. unfold searchConfluence. now destruct (SearchPages _ _ _). Qed.

Lemma SearchAll_spec cfg env db query inquiryID :
  SearchAll cfg env db query inquiryID
  = let searchQuery := strings.Join (extractKeywords (Env.To_LowerCase env) query) " " in
    let slack := searchSlack cfg env db searchQuery inquiryID in
    let confluence := searchConfluence cfg env slack.1 searchQuery inquiryID in
    filteredResults ← filterAndRankResults cfg (allResults cfg env db query inquiryID);
    Some (confluence.1, Ok filteredResults).
Proof.
  unfold SearchAll, allResults. cbv zeta.
  rewrite (searchConfluence_results cfg env db
             (searchSlack cfg env db (strings.Join (extractKeywords (Env.To_LowerCase env) query) " ")
                inquiryID).1).
  destruct (searchSlack _ _ _ _ _) as [db1 r1]. simpl.
  destruct (searchConfluence _ _ _ _ _) as [db2 r2]. reflexivity.
Qed.

Lemma ranked_found cfg results out r :
  filterAndRankResults cfg results = Some out → r ∈ out → r ∈ results.
Proof.
  rewrite filterAndRankResults_spec. cbv zeta.
  destruct (_ <? _)%Z; [discriminate|]. intros [= <-] Hr.
  apply (subseteq_take _ _ r) in Hr.
  rewrite (exchangeSort_perm _ (survivors cfg results)) in Hr.
  apply list_elem_of_In, List.filter_In in Hr as [Hr _].
  now apply list_elem_of_In.
Qed.

(** X6. When the limit is not negative, [SearchAll] succeeds and
    stores one row for every result that the two sources report, the
    ones below the threshold included: the rows are appended to the
    table of search results in the order found, each with a key of its
    own and the key of the inquiry, and nothing else changes in the
    store.  The results that are returned are among the reported ones
    and keep the key 0: they do not carry the key of their row. *)
Theorem SearchAll_stores_all cfg env db query inquiryID :
  (0 <= Config.MaxSearchResults cfg)%Z →
  ∃ db' out rows,
    SearchAll cfg env db query inquiryID = Some (db', Ok out)
    ∧ db' = DB.mk (DB.inquiries db) (DB.search_results db ++ rows)
              (DB.reaction_events db)
    ∧ List.map (SearchResult.setID 0) rows = allResults cfg env db query inquiryID
    ∧ Forall (λ row, SearchResult.ID row ≠ 0
                     ∧ SearchResult.InquiryID row = inquiryID) rows
    ∧ ∀ r, r ∈ out →
           r ∈ allResults cfg env db query inquiryID ∧ SearchResult.ID r = 0.
Proof.
  intros Hmax. rewrite SearchAll_spec. cbv zeta.
  set (searchQuery := strings.Join (extractKeywords (Env.To_LowerCase env) query) " ").
  destruct (searchSlack_rows cfg env db searchQuery inquiryID)
    as (rows1 & Hdb1 & Hmap1 & Hkeys1).
  destruct (searchConfluence_rows cfg env
              (searchSlack cfg env db searchQuery inquiryID).1
              searchQuery inquiryID)
    as (rows2 & Hdb2 & Hmap2 & Hkeys2).
  rewrite (searchConfluence_results cfg env _ db) in Hmap2.
  rewrite Hdb1 in Hdb2 |- *. simpl in Hdb2.
  assert (Hrep : Forall (λ r, SearchResult.ID r = 0
                              ∧ SearchResult.InquiryID r = inquiryID)
                   (allResults cfg env db query inquiryID)).
  { unfold allResults. apply Forall_app. split.
    - eapply Forall_impl; [apply searchSlack_reported|]. now intros r (? & ? & _).
    - eapply Forall_impl; [apply searchConfluence_reported|]. now intros r (? & ? & _). }
  destruct (filterAndRankResults cfg (allResults cfg env db query inquiryID))
    as [out|] eqn:Hout.
  2:{ apply filterAndRankResults_panics_iff in Hout. lia. }
  eexists _, out, (rows1 ++ rows2).
  split; [reflexivity|]. split; [now rewrite Hdb2, <- app_assoc|].
  assert (Hmap : List.map (SearchResult.setID 0) (rows1 ++ rows2)
                 = allResults cfg env db query inquiryID).
  { rewrite List.map_app, Hmap1, Hmap2. reflexivity. }
  split; [exact Hmap|]. split.
  - apply List.Forall_forall. intros row Hrow. split.
    + assert (Hk : Forall (λ row, SearchResult.ID row ≠ 0) (rows1 ++ rows2))
        by (apply Forall_app; now split).
      rewrite List.Forall_forall in Hk. now apply Hk.
    + rewrite List.Forall_forall in Hrep.
      destruct (Hrep (SearchResult.setID 0 row)) as [_ H].
      * rewrite <- Hmap. now apply List.in_map.
      * exact H.
  - intros r Hr. pose proof (ranked_found _ _ _ _ Hout Hr) as Hf.
    split; [exact Hf|].
    rewrite List.Forall_forall in Hrep.
    now apply Hrep, list_elem_of_In.
Qed.

Lemma SearchAll_stores_all_witness :
  ∃ db' out rows,
    SearchAll botConfig (failingModel deployMessage true) DB.empty
      "How to deploy service" 1
    = Some (db', Ok out)
    ∧ db' = DB.mk [] ([] ++ rows) []
    ∧ List.map (SearchResult.setID 0) rows
      = allResults botConfig (failingModel deployMessage true) DB.empty
          "How to deploy service" 1
    ∧ Forall (λ row, SearchResult.ID row ≠ 0 ∧ SearchResult.InquiryID row = 1) rows
    ∧ ∀ r, r ∈ out →
           r ∈ allResults botConfig (failingModel deployMessage true) DB.empty
                 "How to deploy service" 1
           ∧ SearchResult.ID r = 0.
Proof.
  apply (SearchAll_stores_all botConfig (failingModel deployMessage true) DB.empty
           "How to deploy service" 1).
  vm_compute. discriminate.
Defined.

(** X7. When the limit is not negative and both sources fail,
    [SearchAll] still succeeds: it returns no result and leaves the store
    as it is. *)
Theorem SearchAll_sources_down cfg env db query inquiryID :
  (0 <= Config.MaxSearchResults cfg)%Z →
  (∀ q days, ∃ err, Env.SearchMessages env q days = Err err) →
  (∀ cql, ∃ err, Env.searchContent env cql = Err err) →
  SearchAll cfg env db query inquiryID = Some (db, Ok []).
Proof.
  intros Hmax Hslack Hconfluence. unfold SearchAll, searchSlack.
  destruct (Hslack (strings.Join (extractKeywords (Env.To_LowerCase env) query) " ")
              (Config.SearchDaysBack cfg)) as [e1 ->].
  unfold searchConfluence, SearchPages.
  destruct (String.eqb _ _ || String.eqb _ _).
  - simpl. rewrite filterAndRankResults_spec. simpl.
    destruct (Z.ltb_spec (Config.MaxSearchResults cfg) 0); [lia|].
    now rewrite take_nil.
  - destruct (Hconfluence
                ("space=" +:+ Config.ConfluenceSpaceKey cfg +:+ " AND text ~ "
                 +:+ dquote
                 +:+ sanitizeCQLQuery (strings.Join (extractKeywords (Env.To_LowerCase env) query) " ")
                 +:+ dquote)) as [e2 ->].
    simpl. rewrite filterAndRankResults_spec. simpl.
    destruct (Z.ltb_spec (Config.MaxSearchResults cfg) 0); [lia|].
    now rewrite take_nil.
Qed.

Lemma SearchAll_sources_down_witness :
  SearchAll docsConfig sourcesDown oneInquiry "How to deploy service" 7
  = Some (oneInquiry, Ok []).
Proof.
  apply (SearchAll_sources_down docsConfig sourcesDown oneInquiry).
  - vm_compute. discriminate.
  - intros q days. eexists. reflexivity.
  - intros cql. eexists. reflexivity.
Defined.

Lemma survivors_nil cfg results :
  Forall (λ r, (SearchResult.Score r < Config.SimilarityThreshold cfg)%Q) results →
  survivors cfg results = [].
Proof.
  unfold survivors. induction 1 as [|r rs Hr _ IH]; simpl; [reflexivity|].
  destruct (score_ge _ _) eqn:E; [|exact IH].
  apply score_ge_true in E. exfalso. exact (Qlt_not_le _ _ Hr E).
Qed.

(** X8. A query without any keyword (stop words and words of at most
    two bytes only) has no result when the threshold is positive and the
    limit is not negative, whatever the sources return: every score
    is 0. *)
Theorem SearchAll_no_keywords cfg env db query inquiryID :
  extractKeywords (Env.To_LowerCase env) query = [] →
  (0 < Config.SimilarityThreshold cfg)%Q →
  (0 <= Config.MaxSearchResults cfg)%Z →
  ∃ db', SearchAll cfg env db query inquiryID = Some (db', Ok []).
Proof.
  intros Hkw Hthr Hmax. rewrite SearchAll_spec. cbv zeta.
  assert (Hnone : survivors cfg (allResults cfg env db query inquiryID) = []).
  { apply survivors_nil. unfold allResults. rewrite Hkw. simpl strings.Join.
    apply Forall_app. split.
    - unfold searchSlack. destruct (Env.SearchMessages _ _ _); simpl; [|constructor].
      apply List.Forall_forall. intros r (msg & <- & _)%List.in_map_iff. exact Hthr.
    - unfold searchConfluence. destruct (SearchPages _ _ _); simpl; [|constructor].
      apply List.Forall_forall. intros r (page & <- & _)%List.in_map_iff. exact Hthr. }
  rewrite filterAndRankResults_spec. cbv zeta. rewrite Hnone. simpl exchangeSort.
  destruct (Z.ltb_spec (Config.MaxSearchResults cfg) 0); [lia|].
  rewrite take_nil. eexists. reflexivity.
Qed.

Lemma SearchAll_no_keywords_witness :
  ∃ db',
    SearchAll botConfig (failingModel deployMessage true) DB.empty "What is it?" 1
    = Some (db', Ok []).
Proof.
  apply (SearchAll_no_keywords botConfig (failingModel deployMessage true)
           DB.empty "What is it?" 1).
  - vm_compute. reflexivity.
  - reflexivity.
  - vm_compute. discriminate.
Defined.

(** *** The run of the pipeline on a new message *)

Lemma ProcessInquiry_run
    cfg env db messageID channelID userID messageText timestamp :
  DB.firstInquiryByMessageID db messageID = None →
  (0 <= Config.MaxSearchResults cfg)%Z →
  let row := inquiryRow db messageID channelID userID messageText timestamp in
  ∃ results events searchResults,
    ProcessInquiry cfg env db messageID channelID userID messageText timestamp
    = Some
        match Env.GenerateResponse env (row "processing" None false "" "")
                searchResults with
        | Ok response =>
            match Env.PostThreadReply env channelID timestamp
                    (formatted response) with
            | Ok threadTS =>
                (DB.mk (DB.inquiries db
                        ++ [row "completed" (Some (Env.Now env)) true response
                              threadTS])
                   results events,
                 Ok tt)
            | Err err =>
                (DB.mk (DB.inquiries db ++ [row "failed" None false response ""])
                   results events,
                 Err ("failed to send response: " +:+ err))
            end
        | Err err =>
            let fallbackResponse := generateFallbackResponse searchResults in
            (DB.mk (DB.inquiries db
                    ++ [row "failed" None false fallbackResponse
                          match Env.PostThreadReply env channelID timestamp
                                  (formatted fallbackResponse) with
                          | Ok threadTS => threadTS
                          | Err _ => EmptyString
                          end])
               results events,
             Err ("AI response generation failed: " +:+ err))
        end.
Proof.
  intros Hnew Hmax row. unfold ProcessInquiry.
  rewrite createInquiry_new, Hnew. cbv beta iota zeta.
  set (rows := DB.inquiries db) in *.
  assert (Hfresh : ∀ r, In r rows → Inquiry.MessageID r ≠ messageID).
  { apply firstInquiry_None, Hnew. }
  rewrite saveInquiry_last by (try reflexivity; exact Hfresh).
  change (Inquiry.setStatus "processing" _) with (row "processing" None false "" "").
  change (Inquiry.ID (row "processing" None false "" ""))
    with (nextKey Inquiry.ID rows).
  destruct (SearchAll_total cfg env
              (DB.mk (rows ++ [row "processing" None false "" ""])
                 (DB.search_results db) (DB.reaction_events db))
              messageText (nextKey Inquiry.ID rows) Hmax)
    as (db2 & searchResults & Hsearch).
  rewrite Hsearch. simpl mbind. cbv beta iota zeta.
  apply SearchAll_inv in Hsearch as (Hrows & _ & _). simpl in Hrows.
  destruct db2 as [rows2 results2 events2]. simpl in Hrows. subst rows2.
  exists results2, events2, searchResults.
  destruct (Env.GenerateResponse env _ searchResults) as [response|err].
  - unfold sendResponse. fold (formatted response).
    change (Inquiry.ChannelID (row "processing" None false "" "")) with channelID.
    change (Inquiry.Timestamp (row "processing" None false "" "")) with timestamp.
    destruct (Env.PostThreadReply env channelID timestamp _) as [threadTS|err].
    + rewrite saveInquiry_last by (try reflexivity; exact Hfresh).
      rewrite saveInquiry_last by (try reflexivity; exact Hfresh).
      reflexivity.
    + rewrite saveInquiry_last by (try reflexivity; exact Hfresh).
      reflexivity.
  - unfold sendResponse. fold (formatted (generateFallbackResponse searchResults)).
    change (Inquiry.ChannelID (row "processing" None false "" "")) with channelID.
    change (Inquiry.Timestamp (row "processing" None false "" "")) with timestamp.
    destruct (Env.PostThreadReply env channelID timestamp _) as [threadTS|err'].
    + rewrite saveInquiry_last by (try reflexivity; exact Hfresh).
      rewrite saveInquiry_last by (try reflexivity; exact Hfresh).
      reflexivity.
    + rewrite saveInquiry_last by (try reflexivity; exact Hfresh).
      reflexivity.
Qed.

(** X22. On a message that has no inquiry yet, when the limit is not
    negative, [ProcessInquiry] returns and leaves exactly one new row,
    with the next key, whose status is [completed] or [failed], never
    [pending] or [processing]; the earlier rows and the reaction events
    are untouched.  The row is [completed], marked as sent and dated
    exactly when the run succeeds. *)
Theorem ProcessInquiry_settles
    cfg env db messageID channelID userID messageText timestamp :
  DB.firstInquiryByMessageID db messageID = None →
  (0 <= Config.MaxSearchResults cfg)%Z →
  ∃ db' outcome final,
    ProcessInquiry cfg env db messageID channelID userID messageText timestamp
    = Some (db', outcome)
    ∧ DB.inquiries db' = DB.inquiries db ++ [final]
    ∧ DB.reaction_events db' = DB.reaction_events db
    ∧ Inquiry.ID final = nextKey Inquiry.ID (DB.inquiries db)
    ∧ Inquiry.MessageID final = messageID
    ∧ (Inquiry.Status final = "completed"%string
       ∨ Inquiry.Status final = "failed"%string)
    ∧ (outcome = Ok tt ↔ Inquiry.Status final = "completed"%string)
    ∧ (outcome = Ok tt ↔ Inquiry.ResponseSent final = true)
    ∧ (outcome = Ok tt ↔ Inquiry.ProcessedAt final = Some (Env.Now env)).
Proof.
  intros Hnew Hmax.
  destruct (ProcessInquiry_run cfg env db messageID channelID userID messageText
              timestamp Hnew Hmax) as (results & events & searchResults & Hrun).
  cbv zeta in Hrun.
  assert (Hevents : ∀ db' outcome,
            ProcessInquiry cfg env db messageID channelID userID messageText
              timestamp = Some (db', outcome) →
            DB.reaction_events db' = DB.reaction_events db).
  { intros db' outcome. apply ProcessInquiry_events. }
  destruct (Env.GenerateResponse env _ searchResults) as [response|err].
  - destruct (Env.PostThreadReply env channelID timestamp _) as [threadTS|err].
    + eexists _, _, _. split; [exact Hrun|]. split; [reflexivity|].
      split; [exact (Hevents _ _ Hrun)|]. simpl. repeat split; auto.
    + eexists _, _, _. split; [exact Hrun|]. split; [reflexivity|].
      split; [exact (Hevents _ _ Hrun)|]. simpl.
      repeat split; auto; discriminate.
  - eexists _, _, _. split; [exact Hrun|]. split; [reflexivity|].
    split; [exact (Hevents _ _ Hrun)|]. simpl.
    repeat split; auto; discriminate.
Qed.

(** The run on a new message once the search has returned and the
    language model has answered. *)
Lemma ProcessInquiry_answered
    cfg env db messageID channelID userID messageText timestamp
    db1 pending db2 searchResults response :
  DB.createInquiry db
    (newInquiry messageID channelID userID messageText timestamp)
  = Ok (db1, pending) →
  SearchAll cfg env
    (DB.saveInquiry db1 (Inquiry.setStatus "processing" pending))
    messageText (Inquiry.ID pending)
  = Some (db2, Ok searchResults) →
  Env.GenerateResponse env (Inquiry.setStatus "processing" pending) searchResults
  = Ok response →
  let row := inquiryRow db messageID channelID userID messageText timestamp in
  Inquiry.ID pending = nextKey Inquiry.ID (DB.inquiries db)
  ∧ DB.reaction_events db2 = DB.reaction_events db
  ∧ ProcessInquiry cfg env db messageID channelID userID messageText timestamp
    = Some
        match Env.PostThreadReply env channelID timestamp
                (formatted response) with
        | Ok threadTS =>
            (DB.mk (DB.inquiries db
                    ++ [row "completed" (Some (Env.Now env)) true response
                          threadTS])
               (DB.search_results db2) (DB.reaction_events db2),
             Ok tt)
        | Err err =>
            (DB.mk (DB.inquiries db ++ [row "failed" None false response ""])
               (DB.search_results db2) (DB.reaction_events db2),
             Err ("failed to send response: " +:+ err))
        end.
Proof.
  intros Hcreate Hsearch Hgen row.
  unfold ProcessInquiry. rewrite Hcreate. cbv beta iota zeta.
  change (Inquiry.ID (Inquiry.setStatus "processing" pending))
    with (Inquiry.ID pending).
  rewrite Hsearch. simpl mbind. cbv beta iota zeta. rewrite Hgen.
  rewrite createInquiry_new in Hcreate.
  destruct (DB.firstInquiryByMessageID db messageID) as [|] eqn:Hnew;
    [discriminate|].
  cbv zeta in Hcreate. injection Hcreate as <- <-.
  set (rows := DB.inquiries db) in *.
  assert (Hfresh : ∀ r, In r rows → Inquiry.MessageID r ≠ messageID).
  { apply firstInquiry_None, Hnew. }
  rewrite saveInquiry_last in Hsearch by (try reflexivity; exact Hfresh).
  apply SearchAll_inv in Hsearch as (Hrows & Hevents & _).
  simpl in Hrows, Hevents.
  destruct db2 as [rows2 results2 events2]. simpl in Hrows, Hevents.
  subst rows2 events2.
  split; [reflexivity|]. split; [reflexivity|].
  unfold sendResponse. fold (formatted response).
  simpl Inquiry.ChannelID. simpl Inquiry.Timestamp.
  destruct (Env.PostThreadReply env channelID timestamp _) as [threadTS|err].
  - rewrite saveInquiry_last by (try reflexivity; exact Hfresh).
    rewrite saveInquiry_last by (try reflexivity; exact Hfresh).
    reflexivity.
  - rewrite saveInquiry_last by (try reflexivity; exact Hfresh).
    reflexivity.
Qed.

(** X23. When the inquiry of the message can be created, the search
    returns, the language model answers for this inquiry and these
    results, and the reply is posted, [ProcessInquiry] succeeds and the
    row of the inquiry holds the data of the message, the status
    [completed], the reading of the clock, the mark that the response was
    sent, the answer of the model and the timestamp of the reply; the
    reaction events are untouched. *)
Theorem ProcessInquiry_completed
    cfg env db messageID channelID userID messageText timestamp
    db1 pending db2 searchResults response threadTS :
  DB.createInquiry db
    (newInquiry messageID channelID userID messageText timestamp)
  = Ok (db1, pending) →
  SearchAll cfg env
    (DB.saveInquiry db1 (Inquiry.setStatus "processing" pending))
    messageText (Inquiry.ID pending)
  = Some (db2, Ok searchResults) →
  Env.GenerateResponse env (Inquiry.setStatus "processing" pending) searchResults
  = Ok response →
  Env.PostThreadReply env channelID timestamp (formatted response) = Ok threadTS →
  ∃ db',
    ProcessInquiry cfg env db messageID channelID userID messageText timestamp
    = Some (db', Ok tt)
    ∧ DB.inquiries db'
      = DB.inquiries db
        ++ [ Inquiry.mk (Inquiry.ID pending) messageID
               channelID userID messageText timestamp "completed"
               (Some (Env.Now env)) true response threadTS ]
    ∧ DB.search_results db' = DB.search_results db2
    ∧ DB.reaction_events db' = DB.reaction_events db.
Proof.
  intros Hcreate Hsearch Hgen Hpost.
  destruct (ProcessInquiry_answered _ _ _ _ _ _ _ _ _ _ _ _ _
              Hcreate Hsearch Hgen) as (Hkey & Hevents & Hrun).
  rewrite Hpost in Hrun.
  eexists. split; [exact Hrun|]. rewrite Hkey.
  split; [reflexivity|]. split; [reflexivity|exact Hevents].
Qed.

(** X24. When the inquiry of the message can be created, the search
    returns and the language model answers for this inquiry and these
    results, but the reply cannot be posted, [ProcessInquiry] fails with
    the error of the posting; the row of the inquiry has the status
    [failed], is not marked as sent, has no thread timestamp, and still
    holds the answer of the model. *)
Theorem ProcessInquiry_undelivered
    cfg env db messageID channelID userID messageText timestamp
    db1 pending db2 searchResults response err :
  DB.createInquiry db
    (newInquiry messageID channelID userID messageText timestamp)
  = Ok (db1, pending) →
  SearchAll cfg env
    (DB.saveInquiry db1 (Inquiry.setStatus "processing" pending))
    messageText (Inquiry.ID pending)
  = Some (db2, Ok searchResults) →
  Env.GenerateResponse env (Inquiry.setStatus "processing" pending) searchResults
  = Ok response →
  Env.PostThreadReply env channelID timestamp (formatted response) = Err err →
  ∃ db',
    ProcessInquiry cfg env db messageID channelID userID messageText timestamp
    = Some (db', Err ("failed to send response: " +:+ err))
    ∧ DB.inquiries db'
      = DB.inquiries db
        ++ [ Inquiry.mk (Inquiry.ID pending) messageID
               channelID userID messageText timestamp "failed"
               None false response "" ]
    ∧ DB.search_results db' = DB.search_results db2
    ∧ DB.reaction_events db' = DB.reaction_events db.
Proof.
  intros Hcreate Hsearch Hgen Hpost.
  destruct (ProcessInquiry_answered _ _ _ _ _ _ _ _ _ _ _ _ _
              Hcreate Hsearch Hgen) as (Hkey & Hevents & Hrun).
  rewrite Hpost in Hrun.
  eexists. split; [exact Hrun|]. rewrite Hkey.
  split; [reflexivity|]. split; [reflexivity|exact Hevents].
Qed.

(** X25. On a message that already has an inquiry, [ProcessInquiry]
    fails on the unique index, leaves the store as it is, and asks
    nothing of the collaborators. *)
Theorem ProcessInquiry_known_message
    cfg env db messageID channelID userID messageText timestamp existing :
  DB.firstInquiryByMessageID db messageID = Some existing →
  ProcessInquiry cfg env db messageID channelID userID messageText timestamp
  = Some (db, Err "failed to create inquiry: UNIQUE constraint failed: inquiries.message_id").
Proof.
  intros Hknown. unfold ProcessInquiry.
  now rewrite createInquiry_new, Hknown.
Qed.

(** X26. An error of [ProcessInquiry] is the failure to create the
    inquiry (the store is then unchanged), the failure of the language
    model, or the failure to post the reply.  It is never the error of
    the search: [SearchAll] reports none. *)
Theorem ProcessInquiry_errors
    cfg env db messageID channelID userID messageText timestamp db' e :
  ProcessInquiry cfg env db messageID channelID userID messageText timestamp
  = Some (db', Err e) →
  strings.HasPrefix e "search failed: " = false
  ∧ ((db' = db
      ∧ e = "failed to create inquiry: UNIQUE constraint failed: inquiries.message_id"%string)
     ∨ (∃ err, e = "AI response generation failed: " +:+ err)
     ∨ (∃ err, e = "failed to send response: " +:+ err)).
Proof.
  unfold ProcessInquiry. rewrite createInquiry_new.
  destruct (DB.firstInquiryByMessageID db messageID) as [existing|].
  { intros [= <- <-]. split; [reflexivity|]. left. split; reflexivity. }
  cbv beta iota zeta.
  destruct (SearchAll _ _ _ _ _) as [[db2 searched]|] eqn:Hsearch; simpl;
    [|discriminate].
  apply SearchAll_inv in Hsearch as (_ & _ & rs & ->).
  destruct (Env.GenerateResponse _ _ _) as [response|err].
  - destruct (sendResponse _ _ _ _) as [[db3 sent] [u|err]];
      intros [= _ <-]. split; [reflexivity|]. right. right. eauto.
  - destruct (sendResponse _ _ _ _) as [[db3 sent] sentOutcome].
    intros [= _ <-]. split; [reflexivity|]. right. left. eauto.
Qed.

Lemma ProcessInquiry_settles_witness :
  ∃ db' outcome final,
    ProcessInquiry botConfig (answering false) DB.empty
      "1700000000.000100" "C024BE91L" "U2147483697" "How to deploy service"
      "1700000000.000100"
    = Some (db', outcome)
    ∧ DB.inquiries db' = [final]
    ∧ DB.reaction_events db' = []
    ∧ Inquiry.ID final = 1
    ∧ Inquiry.MessageID final = "1700000000.000100"%string
    ∧ (Inquiry.Status final = "completed"%string
       ∨ Inquiry.Status final = "failed"%string)
    ∧ (outcome = Ok tt ↔ Inquiry.Status final = "completed"%string)
    ∧ (outcome = Ok tt ↔ Inquiry.ResponseSent final = true)
    ∧ (outcome = Ok tt ↔ Inquiry.ProcessedAt final = Some 1700000005%Z).
Proof.
  apply (ProcessInquiry_settles botConfig (answering false) DB.empty
           "1700000000.000100" "C024BE91L" "U2147483697" "How to deploy service"
           "1700000000.000100").
  - reflexivity.
  - vm_compute. discriminate.
Defined.

Lemma ProcessInquiry_completed_witness :
  ∃ db',
    ProcessInquiry botConfig (answering true) DB.empty
      "1700000000.000100" "C024BE91L" "U2147483697" "How to deploy service"
      "1700000000.000100"
    = Some (db', Ok tt)
    ∧ DB.inquiries db'
      = [ Inquiry.mk 1 "1700000000.000100" "C024BE91L" "U2147483697"
            "How to deploy service" "1700000000.000100" "completed"
            (Some 1700000005%Z) true "Use the deploy pipeline."
            "1700000004.000300" ].
Proof.
  edestruct (ProcessInquiry_completed botConfig (answering true) DB.empty
               "1700000000.000100" "C024BE91L" "U2147483697"
               "How to deploy service" "1700000000.000100")
    as (db' & Hrun & Hrows & _ & _).
  - reflexivity.
  - vm_compute. reflexivity.
  - reflexivity.
  - reflexivity.
  - exists db'. split; [exact Hrun|exact Hrows].
Defined.

Lemma ProcessInquiry_undelivered_witness :
  ∃ db',
    ProcessInquiry botConfig (answering false) DB.empty
      "1700000000.000100" "C024BE91L" "U2147483697" "How to deploy service"
      "1700000000.000100"
    = Some (db', Err "failed to send response: failed to post thread reply: channel_not_found")
    ∧ DB.inquiries db'
      = [ Inquiry.mk 1 "1700000000.000100" "C024BE91L" "U2147483697"
            "How to deploy service" "1700000000.000100" "failed"
            None false "Use the deploy pipeline." "" ].
Proof.
  edestruct (ProcessInquiry_undelivered botConfig (answering false) DB.empty
               "1700000000.000100" "C024BE91L" "U2147483697"
               "How to deploy service" "1700000000.000100")
    as (db' & Hrun & Hrows & _ & _).
  - reflexivity.
  - vm_compute. reflexivity.
  - reflexivity.
  - reflexivity.
  - exists db'. split; [exact Hrun|exact Hrows].
Defined.

Lemma ProcessInquiry_known_message_witness :
  ProcessInquiry botConfig (answering true) oneInquiry
    "1700000000.000100" "C024BE91L" "U2147483697" "How to deploy service"
    "1700000000.000100"
  = Some (oneInquiry,
          Err "failed to create inquiry: UNIQUE constraint failed: inquiries.message_id").
Proof.
  apply (ProcessInquiry_known_message botConfig (answering true) oneInquiry
           "1700000000.000100" "C024BE91L" "U2147483697" "How to deploy service"
           "1700000000.000100" storedInquiry).
  reflexivity.
Defined.

Lemma ProcessInquiry_errors_witness :
  strings.HasPrefix
    "AI response generation failed: LiteLLM API rate limit exceeded"
    "search failed: " = false
  ∧ ((DB.mk
        [ Inquiry.mk 1 "1700000000.000100" "C024BE91L" "U2147483697"
            "How to deploy service" "1700000000.000100" "failed" None false
            noInformation "1700000004.000300" ]
        [] []
      = DB.empty
      ∧ "AI response generation failed: LiteLLM API rate limit exceeded"%string
        = "failed to create inquiry: UNIQUE constraint failed: inquiries.message_id"%string)
     ∨ (∃ err,
          "AI response generation failed: LiteLLM API rate limit exceeded"%string
          = "AI response generation failed: " +:+ err)
     ∨ (∃ err,
          "AI response generation failed: LiteLLM API rate limit exceeded"%string
          = "failed to send response: " +:+ err)).
Proof.
  apply (ProcessInquiry_errors botConfig rateLimited DB.empty
           "1700000000.000100" "C024BE91L" "U2147483697" "How to deploy service"
           "1700000000.000100").
  vm_compute. reflexivity.
Defined.

(** *** The intake of a reaction on a new message *)

Lemma find_last {A} (f : A → bool) rows x :
  List.find f rows = None → f x = true → List.find f (rows ++ [x]) = Some x.
Proof.
  intros Hnone Hx. induction rows as [|r rows IH]; simpl in *.
  - now rewrite Hx.
  - destruct (f r); [discriminate | auto].
Qed.

Lemma find_other {A} (f : A → bool) rows x :
  f x = false → List.find f (rows ++ [x]) = List.find f rows.
Proof.
  intros Hx. induction rows as [|r rows IH]; simpl.
  - now rewrite Hx.
  - now destruct (f r).
Qed.

(** X27. On an added event of the trigger emoji for a message that has
    no inquiry yet and whose text is not empty, the intake records one
    event and one inquiry.  The inquiry holds the author, the text and
    the timestamp of the message that was fetched, not the user of the
    reaction.  When the intake succeeds the inquiry is [completed] and
    the event is marked as processed and linked to it; when it fails the
    inquiry is [failed] and the event stays unprocessed and unlinked. *)
Theorem ProcessReactionEvent_new_message
    cfg env db messageID channelID userID timestamp slackMessage :
  DB.firstInquiryByMessageID db messageID = None →
  (0 <= Config.MaxSearchResults cfg)%Z →
  Env.GetMessage env channelID messageID = Ok slackMessage →
  SlackMessage.Text slackMessage ≠ EmptyString →
  ∃ db' outcome final e,
    ProcessReactionEvent cfg env db messageID channelID userID
      (Config.TriggerEmoji cfg) "added" timestamp
    = Some (db', outcome)
    ∧ DB.inquiries db' = DB.inquiries db ++ [final]
    ∧ DB.reaction_events db' = DB.reaction_events db ++ [e]
    ∧ Inquiry.MessageID final = messageID
    ∧ Inquiry.ChannelID final = channelID
    ∧ Inquiry.UserID final = SlackMessage.User slackMessage
    ∧ Inquiry.MessageText final = SlackMessage.Text slackMessage
    ∧ Inquiry.Timestamp final = SlackMessage.Timestamp slackMessage
    ∧ ReactionEvent.UserID e = userID
    ∧ (outcome = Ok tt →
         Inquiry.Status final = "completed"%string
         ∧ ReactionEvent.Processed e = true
         ∧ ReactionEvent.InquiryID e = Some (Inquiry.ID final))
    ∧ (outcome ≠ Ok tt →
         Inquiry.Status final = "failed"%string
         ∧ ReactionEvent.Processed e = false
         ∧ ReactionEvent.InquiryID e = None).
Proof.
  intros Hnew Hmax Hget Htext. intake_added.
  set (recorded := ReactionEvent.mk _ _ _ _ _ _ _ false None).
  set (db1 := DB.mk _ _ (_ ++ [recorded])).
  assert (Hfirst : DB.firstInquiryByMessageID db1 messageID = None) by exact Hnew.
  rewrite Hfirst, Hget.
  apply String.eqb_neq in Htext. rewrite Htext.
  destruct (ProcessInquiry_run cfg env db1 messageID channelID
              (SlackMessage.User slackMessage) (SlackMessage.Text slackMessage)
              (SlackMessage.Timestamp slackMessage) Hfirst Hmax)
    as (results & events & searchResults & Hrun).
  cbv zeta in Hrun.
  assert (Hevents : ∀ db2 outcome,
            ProcessInquiry cfg env db1 messageID channelID
              (SlackMessage.User slackMessage) (SlackMessage.Text slackMessage)
              (SlackMessage.Timestamp slackMessage) = Some (db2, outcome) →
            DB.reaction_events db2 = DB.reaction_events db1).
  { intros db2 outcome. apply ProcessInquiry_events. }
  destruct (Env.GenerateResponse env _ searchResults) as [response|err].
  - destruct (Env.PostThreadReply env channelID _ _) as [threadTS|err].
    + specialize (Hevents _ _ Hrun). simpl in Hevents. subst events.
      rewrite Hrun. simpl mbind. cbv beta iota zeta.
      unfold GetInquiryByMessageID, DB.firstInquiryByMessageID.
      simpl DB.inquiries.
      rewrite (find_last _ _ _ Hnew) by (simpl; apply String.eqb_refl).
      rewrite saveReactionEvent_last by reflexivity.
      eexists _, _, _, _. split; [reflexivity|]. simpl.
      repeat split; auto; try discriminate; try congruence.
    + specialize (Hevents _ _ Hrun). simpl in Hevents. subst events.
      rewrite Hrun. simpl mbind. cbv beta iota zeta.
      eexists _, _, _, _. split; [reflexivity|]. simpl.
      repeat split; auto; try discriminate; try congruence.
  - specialize (Hevents _ _ Hrun). simpl in Hevents. subst events.
    rewrite Hrun. simpl mbind. cbv beta iota zeta.
    eexists _, _, _, _. split; [reflexivity|]. simpl.
    repeat split; auto; try discriminate; try congruence.
Qed.

Lemma ProcessReactionEvent_new_message_witness :
  ∃ db' outcome final e,
    ProcessReactionEvent botConfig (answering true) DB.empty
      "1700000000.000100" "C024BE91L" "U9" "eyes" "added" "1700000100.000000"
    = Some (db', outcome)
    ∧ DB.inquiries db' = [final]
    ∧ DB.reaction_events db' = [e]
    ∧ Inquiry.MessageID final = "1700000000.000100"%string
    ∧ Inquiry.ChannelID final = "C024BE91L"%string
    ∧ Inquiry.UserID final = "U2147483697"%string
    ∧ Inquiry.MessageText final = "How to deploy service"%string
    ∧ Inquiry.Timestamp final = "1700000000.000100"%string
    ∧ ReactionEvent.UserID e = "U9"%string
    ∧ (outcome = Ok tt →
         Inquiry.Status final = "completed"%string
         ∧ ReactionEvent.Processed e = true
         ∧ ReactionEvent.InquiryID e = Some (Inquiry.ID final))
    ∧ (outcome ≠ Ok tt →
         Inquiry.Status final = "failed"%string
         ∧ ReactionEvent.Processed e = false
         ∧ ReactionEvent.InquiryID e = None).
Proof.
  apply (ProcessReactionEvent_new_message botConfig (answering true) DB.empty
           "1700000000.000100" "C024BE91L" "U9" "1700000100.000000"
           deployMessage).
  - reflexivity.
  - vm_compute. discriminate.
  - reflexivity.
  - discriminate.
Defined.

(** X28. On an added event of the trigger emoji for a message that has
    no inquiry yet, when the message cannot be fetched, the intake fails
    with the error of the fetch: the event is recorded, unprocessed, and
    nothing else changes in the store. *)
Theorem ProcessReactionEvent_message_unavailable
    cfg env db messageID channelID userID timestamp err :
  DB.firstInquiryByMessageID db messageID = None →
  Env.GetMessage env channelID messageID = Err err →
  ProcessReactionEvent cfg env db messageID channelID userID
    (Config.TriggerEmoji cfg) "added" timestamp
  = Some
      (DB.mk (DB.inquiries db) (DB.search_results db)
         (DB.reaction_events db
          ++ [ ReactionEvent.mk
                 (nextKey ReactionEvent.ID (DB.reaction_events db))
                 messageID channelID userID (Config.TriggerEmoji cfg) "added"
                 timestamp false None ]),
       Err err).
Proof.
  intros Hnew Hget. intake_added.
  set (db1 := DB.mk _ _ (_ ++ _)).
  assert (Hfirst : DB.firstInquiryByMessageID db1 messageID = None) by exact Hnew.
  now rewrite Hfirst, Hget.
Qed.

Lemma ProcessReactionEvent_message_unavailable_witness :
  ProcessReactionEvent botConfig messageGone DB.empty
    "1700000000.000100" "C024BE91L" "U9" "eyes" "added" "1700000100.000000"
  = Some
      (DB.mk [] []
         [ ReactionEvent.mk 1 "1700000000.000100" "C024BE91L" "U9" "eyes"
             "added" "1700000100.000000" false None ],
       Err "failed to get message: message_not_found").
Proof.
  apply (ProcessReactionEvent_message_unavailable botConfig messageGone DB.empty
           "1700000000.000100" "C024BE91L" "U9" "1700000100.000000"
           "failed to get message: message_not_found"); reflexivity.
Defined.

(** *** Round trips through the store *)

(** X29. An inquiry that was created is found again by the identifier
    of its message, with a key that is not 0; the lookup of every other
    message is unchanged; and creating another inquiry for the same
    message fails on the unique index. *)
Theorem createInquiry_lookup db inquiry db1 created :
  DB.createInquiry db inquiry = Ok (db1, created) →
  GetInquiryByMessageID db1 (Inquiry.MessageID inquiry) = Ok created
  ∧ Inquiry.MessageID created = Inquiry.MessageID inquiry
  ∧ Inquiry.ID created ≠ 0
  ∧ (∀ messageID, messageID ≠ Inquiry.MessageID inquiry →
       GetInquiryByMessageID db1 messageID = GetInquiryByMessageID db messageID)
  ∧ (∀ other, Inquiry.MessageID other = Inquiry.MessageID inquiry →
       DB.createInquiry db1 other
       = Err "UNIQUE constraint failed: inquiries.message_id").
Proof.
  unfold DB.createInquiry. rewrite existsb_find.
  destruct (List.find _ (DB.inquiries db)) as [|] eqn:Hfind; [discriminate|].
  destruct (negb (Inquiry.ID inquiry =? 0)%nat
            && hasKey Inquiry.ID (DB.inquiries db) (Inquiry.ID inquiry)) eqn:Hkey;
    [discriminate|].
  unfold insertRow. intros [= <- <-].
  set (created := if (Inquiry.ID inquiry =? 0)%nat then _ else inquiry).
  assert (Hm : Inquiry.MessageID created = Inquiry.MessageID inquiry).
  { unfold created. now destruct (Inquiry.ID inquiry =? 0)%nat. }
  split; [|split; [exact Hm|split; [|split]]].
  - unfold GetInquiryByMessageID, DB.firstInquiryByMessageID. simpl DB.inquiries.
    rewrite (find_last _ _ created Hfind); [reflexivity|].
    rewrite Hm. apply String.eqb_refl.
  - unfold created. destruct (Nat.eqb_spec (Inquiry.ID inquiry) 0); [|assumption].
    destruct inquiry. simpl. unfold nextKey. lia.
  - intros messageID Hne.
    unfold GetInquiryByMessageID, DB.firstInquiryByMessageID. simpl DB.inquiries.
    rewrite find_other; [reflexivity|].
    rewrite Hm. apply String.eqb_neq. congruence.
  - intros other Hother. simpl DB.inquiries.
    rewrite existsb_app. simpl. rewrite Hm, Hother, String.eqb_refl.
    now rewrite orb_true_r.
Qed.

Lemma createInquiry_lookup_witness :
  GetInquiryByMessageID
    (DB.mk
       [ storedInquiry;
         Inquiry.mk 2 "1700000050.000200" "C024BE91L" "U7" "Where are the docs"
           "1700000050.000200" "pending" None false "" "" ]
       [] [])
    "1700000050.000200"
  = Ok (Inquiry.mk 2 "1700000050.000200" "C024BE91L" "U7" "Where are the docs"
          "1700000050.000200" "pending" None false "" "").
Proof.
  apply (createInquiry_lookup oneInquiry
           (newInquiry "1700000050.000200" "C024BE91L" "U7" "Where are the docs"
              "1700000050.000200")).
  reflexivity.
Defined.

(** *** What an accepted request is *)

Lemma verifySlackSignature_true cfg now r :
  verifySlackSignature cfg now r = true → ∃ body, accepted cfg now r body.
Proof.
  unfold verifySlackSignature, accepted.
  destruct (String.eqb_spec (Config.SlackSigningSecret cfg) "") as [|Hsecret];
    [discriminate|].
  destruct (String.eqb _ ""); [discriminate|].
  destruct (strconv.ParseInt _) as [ts|]; [|discriminate].
  destruct (Z.ltb_spec 300 (wrap64 (now - ts))) as [|Hage]; [discriminate|].
  destruct (Request.Body r) as [body|]; [|discriminate].
  intros Heq%hmac_Equal_iff. exists body. eauto 10.
Qed.

Lemma verifySlackSignature_accepted cfg now r body :
  accepted cfg now r body → verifySlackSignature cfg now r = true.
Proof.
  unfold verifySlackSignature, accepted.
  intros (Hsecret & (ts & Hparse & Hage) & Hbody & Hsig).
  apply String.eqb_neq in Hsecret. rewrite Hsecret.
  destruct (String.eqb_spec (Header_Get r "X-Slack-Request-Timestamp") "")
    as [Hempty|_].
  { rewrite Hempty in Hparse. discriminate. }
  rewrite Hparse, Hbody.
  destruct (Z.ltb_spec 300 (wrap64 (now - ts))); [lia|].
  apply hmac_Equal_iff. now rewrite Hsig.
Qed.

(** X14. [verifySlackSignature] accepts a request exactly when a
    signing secret is configured, the timestamp header is a decimal
    [int64] whose age, computed on [int64], is at most 300 seconds, the
    body can be read, and the signature header is [v0=] followed by the
    HMAC-SHA256 of [v0:timestamp:body] in hexadecimal. *)
Theorem verifySlackSignature_iff cfg now r :
  verifySlackSignature cfg now r = true ↔ ∃ body, accepted cfg now r body.
Proof.
  split; [apply verifySlackSignature_true|].
  intros [body H]. eapply verifySlackSignature_accepted, H.
Qed.

(** *** The shape of a signature *)

Lemma round_length s kw : length s = 8 → length (sha256.round s kw) = 8.
Proof.
  intros H. do 9 (destruct s as [|? s]; try discriminate). reflexivity.
Qed.

Lemma rounds_length l : ∀ s, length s = 8 → length (fold_left sha256.round l s) = 8.
Proof.
  induction l as [|kw l IH]; intros s H; simpl; [exact H|].
  apply IH, round_length, H.
Qed.

Lemma block_length h bytes : length h = 8 → length (sha256.block h bytes) = 8.
Proof.
  intros H. unfold sha256.block.
  rewrite length_map, List.length_combine, rounds_length by exact H. lia.
Qed.

Lemma blocks_length l : ∀ h, length h = 8 → length (fold_left sha256.block l h) = 8.
Proof.
  induction l as [|b l IH]; intros h H; simpl; [exact H|].
  apply IH, block_length, H.
Qed.

Lemma bigEndian_bytes n x :
  length (sha256.bigEndian n x) = n ∧ Forall isByte (sha256.bigEndian n x).
Proof.
  induction n as [|n [IHl IHb]]; simpl; [split; [reflexivity|constructor]|].
  split; [now rewrite IHl|]. constructor; [|exact IHb].
  unfold isByte. apply Z.mod_pos_bound. lia.
Qed.

Lemma words_bytes h :
  length (concat (List.map (sha256.bigEndian 4) h)) = 4 * length h
  ∧ Forall isByte (concat (List.map (sha256.bigEndian 4) h)).
Proof.
  induction h as [|x h [IHl IHb]]; [split; [reflexivity|constructor]|].
  cbn [List.map concat length].
  destruct (bigEndian_bytes 4 x) as [Hl Hb].
  split; [rewrite length_app, Hl, IHl; lia|].
  apply Forall_app. now split.
Qed.

Lemma Sum256_bytes msg :
  length (sha256.Sum256 msg) = 32 ∧ Forall isByte (sha256.Sum256 msg).
Proof.
  unfold sha256.Sum256.
  set (h := fold_left sha256.block _ sha256.H0).
  assert (Hh : length h = 8).
  { apply blocks_length. vm_compute. reflexivity. }
  destruct (words_bytes h) as [Hl Hb]. rewrite Hh in Hl. split; assumption.
Qed.

Lemma hexDigit_hex d :
  (0 <= d < 16)%Z → strings.byte_in (hexDigit d) hexDigits = true.
Proof.
  intros H.
  assert (Hd : (d = 0 ∨ d = 1 ∨ d = 2 ∨ d = 3 ∨ d = 4 ∨ d = 5 ∨ d = 6 ∨ d = 7
                ∨ d = 8 ∨ d = 9 ∨ d = 10 ∨ d = 11 ∨ d = 12 ∨ d = 13 ∨ d = 14
                ∨ d = 15)%Z) by lia.
  repeat (destruct Hd as [-> | Hd]; [reflexivity|]). subst d. reflexivity.
Qed.

Lemma EncodeToString_hex bytes :
  Forall isByte bytes →
  String.length (hex.EncodeToString bytes) = 2 * length bytes
  ∧ ∀ c, hasByte c (hex.EncodeToString bytes) →
         strings.byte_in c hexDigits = true.
Proof.
  unfold hex.EncodeToString, hasByte.
  induction 1 as [|b bytes Hb _ [IHl IHc]].
  - split; [reflexivity|]. intros c [].
  - cbn [List.map concat app string_of_list_ascii String.length].
    split; [rewrite IHl; simpl; lia|].
    cbn [list_ascii_of_string]. unfold isByte in Hb.
    intros c [<- | [<- | Hc]].
    + apply hexDigit_hex. split; [apply Z.div_pos; lia|].
      apply Z.div_lt_upper_bound; lia.
    + apply hexDigit_hex. apply Z.mod_pos_bound. lia.
    + apply IHc, Hc.
Qed.

(** X15. The signature that is computed always has 64 bytes, all of
    them digits or the lower-case letters [a] to [f]. *)
Theorem calculateSignature_shape cfg timestamp body :
  String.length (calculateSignature cfg timestamp body) = 64
  ∧ ∀ c, hasByte c (calculateSignature cfg timestamp body) →
         strings.byte_in c hexDigits = true.
Proof.
  unfold calculateSignature, hmac.Sum. cbv zeta.
  match goal with
  | |- context [hex.EncodeToString (sha256.Sum256 ?msg)] =>
      destruct (Sum256_bytes msg) as [Hl Hb]
  end.
  destruct (EncodeToString_hex _ Hb) as [Hlen Hhex].
  rewrite Hl in Hlen. split; [exact Hlen | exact Hhex].
Qed.

(** *** The entry points *)

(** X16. [HandleSlackEvents] hands an event over to the processing
    only if the request is accepted by the verification, the event is
    what the signed body decodes to, and its type is [event_callback];
    the answer is then 200 with the status [ok]. *)
Theorem HandleSlackEvents_authenticated cfg now decode r response event :
  HandleSlackEvents cfg now decode r = (response, Some event) →
  ∃ body,
    accepted cfg now r body
    ∧ decode body = Some event
    ∧ SlackEvent.Type_ event = "event_callback"%string
    ∧ response = Response.mk 200 [("status", "ok")]%string.
Proof.
  unfold HandleSlackEvents, ShouldBindJSON.
  destruct (verifySlackSignature cfg now r) eqn:Hverify; [|discriminate].
  apply verifySlackSignature_true in Hverify as [body Hacc].
  pose proof Hacc as (_ & _ & Hbody & _). rewrite Hbody. simpl negb. cbv iota.
  destruct (decode body) as [decoded|] eqn:Hdecode; [|discriminate].
  destruct (String.eqb (SlackEvent.Type_ decoded) "url_verification");
    [discriminate|].
  destruct (String.eqb_spec (SlackEvent.Type_ decoded) "event_callback")
    as [Htype|]; [|discriminate].
  intros [= <- <-]. exists body.
  split; [exact Hacc|]. split; [exact Hdecode|]. split; [exact Htype|reflexivity].
Qed.

Lemma HandleSlackEvents_authenticated_witness :
  ∃ body,
    accepted botConfig 1700000000 futureRequest body
    ∧ decodeExample body = Some reactionAdded
    ∧ SlackEvent.Type_ reactionAdded = "event_callback"%string
    ∧ Response.mk 200 [("status", "ok")]%string
      = Response.mk 200 [("status", "ok")]%string.
Proof.
  apply (HandleSlackEvents_authenticated botConfig 1700000000 decodeExample
           futureRequest).
  vm_compute. reflexivity.
Defined.

(** X18. When the variable [SLACK_SIGNING_SECRET] is unset or empty,
    the configuration that [Load] builds makes the verification reject
    every request: both entry points answer 401 with the error
    [invalid signature] and nothing is processed. *)
Theorem unconfigured_secret_rejects Getenv ParseFloat now decode r :
  Getenv "SLACK_SIGNING_SECRET"%string = EmptyString →
  verifySlackSignature (Load Getenv ParseFloat) now r = false
  ∧ HandleSlackEvents (Load Getenv ParseFloat) now decode r
    = (Response.mk 401 [("error", "invalid signature")]%string, None)
  ∧ HandleInteractiveComponents (Load Getenv ParseFloat) now r
    = Response.mk 401 [("error", "invalid signature")]%string.
Proof.
  intros Hunset.
  assert (Hverify : verifySlackSignature (Load Getenv ParseFloat) now r = false).
  { unfold verifySlackSignature, Load, getEnv. simpl Config.SlackSigningSecret.
    now rewrite Hunset. }
  unfold HandleSlackEvents, HandleInteractiveComponents.
  rewrite Hverify. repeat split.
Qed.

Lemma unconfigured_secret_rejects_witness :
  verifySlackSignature (Load (fun _ => EmptyString) (fun _ => None))
    1700000000 futureRequest = false
  ∧ HandleSlackEvents (Load (fun _ => EmptyString) (fun _ => None))
      1700000000 decodeExample futureRequest
    = (Response.mk 401 [("error", "invalid signature")]%string, None)
  ∧ HandleInteractiveComponents (Load (fun _ => EmptyString) (fun _ => None))
      1700000000 futureRequest
    = Response.mk 401 [("error", "invalid signature")]%string.
Proof.
  apply (unconfigured_secret_rejects (fun _ => EmptyString) (fun _ => None)).
  reflexivity.
Defined.

(** X19. [processSlackEvent] leaves the store as it is unless the event
    is a [reaction_added] event on an item of type [message] with the
    trigger emoji: removed reactions, other emojis, other items and other
    events change nothing. *)
Theorem processSlackEvent_ignores cfg env db event :
  String.eqb (SlackEventInner.Type_ (SlackEvent.Event event)) "reaction_added"
  && String.eqb
       (SlackEventItem.Type_ (SlackEventInner.Item (SlackEvent.Event event)))
       "message"
  && String.eqb (SlackEventInner.Reaction (SlackEvent.Event event))
       (Config.TriggerEmoji cfg)
  = false →
  processSlackEvent cfg env db event = Some db.
Proof.
  unfold processSlackEvent, handleReactionEvent, ProcessReactionEvent.
  destruct (String.eqb (SlackEventInner.Type_ _) "reaction_added");
    cbn [andb].
  - destruct (String.eqb (SlackEventItem.Type_ _) "message"); cbn [andb negb];
      [|reflexivity].
    intros ->. reflexivity.
  - intros _.
    destruct (String.eqb (SlackEventInner.Type_ _) "reaction_removed");
      [|reflexivity].
    destruct (String.eqb (SlackEventItem.Type_ _) "message"); cbn [negb];
      [|reflexivity].
    destruct (String.eqb (SlackEventInner.Reaction _) _); reflexivity.
Qed.

Lemma processSlackEvent_ignores_witness :
  processSlackEvent botConfig (answering true) oneInquiry reactionRemoved
  = Some oneInquiry.
Proof.
  apply (processSlackEvent_ignores botConfig (answering true) oneInquiry
           reactionRemoved).
  reflexivity.
Defined.

(** X20. [processSlackEvent] keeps the invariant of the store: the keys
    and the message identifiers of the inquiries stay unique, so that
    after the event no message has more than one inquiry. *)
Theorem processSlackEvent_invariant cfg env db event db' :
  storeInvariant db →
  processSlackEvent cfg env db event = Some db' →
  storeInvariant db' ∧ ∀ messageID, inquiriesFor db' messageID ≤ 1.
Proof.
  intros Hinv Hrun.
  assert (Hinv' : storeInvariant db').
  { revert Hrun. unfold processSlackEvent, handleReactionEvent.
    assert (Hreact : ∀ eventType,
              (if negb (String.eqb
                          (SlackEventItem.Type_
                             (SlackEventInner.Item (SlackEvent.Event event)))
                          "message")
               then Some db
               else
                 '(db0, _) ←
                   ProcessReactionEvent cfg env db
                     (SlackEventItem.TS
                        (SlackEventInner.Item (SlackEvent.Event event)))
                     (SlackEventItem.Channel
                        (SlackEventInner.Item (SlackEvent.Event event)))
                     (SlackEventInner.User (SlackEvent.Event event))
                     (SlackEventInner.Reaction (SlackEvent.Event event))
                     eventType
                     (SlackEventInner.EventTimestamp (SlackEvent.Event event));
                 Some db0) = Some db' →
              storeInvariant db').
    { intros eventType.
      destruct (negb _); [intros [= <-]; exact Hinv|].
      destruct (ProcessReactionEvent _ _ _ _ _ _ _ _ _) as [[db2 outcome]|] eqn:E;
        simpl; [|discriminate].
      intros [= <-].
      exact (ProcessReactionEvent_invariant _ _ _ _ _ _ _ _ _ _ _ Hinv E). }
    destruct (String.eqb _ "reaction_added"); [apply Hreact|].
    destruct (String.eqb _ "reaction_removed"); [apply Hreact|].
    intros [= <-]. exact Hinv. }
  split; [exact Hinv'|]. intros messageID. apply inquiriesFor_le_1, Hinv'.
Qed.

Lemma processSlackEvent_invariant_witness :
  ∃ db',
    processSlackEvent botConfig (answering true) DB.empty reactionAdded = Some db'
    ∧ storeInvariant db'
    ∧ ∀ messageID, inquiriesFor db' messageID ≤ 1.
Proof.
  eexists. split; [vm_compute; reflexivity|].
  eapply (processSlackEvent_invariant botConfig (answering true) DB.empty
            reactionAdded).
  - apply storeInvariant_empty.
  - vm_compute. reflexivity.
Defined.

(** *** The configuration *)

Lemma Atoi_nonempty value n : Atoi value = Some n → String.eqb value "" = false.
Proof. destruct value; [discriminate | reflexivity]. Qed.

(** X21. [Load] takes a negative decimal value of
    [MAX_SEARCH_RESULTS] as it is; with such a configuration every
    ranking panics, hence every search, and every run of the pipeline on
    a message that has no inquiry yet. *)
Theorem Load_negative_limit Getenv ParseFloat n :
  Atoi (Getenv "MAX_SEARCH_RESULTS"%string) = Some n →
  (n < 0)%Z →
  Config.MaxSearchResults (Load Getenv ParseFloat) = n
  ∧ (∀ results, filterAndRankResults (Load Getenv ParseFloat) results = None)
  ∧ (∀ env db query inquiryID,
       SearchAll (Load Getenv ParseFloat) env db query inquiryID = None)
  ∧ (∀ env db messageID channelID userID messageText timestamp,
       DB.firstInquiryByMessageID db messageID = None →
       ProcessInquiry (Load Getenv ParseFloat) env db messageID channelID userID
         messageText timestamp = None).
Proof.
  intros Hparse Hneg.
  assert (Hmax : Config.MaxSearchResults (Load Getenv ParseFloat) = n).
  { unfold Load, getEnvInt. simpl.
    now rewrite (Atoi_nonempty _ _ Hparse), Hparse. }
  assert (Hrank : ∀ results,
            filterAndRankResults (Load Getenv ParseFloat) results = None).
  { intros results. apply filterAndRankResults_panics. rewrite Hmax. exact Hneg. }
  assert (Hsearch : ∀ env db query inquiryID,
            SearchAll (Load Getenv ParseFloat) env db query inquiryID = None).
  { intros env db query inquiryID. unfold SearchAll.
    destruct (searchSlack _ _ _ _ _) as [db1 r1].
    destruct (searchConfluence _ _ _ _ _) as [db2 r2].
    now rewrite Hrank. }
  split; [exact Hmax|]. split; [exact Hrank|]. split; [exact Hsearch|].
  intros env db messageID channelID userID messageText timestamp Hnew.
  unfold ProcessInquiry. rewrite createInquiry_new, Hnew. cbv beta iota zeta.
  now rewrite Hsearch.
Qed.

Lemma Load_negative_limit_witness :
  Config.MaxSearchResults (Load negativeLimit (fun _ => None)) = (-1)%Z
  ∧ (∀ results,
       filterAndRankResults (Load negativeLimit (fun _ => None)) results = None)
  ∧ (∀ env db query inquiryID,
       SearchAll (Load negativeLimit (fun _ => None)) env db query inquiryID = None)
  ∧ (∀ env db messageID channelID userID messageText timestamp,
       DB.firstInquiryByMessageID db messageID = None →
       ProcessInquiry (Load negativeLimit (fun _ => None)) env db messageID
         channelID userID messageText timestamp = None).
Proof.
  apply (Load_negative_limit negativeLimit (fun _ => None) (-1)).
  - reflexivity.
  - reflexivity.
Defined.

Lemma groupBySource_fold results : ∀ slack confluence,
  fold_left groupBySource results (slack, confluence)
  = (slack ++ fromSource "slack" results,
     confluence ++ fromSource "confluence" results).
Proof.
  unfold fromSource.
  induction results as [|r rs IH]; intros slack confluence; simpl.
  - now rewrite !app_nil_r.
  - unfold groupBySource at 2. simpl.
    destruct (String.eqb_spec (SearchResult.Source r) "slack") as [E|E].
    + rewrite IH, E. simpl. now rewrite <- app_assoc.
    + destruct (String.eqb (SearchResult.Source r) "confluence").
      * rewrite IH. now rewrite <- app_assoc.
      * apply IH.
Qed.

Lemma slackContext_numbered results : ∀ i contextParts,
  slackContext i results contextParts
  = contextParts ++ numbered slackEntry (S i) results.
Proof.
  induction results as [|r rs IH]; intros i contextParts; simpl.
  - now rewrite app_nil_r.
  - rewrite IH. unfold slackEntry. rewrite Nat.add_1_r.
    destruct (String.eqb (SearchResult.Author r) ""); simpl;
      now rewrite <- !app_assoc.
Qed.

Lemma confluenceContext_numbered results : ∀ i contextParts,
  confluenceContext i results contextParts
  = contextParts ++ numbered confluenceEntry (S i) results.
Proof.
  induction results as [|r rs IH]; intros i contextParts; simpl.
  - now rewrite app_nil_r.
  - rewrite IH. unfold confluenceEntry. rewrite Nat.add_1_r.
    destruct (String.eqb (SearchResult.Content r) "");
      destruct (String.eqb (SearchResult.URL r) ""); simpl;
      now rewrite <- !app_assoc.
Qed.

(** X30. The context of a prompt is the line of the inquiry and an empty
    line, followed, when there is no result at all, by the line that
    nothing was found, and otherwise by the section of the Slack results
    and then the section of the documentation results: each section is
    there only when it has a result and holds its heading and its
    results in the order of the list, numbered from 1 on (for a Slack
    result the content and the author unless empty; for a document the
    title, the content unless empty and the link unless empty; an empty
    line after each).  Results of any other source are not mentioned, and
    a list that is not empty never yields the line that nothing was
    found. *)
Theorem buildContext_sections inquiry results :
  buildContext inquiry results = contextText inquiry results.
Proof.
  unfold buildContext, contextText.
  destruct results as [|r rs]; [reflexivity|].
  cbn [length Nat.eqb]. rewrite groupBySource_fold. cbn [app].
  set (slack := fromSource "slack" (r :: rs)).
  set (confluence := fromSource "confluence" (r :: rs)).
  f_equal.
  destruct slack as [|s ss], confluence as [|c cs]; cbn [length Nat.ltb Nat.leb contextSection].
  - reflexivity.
  - rewrite confluenceContext_numbered. reflexivity.
  - rewrite slackContext_numbered, app_nil_r. reflexivity.
  - rewrite confluenceContext_numbered, slackContext_numbered.
    rewrite <- !app_assoc. reflexivity.
Qed.

(** Results of another source leave no trace, but make the list non-empty. *)
Example buildContext_other_source :
  buildContext storedInquiry [otherResult]
  = ("Original inquiry: How to deploy service" +:+ newline)%string
  ∧ buildContext storedInquiry []
    = ("Original inquiry: How to deploy service" +:+ newline
       +:+ newline
       +:+ "No relevant historical information found.")%string.
Proof. split; vm_compute; reflexivity. Qed.

Example buildContext_example :
  buildContext storedInquiry [docResult; otherResult; foundResult]
  = ("Original inquiry: How to deploy service" +:+ newline
     +:+ newline
     +:+ "Similar past Slack discussions:" +:+ newline
     +:+ "1. deploy the service to production" +:+ newline
     +:+ "   (by U1)" +:+ newline
     +:+ newline
     +:+ "Relevant documentation:" +:+ newline
     +:+ "1. Deploy guide" +:+ newline
     +:+ "   How to deploy the service" +:+ newline
     +:+ "   Link: https://example.atlassian.net/wiki/x/98765" +:+ newline)%string.
Proof. vm_compute. reflexivity. Qed.

(** *** More on the entry point and on the search *)

(** X17. An accepted request whose body decodes to an event of type
    [url_verification] is answered by 200 with the challenge of the
    event, and nothing is handed over to the processing. *)
Theorem HandleSlackEvents_handshake cfg now decode r body event :
  accepted cfg now r body →
  decode body = Some event →
  SlackEvent.Type_ event = "url_verification"%string →
  HandleSlackEvents cfg now decode r
  = (Response.mk 200 [("challenge", SlackEvent.Challenge event)]%string, None).
Proof.
  intros Hacc Hdecode Htype. unfold HandleSlackEvents, ShouldBindJSON.
  rewrite (verifySlackSignature_accepted _ _ _ _ Hacc).
  destruct Hacc as (_ & _ & -> & _). simpl negb. cbv iota.
  now rewrite Hdecode, Htype.
Qed.

Lemma HandleSlackEvents_handshake_witness :
  HandleSlackEvents botConfig 1700000000 decodeChallenge futureRequest
  = (Response.mk 200
       [("challenge", "3eZbrw1aBm2rZgRNFdxV2595E9CY3gmdALWMmHkvFXO7tYXAYM8P")]%string,
     None).
Proof.
  apply (HandleSlackEvents_handshake botConfig 1700000000 decodeChallenge
           futureRequest "{}" challengeEvent).
  - split; [discriminate|]. split.
    + exists 1700003600%Z. split; [vm_compute; reflexivity|].
      vm_compute. discriminate.
    + split; reflexivity.
  - reflexivity.
  - reflexivity.
Defined.

(** X9. When the base URL or the token of the documentation platform
    is not configured, [SearchPages] returns no page without any
    request, and every result of [SearchAll] comes from Slack. *)
Theorem SearchAll_slack_only cfg env db query inquiryID db' out :
  Config.ConfluenceBaseURL cfg = EmptyString
  ∨ Config.ConfluenceAPIToken cfg = EmptyString →
  SearchAll cfg env db query inquiryID = Some (db', Ok out) →
  (∀ q, SearchPages cfg env q = Ok [])
  ∧ ∀ r, r ∈ out → SearchResult.Source r = "slack"%string.
Proof.
  intros Hconf Hrun.
  assert (Hpages : ∀ q, SearchPages cfg env q = Ok []).
  { intros q. unfold SearchPages. destruct Hconf as [H | H]; rewrite H.
    - reflexivity.
    - destruct (String.eqb _ ""); reflexivity. }
  split; [exact Hpages|]. intros r Hr.
  rewrite SearchAll_spec in Hrun. cbv zeta in Hrun.
  destruct (filterAndRankResults cfg _) as [ranked|] eqn:Hrank;
    simpl in Hrun; [|discriminate].
  injection Hrun as _ <-.
  apply (ranked_found _ _ _ _ Hrank) in Hr.
  unfold allResults in Hr. unfold searchConfluence at 1 in Hr.
  rewrite Hpages in Hr. simpl in Hr. rewrite app_nil_r in Hr.
  pose proof (searchSlack_reported cfg env db
                (strings.Join (extractKeywords (Env.To_LowerCase env) query) " ") inquiryID) as Hrep.
  rewrite List.Forall_forall in Hrep.
  apply list_elem_of_In, Hrep in Hr. now destruct Hr as (_ & _ & ?).
Qed.

Lemma SearchAll_slack_only_witness :
  (∀ q, SearchPages botConfig (failingModel deployMessage true) q = Ok [])
  ∧ ∀ r, r ∈ [foundResult] → SearchResult.Source r = "slack"%string.
Proof.
  eapply (SearchAll_slack_only botConfig (failingModel deployMessage true)
            DB.empty "How to deploy service" 1).
  - left. reflexivity.
  - vm_compute. reflexivity.
Defined.
